(** * terminal-on-web: session lifecycle and terminal bridge

    A shallow embedding of the backend of terminal-on-web
    (src/backend/server.js, server2.js and server3.js) and the
    properties of its command guard, session registry, terminal bridge
    and reaper.

    Conventions of the model:
    - a JavaScript string is a [string] whose characters are the code
      units of the string; the development covers strings whose code
      units are below 256 (Latin-1), which is where [trim] and
      [toLowerCase] are given here; the text of a websocket frame and
      the bytes written to a stream for it are the same string;
    - session objects live in a heap and are named by numbers, as the
      containers, execs, streams and websockets are; the
      [activeSessions] Map is a [gmap] from a session id to the name of
      its object, and the closures of a connection hold that name too;
      the Map is iterated in the order of [map_to_list], which no
      property here depends on;
    - calls into dockerode, the websocket and the exec stream are
      recorded as events of a trace, in program order;
    - an awaited runtime call settles with an [outcome] chosen by the
      environment; [Date.now()] and [uuidv4()] are given to the handlers
      as arguments;
    - the signal handlers, which end the process, and
      [session.handleResize] and [resetTerminalState], which nothing
      calls, are left out. *)

From Stdlib Require Import ZArith NArith Ascii String List Bool Lia.
From stdpp Require Import gmap strings list fin_maps pretty.
Import ListNotations.


(** ** JavaScript strings *)

Definition TAB : ascii := ascii_of_N 9.
Definition LF : ascii := ascii_of_N 10.
Definition CR : ascii := ascii_of_N 13.
Definition ETX : ascii := ascii_of_N 3.
Definition DQUOTE : ascii := ascii_of_N 34.

(** The one-character strings and the two-character line ending the
    handlers write. *)
Definition chr (c : ascii) : string := String c EmptyString.
Definition CRLF : string := String CR (String LF EmptyString).

Module JsString.

(** [WhiteSpace] and [LineTerminator] code units below 256, the
    characters [String.prototype.trim] strips: TAB, LF, VT, FF, CR,
    SP and NBSP. *)
Definition isWhiteSpace (c : ascii) : bool :=
  let n := N_of_ascii c in
  ((9 <=? n) && (n <=? 13) || (n =? 32) || (n =? 160))%N.

Fixpoint trimStart (s : string) : string :=
  match s with
  | EmptyString => EmptyString
  | String c s' => if isWhiteSpace c then trimStart s' else s
  end.

Fixpoint trimEnd (s : string) : string :=
  match s with
  | EmptyString => EmptyString
  | String c s' =>
      match trimEnd s' with
      | EmptyString => if isWhiteSpace c then EmptyString else String c EmptyString
      | t => String c t
      end
  end.

Definition trim (s : string) : string := trimEnd (trimStart s).

(** [s.split(sep)] for a one-character separator. *)
Fixpoint split (sep : ascii) (s : string) : list string :=
  match s with
  | EmptyString => [EmptyString]
  | String c s' =>
      if Ascii.eqb c sep then EmptyString :: split sep s'
      else match split sep s' with
           | [] => [String c EmptyString]
           | p :: ps => String c p :: ps
           end
  end.

(** [toLowerCase] on one code unit below 256: A-Z and the Latin-1
    capitals U+00C0..U+00DE (U+00D7, the multiplication sign, apart). *)
Definition lowerChar (c : ascii) : ascii :=
  let n := N_of_ascii c in
  if ((65 <=? n) && (n <=? 90)
      || (192 <=? n) && (n <=? 222) && negb (n =? 215))%N
  then ascii_of_N (n + 32) else c.

Fixpoint toLowerCase (s : string) : string :=
  match s with
  | EmptyString => EmptyString
  | String c s' => String (lowerChar c) (toLowerCase s')
  end.

(** [arr.includes(x)] and [arr.some(p)] on an array of strings. *)
Definition includes (arr : list string) (x : string) : bool :=
  existsb (String.eqb x) arr.

Definition some (p : string -> bool) (arr : list string) : bool :=
  existsb p arr.

(** [s.startsWith(p)]. *)
Definition startsWith (s p : string) : bool := String.prefix p s.

(** [s.includes(c)] for a character [c]. *)
Fixpoint hasChar (c : ascii) (s : string) : bool :=
  match s with
  | EmptyString => false
  | String c' s' => Ascii.eqb c' c || hasChar c s'
  end.

End JsString.

Import JsString.

(** ** CommandGuard (server3.js, lines 43-74) *)

Definition BLOCKED_COMMANDS : list string :=
  [ "shutdown"; "reboot"; "init"; "poweroff";
    "fdisk"; "mkfs"; "mkswap";
    "mount"; "umount";
    "iptables"; "ip6tables";
    "kexec"; "kernel"; "modprobe"; "insmod"; "rmmod";
    "sysctl";
    "tcpdump"; "wireshark"; "nmap";
    "docker"; "kubectl";
    "dd"; "rawread"; "rawwrite";
    "chroot";
    "lsmod"; "lspci"; "lsusb" ].

(** [command.trim().split(' ')[0].toLowerCase()]; [split] never returns
    an empty array, so [[0]] is always a string. *)
Definition firstWord (command : string) : string :=
  toLowerCase (hd EmptyString (split " " (trim command))).

Definition isCommandBlocked (command : string) : bool :=
  let cmd := firstWord command in
  includes BLOCKED_COMMANDS cmd
  || some (fun blocked => startsWith cmd (blocked +:+ " ")) BLOCKED_COMMANDS.

(** The reading of the specification: the first whitespace-delimited
    token of a line, where any white space character delimits. *)
Fixpoint untilWhiteSpace (s : string) : string :=
  match s with
  | EmptyString => EmptyString
  | String c s' => if isWhiteSpace c then EmptyString else String c (untilWhiteSpace s')
  end.

Definition firstWhitespaceToken (line : string) : string :=
  untilWhiteSpace (trimStart line).

(** A line whose command name is followed by a tab. *)
Definition tabbedReboot : string := "reboot" +:+ String TAB "now".

Definition spec_blocks (line : string) : Prop :=
  let tok := toLowerCase (firstWhitespaceToken line) in
  In tok BLOCKED_COMMANDS
  \/ exists name, In name BLOCKED_COMMANDS /\ tok = name +:+ " ".



(** ** The runtime: dockerode, the exec stream and the websocket *)

(** An awaited promise of the runtime settles one way or the other. *)
Inductive outcome := Resolved | Rejected.

(** What [ws.send] is given: a string (a text frame) or a Buffer (a
    binary frame). *)
Inductive payload :=
| Text (s : string)
| Binary (b : list Byte.byte).

Record Ulimit := { Name : string; Soft : Z; Hard : Z }.

Record hostConfig := {
  AutoRemove : bool;
  Memory : Z;
  MemorySwap : Z;
  CpuShares : Z;
  SecurityOpt : list string;
  CapDrop : list string;
  CapAdd : list string;
  NetworkMode : string;
  ReadonlyRootfs : bool;
  PidsLimit : Z;
  Ulimits : option (list Ulimit) }.

Record containerOptions := {
  Image : string;
  Cmd : option (list string);
  Tty : bool;
  OpenStdin : bool;
  AttachStdin : bool;
  AttachStdout : bool;
  AttachStderr : bool;
  Env : list string;
  HostConfig : hostConfig;
  WorkingDir : string }.

Record execOptions := {
  exCmd : list string;
  exAttachStdin : bool;
  exAttachStdout : bool;
  exAttachStderr : bool;
  exTty : bool;
  exEnv : list string }.

(** Containers, execs, streams and websockets are objects; the model
    names each by a number. Every call the server makes on one of them,
    and every line it logs, is an event. *)
Inductive event :=
| DockerCreateContainer (opts : containerOptions)
| ContainerStart (c : nat)
| ContainerExec (c : nat) (opts : execOptions)
| ExecStart (e : nat)
| ExecResize (e : nat) (h w : Z)
| ContainerStop (c : nat)
| ContainerRemove (c : nat)
| StreamWrite (s : nat) (data : string)
| StreamEnd (s : nat)
| WsSend (ws : nat) (data : payload)
| WsClose (ws : nat)
| ConsoleLog (msg : string)
| ConsoleError (msg : string).

(** ** Sessions and the server state *)

Record dims := { cols : Z; rows : Z }.

(** The session object. server.js stores [container], [exec], [stream]
    and [lastActivity]; server2.js and server3.js store [container],
    [lastActivity] and [dimensions], and the connection handler adds
    [exec] and [stream] later; server3.js also keeps [lastCommand]. A
    property that was never set is [None] ([undefined]). *)
Record session := {
  container : nat;
  exec : option nat;
  stream : option nat;
  lastActivity : Z;
  dimensions : option dims;
  lastCommand : option string }.

(** The closure of one websocket connection, with the handlers it
    registers: the session id, the session object, the stream of the
    exec, and [commandBuffer]; [wsOpen] is [ws.readyState === WebSocket.OPEN],
    [streamEnded] records [stream.end()]. *)
Record bridge := {
  bSessionId : string;
  bSession : nat;
  bStream : nat;
  commandBuffer : string;
  wsOpen : bool;
  streamEnded : bool }.

(** A call of [cleanupSession] suspended at one of its two awaits, with
    its [sessionId] and its [session] object. *)
Inductive cleanupTask :=
| AwaitStop (sessionId : string) (session : nat)
| AwaitRemove (sessionId : string) (session : nat).

#[global] Instance cleanupTask_eq_dec : EqDecision cleanupTask.
Proof. solve_decision. Defined.

(** The server: the heap of session objects, the [activeSessions] Map
    from a session id to its object, the bridges by websocket, the armed
    [setTimeout] timers (due time and session id), the suspended
    un-awaited cleanups, the trace of events, the next free object name
    and the number of awaits settled so far. *)
Record server := {
  heap : gmap nat session;
  activeSessions : gmap string nat;
  bridges : gmap nat bridge;
  timers : list (Z * string);
  pending : list cleanupTask;
  trace : list event;
  nextObject : nat;
  awaits : nat }.

Definition initial : server :=
  {| heap := ∅; activeSessions := ∅; bridges := ∅; timers := [];
     pending := []; trace := []; nextObject := 0; awaits := 0 |}.

Definition set_heap (f : gmap nat session -> gmap nat session) (st : server) : server :=
  {| heap := f (heap st); activeSessions := activeSessions st;
     bridges := bridges st; timers := timers st; pending := pending st;
     trace := trace st; nextObject := nextObject st; awaits := awaits st |}.

Definition set_activeSessions (f : gmap string nat -> gmap string nat) (st : server) : server :=
  {| heap := heap st; activeSessions := f (activeSessions st);
     bridges := bridges st; timers := timers st; pending := pending st;
     trace := trace st; nextObject := nextObject st; awaits := awaits st |}.

Definition set_bridges (f : gmap nat bridge -> gmap nat bridge) (st : server) : server :=
  {| heap := heap st; activeSessions := activeSessions st;
     bridges := f (bridges st); timers := timers st; pending := pending st;
     trace := trace st; nextObject := nextObject st; awaits := awaits st |}.

Definition set_timers (f : list (Z * string) -> list (Z * string)) (st : server) : server :=
  {| heap := heap st; activeSessions := activeSessions st;
     bridges := bridges st; timers := f (timers st); pending := pending st;
     trace := trace st; nextObject := nextObject st; awaits := awaits st |}.

Definition set_pending (f : list cleanupTask -> list cleanupTask) (st : server) : server :=
  {| heap := heap st; activeSessions := activeSessions st;
     bridges := bridges st; timers := timers st; pending := f (pending st);
     trace := trace st; nextObject := nextObject st; awaits := awaits st |}.

Definition set_trace (f : list event -> list event) (st : server) : server :=
  {| heap := heap st; activeSessions := activeSessions st;
     bridges := bridges st; timers := timers st; pending := pending st;
     trace := f (trace st); nextObject := nextObject st; awaits := awaits st |}.

Definition set_nextObject (f : nat -> nat) (st : server) : server :=
  {| heap := heap st; activeSessions := activeSessions st;
     bridges := bridges st; timers := timers st; pending := pending st;
     trace := trace st; nextObject := f (nextObject st); awaits := awaits st |}.

Definition set_awaits (f : nat -> nat) (st : server) : server :=
  {| heap := heap st; activeSessions := activeSessions st;
     bridges := bridges st; timers := timers st; pending := pending st;
     trace := trace st; nextObject := nextObject st; awaits := f (awaits st) |}.

(** ** The handler monad

    A handler runs against the server state and an oracle giving the
    outcome of its n-th await; it completes normally with a value or
    throws. A handler that is awaited to its end runs here without other
    handlers in between; the un-awaited cleanups of the reaper are the
    [pending] tasks, which settle one await at a time. *)
Inductive completion (A : Type) :=
| Normal (a : A)
| Thrown.
Arguments Normal {A} a.
Arguments Thrown {A}.

Definition js (A : Type) : Type := (nat -> outcome) -> server -> completion A * server.

Definition ret {A} (a : A) : js A := fun _ st => (Normal a, st).

Definition bind {A B} (m : js A) (k : A -> js B) : js B :=
  fun rt st =>
    match m rt st with
    | (Normal a, st') => k a rt st'
    | (Thrown, st') => (Thrown, st')
    end.

Notation "x <- m ;; k" := (bind m (fun x => k))
  (at level 100, m at next level, right associativity).
Notation "m ;;; k" := (bind m (fun _ => k))
  (at level 100, right associativity).

Definition throw {A} : js A := fun _ st => (Thrown, st).

(** [try { body } catch (error) { handler }] *)
Definition try_catch {A} (body handler : js A) : js A :=
  fun rt st =>
    match body rt st with
    | (Normal a, st') => (Normal a, st')
    | (Thrown, st') => handler rt st'
    end.

(** [try { body } finally { fin }], for a [fin] that completes normally
    or throws. *)
Definition try_finally {A} (body : js A) (fin : js unit) : js A :=
  fun rt st =>
    match body rt st with
    | (r, st') =>
        match fin rt st' with
        | (Normal _, st'') => (r, st'')
        | (Thrown, st'') => (Thrown, st'')
        end
    end.

Definition gets {A} (f : server -> A) : js A := fun _ st => (Normal (f st), st).
Definition modify (f : server -> server) : js unit := fun _ st => (Normal tt, f st).

(** A call that cannot fail: the event joins the trace. *)
Definition emit (ev : event) : js unit := modify (set_trace (fun t => (t ++ [ev]))).

(** [await call]: the call is made, and the handler goes on when the
    promise resolves or throws when it rejects. *)
Definition await (ev : event) : js unit :=
  emit ev ;;;
  n <- gets awaits ;;
  modify (set_awaits S) ;;;
  fun rt st => match rt n with
               | Resolved => (Normal tt, st)
               | Rejected => (Thrown, st)
               end.

(** An awaited call that yields a new object. *)
Definition awaitNew (ev : event) : js nat :=
  await ev ;;;
  o <- gets nextObject ;;
  modify (set_nextObject S) ;;;
  ret o.

(** [new] of a session object. *)
Definition newSession (s : session) : js nat :=
  r <- gets nextObject ;;
  modify (set_nextObject S) ;;;
  modify (set_heap (insert r s)) ;;;
  ret r.

(** [activeSessions.get], [.has], [.set] and [.delete]. *)
Definition activeSessions_get (sessionId : string) : js (option nat) :=
  gets (fun st => activeSessions st !! sessionId).

Definition activeSessions_has (sessionId : string) : js bool :=
  gets (fun st => bool_decide (is_Some (activeSessions st !! sessionId))).

Definition activeSessions_set (sessionId : string) (r : nat) : js unit :=
  modify (set_activeSessions (insert sessionId r)).

Definition activeSessions_delete (sessionId : string) : js unit :=
  modify (set_activeSessions (delete sessionId)).

(** Reading and assigning a property of the session object [r]. A
    reference the server holds always names an object of the heap; on
    any other the access throws, as a property access on [undefined]
    does. *)
Definition field {A} (r : nat) (f : session -> A) : js A :=
  fun _ st =>
    match heap st !! r with
    | Some s => (Normal (f s), st)
    | None => (Thrown, st)
    end.

Definition assign (r : nat) (f : session -> session) : js unit :=
  fun _ st =>
    match heap st !! r with
    | Some s => (Normal tt, set_heap (insert r (f s)) st)
    | None => (Thrown, st)
    end.

(** [for (const x of xs) body(x)] *)
Fixpoint forEach {A} (xs : list A) (body : A -> js unit) : js unit :=
  match xs with
  | [] => ret tt
  | x :: xs' => body x ;;; forEach xs' body
  end.

Definition with_exec (e : option nat) (s : session) : session :=
  {| container := container s; exec := e; stream := stream s;
     lastActivity := lastActivity s; dimensions := dimensions s;
     lastCommand := lastCommand s |}.
Definition with_stream (x : option nat) (s : session) : session :=
  {| container := container s; exec := exec s; stream := x;
     lastActivity := lastActivity s; dimensions := dimensions s;
     lastCommand := lastCommand s |}.
Definition with_lastActivity (t : Z) (s : session) : session :=
  {| container := container s; exec := exec s; stream := stream s;
     lastActivity := t; dimensions := dimensions s;
     lastCommand := lastCommand s |}.
Definition with_dimensions (d : option dims) (s : session) : session :=
  {| container := container s; exec := exec s; stream := stream s;
     lastActivity := lastActivity s; dimensions := d;
     lastCommand := lastCommand s |}.
Definition with_lastCommand (c : option string) (s : session) : session :=
  {| container := container s; exec := exec s; stream := stream s;
     lastActivity := lastActivity s; dimensions := dimensions s;
     lastCommand := c |}.

(** The JSON bodies of the control surface. *)
Inductive json :=
| JString (s : string)
| JNumber (z : Z)
| JBool (b : bool).

Record response := { status : nat; body : list (string * json) }.

Definition respond (code : nat) (fields : list (string * json)) : js response :=
  ret {| status := code; body := fields |}.

(** ** The termination path (cleanupSession, the same in the three servers) *)

Definition cleanupError (sessionId : string) : event :=
  ConsoleError ("Error cleaning up session " +:+ sessionId +:+ ":").

(** [await cleanupSession(sessionId)]: the call run to its end. *)
Definition cleanupSession (sessionId : string) : js unit :=
  session <- activeSessions_get sessionId ;;
  match session with
  | Some r =>
      try_finally
        (try_catch
           (c <- field r container ;;
            await (ContainerStop c) ;;;
            c' <- field r container ;;
            await (ContainerRemove c'))
           (emit (cleanupError sessionId)))
        (activeSessions_delete sessionId)
  | None => ret tt
  end.

(** [cleanupSession(sessionId)] called and not awaited: the call runs
    up to [await session.container.stop()] and is left suspended there. *)
Definition startCleanup (sessionId : string) : js unit :=
  session <- activeSessions_get sessionId ;;
  match session with
  | Some r =>
      try_catch
        (c <- field r container ;;
         emit (ContainerStop c) ;;;
         modify (set_pending (fun p => (p ++ [AwaitStop sessionId r]))))
        (emit (cleanupError sessionId) ;;; activeSessions_delete sessionId)
  | None => ret tt
  end.

(** The awaited call of the [i]-th suspended cleanup settles with [o]
    and the cleanup runs on to its next await, or to its end through
    [catch] and [finally]. *)
Definition settle (i : nat) (o : outcome) : js unit :=
  t <- gets (fun st => pending st !! i) ;;
  match t with
  | None => ret tt
  | Some (AwaitStop sessionId r) =>
      match o with
      | Resolved =>
          try_catch
            (c <- field r container ;;
             emit (ContainerRemove c) ;;;
             modify (set_pending (fun p => <[i := AwaitRemove sessionId r]> p)))
            (modify (set_pending (delete i)) ;;;
             emit (cleanupError sessionId) ;;;
             activeSessions_delete sessionId)
      | Rejected =>
          modify (set_pending (delete i)) ;;;
          emit (cleanupError sessionId) ;;;
          activeSessions_delete sessionId
      end
  | Some (AwaitRemove sessionId r) =>
      modify (set_pending (delete i)) ;;;
      match o with
      | Resolved => ret tt
      | Rejected => emit (cleanupError sessionId)
      end ;;;
      activeSessions_delete sessionId
  end.

(** A schedule settles suspended cleanups one await at a time, in the
    order and with the outcomes the environment picks. *)
Fixpoint runSchedule (sch : list (nat * outcome)) : js unit :=
  match sch with
  | [] => ret tt
  | (i, o) :: sch' => settle i o ;;; runSchedule sch'
  end.

(** The task of [sessionId], if one is suspended. *)
Definition taskId (t : cleanupTask) : string :=
  match t with
  | AwaitStop sessionId _ => sessionId
  | AwaitRemove sessionId _ => sessionId
  end.

(** ** server3.js *)

Module Server3.

Definition securityProfile : hostConfig :=
  {| AutoRemove := true;
     Memory := 512 * 1024 * 1024;
     MemorySwap := 512 * 1024 * 1024;
     CpuShares := 256;
     SecurityOpt := ["no-new-privileges:false"; "seccomp=unconfined"];
     CapDrop := ["ALL"];
     CapAdd := ["AUDIT_WRITE"; "CHOWN"; "DAC_OVERRIDE"; "SETGID"; "SETUID";
                "NET_BIND_SERVICE"; "SYS_ADMIN"];
     NetworkMode := "bridge";
     ReadonlyRootfs := false;
     PidsLimit := 100;
     Ulimits := Some [{| Name := "nofile"; Soft := 1024; Hard := 2048 |}] |}.

Definition createOptions (cols rows : Z) : containerOptions :=
  {| Image := "persistent_centos";
     Tty := true;
     OpenStdin := true;
     AttachStdin := true;
     AttachStdout := true;
     AttachStderr := true;
     Env := ["TERM=xterm-256color";
             "COLUMNS=" +:+ pretty cols;
             "LINES=" +:+ pretty rows];
     Cmd := Some ["/bin/bash"];
     HostConfig := securityProfile;
     WorkingDir := "/root" |}.

Definition indent : string := "                ".

(** The template literal of the provisioning exec; a backslash before a
    line break is a line continuation. *)
Definition provisionScript : string :=
  chr LF +:+
  indent +:+ "yum update -y && " +:+
  indent +:+ "yum install -y sudo && " +:+
  indent +:+ "useradd -m -s /bin/bash admin && " +:+
  indent +:+ "echo " +:+ chr DQUOTE +:+ "admin:admin" +:+ chr DQUOTE +:+ " | chpasswd && " +:+
  indent +:+ "usermod -aG wheel admin && " +:+
  indent +:+ "echo " +:+ chr DQUOTE +:+ "admin ALL=(ALL) NOPASSWD:ALL" +:+ chr DQUOTE +:+ " >> /etc/sudoers" +:+
  chr LF +:+ "            ".

Definition provisionExec : execOptions :=
  {| exCmd := ["/bin/bash"; "-c"; provisionScript];
     exAttachStdin := false;
     exAttachStdout := true;
     exAttachStderr := true;
     exTty := false;
     exEnv := [] |}.

(** [app.post('/api/sessions')]; [sessionId] is what [uuidv4()] returned,
    [cols] and [rows] the fields of the body ([None] when absent), [now]
    is [Date.now()]. *)
Definition createSession (sessionId : string) (cols rows : option Z) (now : Z) : js response :=
  try_catch
    (let cols := default 80%Z cols in
     let rows := default 24%Z rows in
     container <- awaitNew (DockerCreateContainer (createOptions cols rows)) ;;
     await (ContainerStart container) ;;;
     exec <- awaitNew (ContainerExec container provisionExec) ;;
     await (ExecStart exec) ;;;
     session <- newSession {| container := container; exec := None; stream := None;
                              lastActivity := now;
                              dimensions := Some {| cols := cols; rows := rows |};
                              lastCommand := None |} ;;
     activeSessions_set sessionId session ;;;
     respond 200 [("sessionId", JString sessionId);
                  ("message", JString "Session created successfully");
                  ("expiresIn", JString "30 minutes")])
    (emit (ConsoleError "Error creating session:") ;;;
     respond 500 [("error", JString "Failed to create session")]).

(** [app.post('/api/sessions/:sessionId/resize')] *)
Definition resizeSession (sessionId : string) (cols rows : Z) : js response :=
  session <- activeSessions_get sessionId ;;
  match session with
  | None => respond 404 [("error", JString "Session not found")]
  | Some r =>
      try_catch
        (exec <- field r exec ;;
         match exec with
         | Some e =>
             await (ExecResize e rows cols) ;;;
             assign r (with_dimensions (Some {| cols := cols; rows := rows |}))
         | None => ret tt
         end ;;;
         respond 200 [("message", JString "Terminal resized")])
        (emit (ConsoleError "Error resizing terminal:") ;;;
         respond 500 [("error", JString "Failed to resize terminal")])
  end.

(** [app.delete('/api/sessions/:sessionId')] *)
Definition deleteSession (sessionId : string) : js response :=
  try_catch
    (cleanupSession sessionId ;;;
     respond 200 [("message", JString "Session terminated successfully")])
    (emit (ConsoleError "Error terminating session:") ;;;
     respond 500 [("error", JString "Failed to terminate session")]).

Definition shellExec (d : dims) : execOptions :=
  {| exCmd := ["/bin/bash"];
     exAttachStdin := true;
     exAttachStdout := true;
     exAttachStderr := true;
     exTty := true;
     exEnv := ["TERM=xterm-256color";
               "COLUMNS=" +:+ pretty (cols d);
               "LINES=" +:+ pretty (rows d)] |}.

Definition initCommands (d : dims) : list string :=
  ["export TERM=xterm-256color";
   "export COLUMNS=" +:+ pretty (cols d);
   "export LINES=" +:+ pretty (rows d);
   "export PS1=" +:+ chr DQUOTE +:+ "[\u@\h \W]\$ " +:+ chr DQUOTE;
   "stty rows " +:+ pretty (rows d) +:+ " cols " +:+ pretty (cols d);
   "trap " +:+ chr DQUOTE +:+ "printf \" +:+ chr DQUOTE +:+ "\033[2J\033[H\033[3J\"
     +:+ chr DQUOTE +:+ "; stty sane" +:+ chr DQUOTE +:+ " EXIT";
   "clear"].

(** [wss.on('connection')]; the bridge of [ws] stands for the handlers
    the connection registers and the variables they close over. *)
Definition connection (ws : nat) (sessionId : string) : js unit :=
  session <- activeSessions_get sessionId ;;
  match session with
  | None =>
      emit (WsSend ws (Text ("Session not found or expired" +:+ CRLF))) ;;;
      emit (WsClose ws)
  | Some r =>
      try_catch
        (container <- field r container ;;
         dimensions <- field r dimensions ;;
         d <- match dimensions with Some d => ret d | None => throw end ;;
         exec <- awaitNew (ContainerExec container (shellExec d)) ;;
         stream <- awaitNew (ExecStart exec) ;;
         assign r (with_exec (Some exec)) ;;;
         assign r (with_stream (Some stream)) ;;;
         forEach (initCommands d) (fun cmd => emit (StreamWrite stream (cmd +:+ chr LF))) ;;;
         modify (set_bridges (insert ws {| bSessionId := sessionId;
                                           bSession := r; bStream := stream;
                                           commandBuffer := EmptyString;
                                           wsOpen := true; streamEnded := false |})))
        (emit (ConsoleError "Error setting up WebSocket connection:") ;;;
         emit (WsClose ws))
  end.

Definition setCommandBuffer (ws : nat) (s : string) : js unit :=
  modify (set_bridges (alter (fun b =>
    {| bSessionId := bSessionId b; bSession := bSession b;
       bStream := bStream b; commandBuffer := s;
       wsOpen := wsOpen b; streamEnded := streamEnded b |}) ws)).

Definition blockedWarning : string :=
  CRLF +:+ "This command is blocked for security reasons" +:+ CRLF.

(** A non-empty string is truthy. *)
Definition truthy (s : string) : bool := negb (s =? EmptyString)%string.

(** [ws.on('message')]; [data] is the text of the frame,
    [data.toString()], and [stream.write(data)] is recorded with it. *)
Definition onMessage (ws : nat) (data : string) (now : Z) : js unit :=
  b <- gets (fun st => bridges st !! ws) ;;
  match b with
  | None => ret tt
  | Some b =>
      let session := bSession b in
      let stream := bStream b in
      let commandBuffer := commandBuffer b in
      try_catch
        (assign session (with_lastActivity now) ;;;
         let input := data in
         if (input =? chr CR)%string || (input =? chr LF)%string then
           if truthy (trim commandBuffer) && isCommandBlocked (trim commandBuffer) then
             emit (StreamWrite stream blockedWarning) ;;;
             setCommandBuffer ws EmptyString
           else
             topExit <- (if (trim commandBuffer =? "q")%string
                         then lastCommand <- field session lastCommand ;;
                              ret (bool_decide (lastCommand = Some "top"))
                         else ret false) ;;
             if (topExit : bool) then
               emit (StreamWrite stream (chr ETX)) ;;;
               emit (StreamWrite stream CRLF) ;;;
               assign session (with_lastCommand (Some EmptyString)) ;;;
               setCommandBuffer ws EmptyString
             else
               (if truthy (trim commandBuffer)
                then assign session
                       (with_lastCommand (Some (hd EmptyString (split " " (trim commandBuffer)))))
                else ret tt) ;;;
               setCommandBuffer ws EmptyString ;;;
               emit (StreamWrite stream data)
         else
           setCommandBuffer ws (commandBuffer +:+ input) ;;;
           emit (StreamWrite stream data))
        (emit (ConsoleError "Error processing input:"))
  end.

(** [chunk.slice(start, end)] of a Buffer, for [start <= end]. *)
Definition slice (start stop : nat) (chunk : list Byte.byte) : list Byte.byte :=
  take (stop - start) (drop start chunk).

Definition maxChunkSize : nat := 1024.

(** [for (let i = 0; i < chunk.length; i += maxChunkSize)], from [i] on;
    [fuel] bounds the number of rounds, and [length chunk] rounds are
    enough. *)
Fixpoint sendSubChunks (fuel : nat) (ws : nat) (chunk : list Byte.byte) (i : nat) : js unit :=
  match fuel with
  | O => ret tt
  | S fuel' =>
      if (i <? length chunk)%nat then
        let subChunk := slice i (Nat.min (i + maxChunkSize) (length chunk)) chunk in
        emit (WsSend ws (Binary subChunk)) ;;;
        sendSubChunks fuel' ws chunk (i + maxChunkSize)
      else ret tt
  end.

(** [stream.on('data')] *)
Definition onStreamData (ws : nat) (chunk : list Byte.byte) : js unit :=
  b <- gets (fun st => bridges st !! ws) ;;
  match b with
  | None => ret tt
  | Some b =>
      if wsOpen b then
        try_catch
          (if (maxChunkSize <? length chunk)%nat
           then sendSubChunks (length chunk) ws chunk 0
           else emit (WsSend ws (Binary chunk)))
          (emit (ConsoleError "Error sending data to websocket:"))
      else ret tt
  end.

(** [stream.on('error')] *)
Definition onStreamError (ws : nat) : js unit :=
  b <- gets (fun st => bridges st !! ws) ;;
  match b with
  | None => ret tt
  | Some b =>
      emit (ConsoleError "Stream error:") ;;;
      if wsOpen b
      then emit (WsSend ws (Text (CRLF +:+ "Terminal error occurred. Reconnecting..." +:+ CRLF)))
      else ret tt
  end.

(** [ws.on('close')]: the socket is closed by now, and the handler ends
    the stream. *)
Definition onClose (ws : nat) : js unit :=
  b <- gets (fun st => bridges st !! ws) ;;
  match b with
  | None => ret tt
  | Some b =>
      modify (set_bridges (insert ws
        {| bSessionId := bSessionId b; bSession := bSession b; bStream := bStream b;
           commandBuffer := commandBuffer b;
           wsOpen := false; streamEnded := true |})) ;;;
      emit (ConsoleLog ("WebSocket closed for session: " +:+ bSessionId b)) ;;;
      emit (StreamEnd (bStream b))
  end.

Definition idleThreshold : Z := 30 * 60 * 1000.

(** The body of the sweep for one entry of the Map: the cleanup is
    called and not awaited. *)
Definition reapIfIdle (now : Z) (entry : string * nat) : js unit :=
  let '(sessionId, session) := entry in
  lastActivity <- field session lastActivity ;;
  if (idleThreshold <? now - lastActivity)%Z
  then startCleanup sessionId
  else ret tt.

(** The [setInterval] callback: one sweep of the reaper at time [now]. *)
Definition reaperSweep (now : Z) : js unit :=
  entries <- gets (fun st => map_to_list (activeSessions st)) ;;
  forEach entries (reapIfIdle now).


(** What the event loop of server3.js is given to run. *)
Inductive input :=
| Create (sessionId : string) (cols rows : option Z) (now : Z)
| Resize (sessionId : string) (cols rows : Z)
| Delete (sessionId : string)
| Connect (ws : nat) (sessionId : string)
| Message (ws : nat) (data : string) (now : Z)
| StreamData (ws : nat) (chunk : list Byte.byte)
| StreamError (ws : nat)
| Close (ws : nat)
| Sweep (now : Z)
| Settle (i : nat) (o : outcome).

Definition handle (ev : input) : js unit :=
  match ev with
  | Create sessionId cols rows now => createSession sessionId cols rows now ;;; ret tt
  | Resize sessionId cols rows => resizeSession sessionId cols rows ;;; ret tt
  | Delete sessionId => deleteSession sessionId ;;; ret tt
  | Connect ws sessionId => connection ws sessionId
  | Message ws data now => onMessage ws data now
  | StreamData ws chunk => onStreamData ws chunk
  | StreamError ws => onStreamError ws
  | Close ws => onClose ws
  | Sweep now => reaperSweep now
  | Settle i o => settle i o
  end.

End Server3.

(** ** server.js *)

Module Server1.

Definition securityProfile : hostConfig :=
  {| AutoRemove := true;
     Memory := 1024 * 1024 * 1024;
     MemorySwap := 1024 * 1024 * 1024;
     CpuShares := 512;
     SecurityOpt := ["no-new-privileges"];
     CapDrop := ["ALL"];
     CapAdd := ["NET_ADMIN"];
     NetworkMode := "bridge";
     ReadonlyRootfs := false;
     PidsLimit := 100;
     Ulimits := None |}.

Definition createOptions : containerOptions :=
  {| Image := "persistent_centos";
     Cmd := Some ["/bin/bash"];
     Tty := true;
     OpenStdin := true;
     AttachStdin := true;
     AttachStdout := true;
     AttachStderr := true;
     Env := ["TERM=xterm-256color";
             "SHELL=/bin/bash";
             "PATH=/usr/local/sbin:/usr/local/bin:/usr/sbin:/usr/bin:/sbin:/bin"];
     HostConfig := securityProfile;
     WorkingDir := "/root" |}.

Definition shellExec : execOptions :=
  {| exCmd := ["/bin/bash"];
     exAttachStdin := true;
     exAttachStdout := true;
     exAttachStderr := true;
     exTty := true;
     exEnv := ["TERM=xterm-256color"; "SHELL=/bin/bash"] |}.

Definition sessionTimeout : Z := 30 * 60 * 1000.

(** [app.post('/api/sessions')]; [setTimeout] arms a timer due
    [sessionTimeout] after [now]. *)
Definition createSession (sessionId : string) (now : Z) : js response :=
  try_catch
    (container <- awaitNew (DockerCreateContainer createOptions) ;;
     await (ContainerStart container) ;;;
     exec <- awaitNew (ContainerExec container shellExec) ;;
     stream <- awaitNew (ExecStart exec) ;;
     session <- newSession {| container := container; exec := Some exec;
                              stream := Some stream; lastActivity := now;
                              dimensions := None; lastCommand := None |} ;;
     activeSessions_set sessionId session ;;;
     modify (set_timers (fun ts => (ts ++ [((now + sessionTimeout)%Z, sessionId)]))) ;;;
     respond 200 [("sessionId", JString sessionId);
                  ("message", JString "Session created successfully");
                  ("expiresIn", JString "30 minutes")])
    (emit (ConsoleError "Error creating session:") ;;;
     respond 500 [("error", JString "Failed to create session")]).

(** The callback of the timer armed by [createSession]: an async
    function nobody awaits. With the session registered it calls
    [cleanupSession], which runs up to [await session.container.stop()];
    the callback returns there with the cleanup suspended, and the rest
    of the cleanup runs as its awaits settle. *)
Definition onTimeout (sessionId : string) : js unit :=
  has <- activeSessions_has sessionId ;;
  if (has : bool) then startCleanup sessionId else ret tt.

(** The [i]-th armed timer expires at time [now]: a timer runs its
    callback once, and not before it is due. *)
Definition fireTimer (i : nat) (now : Z) : js unit :=
  t <- gets (fun st => timers st !! i) ;;
  match t with
  | Some (due, sessionId) =>
      if (due <=? now)%Z
      then modify (set_timers (delete i)) ;;; onTimeout sessionId
      else ret tt
  | None => ret tt
  end.

(** [wss.on('connection')] *)
Definition connection (ws : nat) (sessionId : string) : js unit :=
  session <- activeSessions_get sessionId ;;
  match session with
  | None =>
      emit (WsSend ws (Text ("Session not found or expired" +:+ chr LF))) ;;;
      emit (WsClose ws)
  | Some r =>
      emit (ConsoleLog ("New WebSocket connection for session: " +:+ sessionId)) ;;;
      try_catch
        (stream <- field r stream ;;
         emit (WsSend ws (Text ("Connected to CentOS Development Terminal. Type your commands..."
                                +:+ chr LF))) ;;;
         stream <- match stream with Some s => ret s | None => throw end ;;
         emit (StreamWrite stream ("export TERM=xterm-256color" +:+ chr LF)) ;;;
         emit (StreamWrite stream ("export PS1=" +:+ chr DQUOTE +:+ "\u@\h:\w\$ "
                                   +:+ chr DQUOTE +:+ chr LF)) ;;;
         emit (StreamWrite stream ("clear" +:+ chr LF)) ;;;
         modify (set_bridges (insert ws {| bSessionId := sessionId;
                                           bSession := r; bStream := stream;
                                           commandBuffer := EmptyString;
                                           wsOpen := true; streamEnded := false |})))
        (emit (ConsoleError "Error setting up WebSocket connection:") ;;;
         emit (WsSend ws (Text ("Error setting up terminal connection" +:+ chr LF))) ;;;
         emit (WsClose ws))
  end.

(** [ws.on('message')] *)
Definition onMessage (ws : nat) (data : string) (now : Z) : js unit :=
  b <- gets (fun st => bridges st !! ws) ;;
  match b with
  | None => ret tt
  | Some b =>
      try_catch
        (assign (bSession b) (with_lastActivity now) ;;;
         let command := data in
         if (0 <? String.length (trim command))%nat
         then emit (StreamWrite (bStream b) (command +:+ chr LF))
         else ret tt)
        (emit (ConsoleError "Error processing command:") ;;;
         emit (WsSend ws (Text ("Error processing command" +:+ chr LF))))
  end.

(** [stream.on('data')]: [chunk.toString()] goes out as one text frame. *)
Definition onStreamData (ws : nat) (chunk : list Byte.byte) : js unit :=
  b <- gets (fun st => bridges st !! ws) ;;
  match b with
  | None => ret tt
  | Some b =>
      try_catch
        (emit (WsSend ws (Text (string_of_list_byte chunk))))
        (emit (ConsoleError "Error sending data to websocket:"))
  end.

(** [stream.on('error')] *)
Definition onStreamError (ws : nat) : js unit :=
  b <- gets (fun st => bridges st !! ws) ;;
  match b with
  | None => ret tt
  | Some b =>
      emit (ConsoleError "Stream error:") ;;;
      emit (WsSend ws (Text ("Terminal error occurred" +:+ chr LF))) ;;;
      emit (WsClose ws)
  end.

(** [ws.on('close')]: the socket is closed by now; the handler logs and
    leaves the stream as it is. *)
Definition onClose (ws : nat) : js unit :=
  b <- gets (fun st => bridges st !! ws) ;;
  match b with
  | None => ret tt
  | Some b =>
      modify (set_bridges (insert ws
        {| bSessionId := bSessionId b; bSession := bSession b; bStream := bStream b;
           commandBuffer := commandBuffer b;
           wsOpen := false; streamEnded := streamEnded b |})) ;;;
      emit (ConsoleLog ("WebSocket closed for session: " +:+ bSessionId b))
  end.

(** [app.get('/api/sessions/:sessionId')] *)
Definition getStatus (sessionId : string) : js response :=
  session <- activeSessions_get sessionId ;;
  match session with
  | None => respond 404 [("error", JString "Session not found")]
  | Some r =>
      lastActivity <- field r lastActivity ;;
      respond 200 [("sessionId", JString sessionId);
                   ("active", JBool true);
                   ("lastActivity", JNumber lastActivity)]
  end.

(** [app.delete('/api/sessions/:sessionId')] *)
Definition deleteSession (sessionId : string) : js response :=
  has <- activeSessions_has sessionId ;;
  if negb has then respond 404 [("error", JString "Session not found")]
  else
    try_catch
      (cleanupSession sessionId ;;;
       respond 200 [("message", JString "Session terminated successfully")])
      (emit (ConsoleError "Error terminating session:") ;;;
       respond 500 [("error", JString "Failed to terminate session")]).

(** The [setInterval] callback. The callback of [forEach] is an async
    function nobody awaits: what it throws rejects its promise and is
    lost, and its cleanup is left suspended at its first await. *)
Definition reaperSweep (now : Z) : js unit :=
  let timeout := (30 * 60 * 1000)%Z in
  entries <- gets (fun st => map_to_list (activeSessions st)) ;;
  forEach entries (fun '(sessionId, session) =>
    try_catch
      (lastActivity <- field session lastActivity ;;
       if (timeout <? now - lastActivity)%Z
       then emit (ConsoleLog ("Cleaning up inactive session: " +:+ sessionId)) ;;;
            startCleanup sessionId
       else ret tt)
      (ret tt)).

(** The loop of the SIGTERM handler: the sessions are cleaned up one
    after the other, each cleanup awaited to its end. *)
Definition cleanupLoop : js unit :=
  emit (ConsoleLog "SIGTERM signal received. Cleaning up...") ;;;
  entries <- gets (fun st => map_to_list (activeSessions st)) ;;
  forEach entries (fun '(sessionId, session) => cleanupSession sessionId).

(** What the event loop of server.js is given to run: a request of the
    control surface, an event of a websocket or of a stream, a sweep of
    the reaper, the settling of an await of a suspended cleanup, or the
    expiry of a timer. *)
Inductive input :=
| Create (sessionId : string) (now : Z)
| Status (sessionId : string)
| Delete (sessionId : string)
| Connect (ws : nat) (sessionId : string)
| Message (ws : nat) (data : string) (now : Z)
| StreamData (ws : nat) (chunk : list Byte.byte)
| StreamError (ws : nat)
| Close (ws : nat)
| Sweep (now : Z)
| Settle (i : nat) (o : outcome)
| Timer (i : nat) (now : Z).

Definition handle (ev : input) : js unit :=
  match ev with
  | Create sessionId now => createSession sessionId now ;;; ret tt
  | Status sessionId => getStatus sessionId ;;; ret tt
  | Delete sessionId => deleteSession sessionId ;;; ret tt
  | Connect ws sessionId => connection ws sessionId
  | Message ws data now => onMessage ws data now
  | StreamData ws chunk => onStreamData ws chunk
  | StreamError ws => onStreamError ws
  | Close ws => onClose ws
  | Sweep now => reaperSweep now
  | Settle i o => settle i o
  | Timer i now => fireTimer i now
  end.

End Server1.

(** ** server2.js *)

Module Server2.

Definition securityProfile : hostConfig :=
  {| AutoRemove := true;
     Memory := 1024 * 1024 * 1024;
     MemorySwap := 1024 * 1024 * 1024;
     CpuShares := 512;
     SecurityOpt := ["no-new-privileges"];
     CapDrop := ["ALL"];
     CapAdd := ["NET_ADMIN"];
     NetworkMode := "bridge";
     ReadonlyRootfs := false;
     PidsLimit := 100;
     Ulimits := None |}.

Definition createOptions (cols rows : Z) : containerOptions :=
  {| Image := "persistent_centos";
     Tty := true;
     OpenStdin := true;
     AttachStdin := true;
     AttachStdout := true;
     AttachStderr := true;
     Env := ["TERM=xterm-256color";
             "SHELL=/bin/bash";
             "COLUMNS=" +:+ pretty cols;
             "LINES=" +:+ pretty rows];
     Cmd := None;
     HostConfig := securityProfile;
     WorkingDir := "/root" |}.

(** [app.post('/api/sessions')] *)
Definition createSession (sessionId : string) (cols rows : option Z) (now : Z) : js response :=
  try_catch
    (let cols := default 80%Z cols in
     let rows := default 24%Z rows in
     container <- awaitNew (DockerCreateContainer (createOptions cols rows)) ;;
     await (ContainerStart container) ;;;
     session <- newSession {| container := container; exec := None; stream := None;
                              lastActivity := now;
                              dimensions := Some {| cols := cols; rows := rows |};
                              lastCommand := None |} ;;
     activeSessions_set sessionId session ;;;
     respond 200 [("sessionId", JString sessionId);
                  ("message", JString "Session created successfully");
                  ("expiresIn", JString "30 minutes")])
    (emit (ConsoleError "Error creating session:") ;;;
     respond 500 [("error", JString "Failed to create session")]).

(** [app.post('/api/sessions/:sessionId/resize')] *)
Definition resizeSession (sessionId : string) (cols rows : Z) : js response :=
  session <- activeSessions_get sessionId ;;
  match session with
  | None => respond 404 [("error", JString "Session not found")]
  | Some r =>
      try_catch
        (exec <- field r exec ;;
         match exec with
         | Some e =>
             await (ExecResize e rows cols) ;;;
             assign r (with_dimensions (Some {| cols := cols; rows := rows |}))
         | None => ret tt
         end ;;;
         respond 200 [("message", JString "Terminal resized")])
        (emit (ConsoleError "Error resizing terminal:") ;;;
         respond 500 [("error", JString "Failed to resize terminal")])
  end.

Definition shellExec (d : dims) : execOptions :=
  {| exCmd := ["/bin/bash"];
     exAttachStdin := true;
     exAttachStdout := true;
     exAttachStderr := true;
     exTty := true;
     exEnv := ["TERM=xterm-256color";
               "SHELL=/bin/bash";
               "COLUMNS=" +:+ pretty (cols d);
               "LINES=" +:+ pretty (rows d)] |}.

(** [wss.on('connection')] *)
Definition connection (ws : nat) (sessionId : string) : js unit :=
  session <- activeSessions_get sessionId ;;
  match session with
  | None =>
      emit (WsSend ws (Text ("Session not found or expired" +:+ chr LF))) ;;;
      emit (WsClose ws)
  | Some r =>
      try_catch
        (container <- field r container ;;
         dimensions <- field r dimensions ;;
         d <- match dimensions with Some d => ret d | None => throw end ;;
         exec <- awaitNew (ContainerExec container (shellExec d)) ;;
         stream <- awaitNew (ExecStart exec) ;;
         assign r (with_exec (Some exec)) ;;;
         assign r (with_stream (Some stream)) ;;;
         emit (StreamWrite stream ("export TERM=xterm-256color" +:+ chr LF)) ;;;
         emit (StreamWrite stream ("export COLUMNS=" +:+ pretty (cols d) +:+ chr LF)) ;;;
         emit (StreamWrite stream ("export LINES=" +:+ pretty (rows d) +:+ chr LF)) ;;;
         emit (StreamWrite stream ("export PS1=" +:+ chr DQUOTE +:+ "\u@\h:\w\$ "
                                   +:+ chr DQUOTE +:+ chr LF)) ;;;
         emit (StreamWrite stream ("clear" +:+ chr LF)) ;;;
         modify (set_bridges (insert ws {| bSessionId := sessionId;
                                           bSession := r; bStream := stream;
                                           commandBuffer := EmptyString;
                                           wsOpen := true; streamEnded := false |})))
        (emit (ConsoleError "Error setting up WebSocket connection:") ;;;
         emit (WsClose ws))
  end.

(** [ws.on('message')]: the frame goes to the stream as it is. *)
Definition onMessage (ws : nat) (data : string) (now : Z) : js unit :=
  b <- gets (fun st => bridges st !! ws) ;;
  match b with
  | None => ret tt
  | Some b =>
      try_catch
        (assign (bSession b) (with_lastActivity now) ;;;
         emit (StreamWrite (bStream b) data))
        (emit (ConsoleError "Error processing input:"))
  end.

(** [stream.on('data')]: the chunk goes out as one binary frame. *)
Definition onStreamData (ws : nat) (chunk : list Byte.byte) : js unit :=
  b <- gets (fun st => bridges st !! ws) ;;
  match b with
  | None => ret tt
  | Some b =>
      try_catch
        (emit (WsSend ws (Binary chunk)))
        (emit (ConsoleError "Error sending data to websocket:"))
  end.

(** [stream.on('error')] *)
Definition onStreamError (ws : nat) : js unit :=
  b <- gets (fun st => bridges st !! ws) ;;
  match b with
  | None => ret tt
  | Some b =>
      emit (ConsoleError "Stream error:") ;;;
      emit (WsClose ws)
  end.

(** [ws.on('close')] *)
Definition onClose (ws : nat) : js unit :=
  b <- gets (fun st => bridges st !! ws) ;;
  match b with
  | None => ret tt
  | Some b =>
      modify (set_bridges (insert ws
        {| bSessionId := bSessionId b; bSession := bSession b; bStream := bStream b;
           commandBuffer := commandBuffer b;
           wsOpen := false; streamEnded := streamEnded b |})) ;;;
      emit (ConsoleLog ("WebSocket closed for session: " +:+ bSessionId b))
  end.

End Server2.

(** ** Vocabulary of the properties *)

(** Every reference of the registry names an object of the heap. *)
Definition registry_wf (st : server) : Prop :=
  map_Forall (fun _ r => is_Some (heap st !! r)) (activeSessions st).

(** The session has been idle for more than the threshold of
    server3.js at time [now]. *)
Definition idle (now : Z) (sessionId : string) (st : server) : Prop :=
  exists r s,
    activeSessions st !! sessionId = Some r /\ heap st !! r = Some s
    /\ (Server3.idleThreshold < now - lastActivity s)%Z.

(** A cleanup of the session is suspended at an await. *)
Definition suspendedFor (sessionId : string) (st : server) : Prop :=
  exists t, t ∈ pending st /\ taskId t = sessionId.

(** The invariant of a cleanup under way: the session is out of the
    registry or its cleanup is suspended. *)
Definition underCleanup (sessionId : string) (st : server) : Prop :=
  activeSessions st !! sessionId = None \/ suspendedFor sessionId st.

(** The awaits a suspended cleanup still has before it. *)
Definition remaining (t : cleanupTask) : nat :=
  match t with
  | AwaitStop _ _ => 2
  | AwaitRemove _ _ => 1
  end.

Definition work (st : server) : nat := sum_list (map remaining (pending st)).

(** The schedule that settles the oldest suspended cleanup each time,
    with the outcomes [os] in turn. *)
Definition oldestFirst (os : list outcome) : list (nat * outcome) :=
  map (fun o => (0, o)) os.

(** The options of the [docker.createContainer] calls of a trace. *)
Definition createCalls (t : list event) : list containerOptions :=
  omap (fun ev => match ev with
                  | DockerCreateContainer opts => Some opts
                  | _ => None
                  end) t.

(** The minimal profile of the specification: every capability
    dropped, no raw-network or administrative capability added back,
    and the confinement of privilege escalation left on. *)
Definition minimalProfile (hc : hostConfig) : Prop :=
  CapDrop hc = ["ALL"]
  /\ ~ In "NET_ADMIN" (CapAdd hc)
  /\ ~ In "NET_RAW" (CapAdd hc)
  /\ ~ In "SYS_ADMIN" (CapAdd hc)
  /\ ~ In "no-new-privileges:false" (SecurityOpt hc)
  /\ ~ In "seccomp=unconfined" (SecurityOpt hc).

(** The handler answered with a success. *)
Definition succeeded (c : completion response) : Prop :=
  exists resp, c = Normal resp /\ status resp = 200.

Definition notFound : response :=
  {| status := 404; body := [("error", JString "Session not found")] |}.

(** ** Runs used as examples *)

Definition allResolve : nat -> outcome := fun _ => Resolved.

(** Two sessions of server3.js, created at time 0. *)
Definition twoSessions : server :=
  snd ((Server3.createSession "a" None None 0 ;;;
        Server3.createSession "b" None None 0) allResolve initial).

(** Thirty-one minutes later. *)
Definition afterIdle : Z := 31 * 60 * 1000.

(** One sweep, after which the first teardown call to settle rejects and
    the others resolve. *)
Definition sweepWithFailure : js unit :=
  Server3.reaperSweep afterIdle ;;;
  runSchedule (oldestFirst [Rejected; Resolved; Resolved; Resolved]).

(** A session of server.js, created and then terminated once. *)
Definition terminatedOnce : server :=
  snd ((Server1.createSession "s1" 0 ;;; Server1.deleteSession "s1") allResolve initial).

(** A session of server3.js with websocket 7 connected to it. *)
Definition bridged : server :=
  snd ((Server3.createSession "s1" None None 0 ;;; Server3.connection 7 "s1")
         allResolve initial).

(** An output burst of 5000 bytes. *)
Definition burst : list Byte.byte := repeat Byte.x41 5000.

(** The frames a trace sends on a websocket. *)
Definition framesSent (ws : nat) (t : list event) : list payload :=
  omap (fun ev => match ev with
                  | WsSend w data => if decide (w = ws) then Some data else None
                  | _ => None
                  end) t.

(** A frame that is a line terminator and nothing else. *)
Definition isTerminator (data : string) : Prop := data = chr CR \/ data = chr LF.

(** The exit keystroke of [top] after [top] was the last command. *)
Definition topExit (line : string) (s : session) : Prop :=
  line = "q" /\ lastCommand s = Some "top".

(** What a trace writes to a stream, put end to end. *)
Fixpoint streamInput (stream : nat) (t : list event) : string :=
  match t with
  | [] => EmptyString
  | StreamWrite s data :: t' =>
      if decide (s = stream) then data +:+ streamInput stream t'
      else streamInput stream t'
  | _ :: t' => streamInput stream t'
  end.

(** The keystrokes of [reboot], one frame each, on websocket 7. *)
Definition typeReboot : js unit :=
  forEach ["r"; "e"; "b"; "o"; "o"; "t"] (fun key => Server3.onMessage 7 key 1).

Definition typedReboot : server := snd (typeReboot allResolve bridged).

(** The line and its terminator pasted as one frame. *)
Definition pastedReboot : string := "reboot" +:+ chr CR.

Definition allReject : nat -> outcome := fun _ => Rejected.

Definition resized : response :=
  {| status := 200; body := [("message", JString "Terminal resized")] |}.

Definition resizeFailed : response :=
  {| status := 500; body := [("error", JString "Failed to resize terminal")] |}.

(** The status answer names the dimensions. *)
Definition reportsDimensions (resp : response) : Prop :=
  In "dimensions" (map fst (body resp)).

(** A session of server.js. *)
Definition oneSession1 : server :=
  snd (Server1.createSession "s1" 0 allResolve initial).

(** A bridge is live while its websocket is open and its stream has not
    been ended. *)
Definition live (b : bridge) : bool := wsOpen b && negb (streamEnded b).



(** A torn-down channel shows in the trace as an ended stream or a
    closed websocket. *)
Definition tearsDown (ev : event) : bool :=
  match ev with
  | StreamEnd _ | WsClose _ => true
  | _ => false
  end.

(** A session of server.js created at time 0 and in use on websocket 7
    until the twenty-ninth minute. *)
Definition busySession : server :=
  snd ((Server1.createSession "s1" 0 ;;;
        Server1.connection 7 "s1" ;;;
        Server1.onMessage 7 "ls" (29 * 60 * 1000)) allResolve initial).

(** The timer of [busySession] expires at the thirtieth minute, and
    then the stop call of the cleanup it started rejects. *)
Definition timerExpired : server :=
  snd (Server1.fireTimer 0 (30 * 60 * 1000) allResolve busySession).

Definition stopRejected : server := snd (settle 0 Rejected allResolve timerExpired).

(** The input of server.js creates a session under the id
    [sessionId]. *)
Definition creates1 (sessionId : string) (ev : Server1.input) : Prop :=
  match ev with
  | Server1.Create sid _ => sid = sessionId
  | _ => False
  end.

(** A handler under which a property of the server state is kept. *)
Definition preserves (I : server -> Prop) {A} (m : js A) : Prop :=
  forall rt st, I st -> I (snd (m rt st)).

(** A property of the server state that the effects common to the
    handlers keep: events, awaits, allocation, writes to session
    objects, bridges, suspended cleanups, and deletion from the
    registry. *)
Record stable (I : server -> Prop) : Prop := {
  stable_trace : forall f st, I st -> I (set_trace f st);
  stable_awaits : forall f st, I st -> I (set_awaits f st);
  stable_nextObject : forall f st, I st -> I (set_nextObject f st);
  stable_bridges : forall f st, I st -> I (set_bridges f st);
  stable_pending : forall f st, I st -> I (set_pending f st);
  stable_write : forall r s st, I st -> I (set_heap (insert r s) st);
  stable_delete : forall sessionId st, I st -> I (set_activeSessions (delete sessionId) st) }.

(** A handler that leaves the armed timers as they are. *)
Definition keeps_timers {A} (m : js A) : Prop :=
  forall ts, preserves (fun st => timers st = ts) m.

(** The events of a run are handled one after the other; a handler
    that throws ends the run. *)
Fixpoint run {E} (handle : E -> js unit) (evs : list E) : js unit :=
  match evs with
  | [] => ret tt
  | ev :: evs' => handle ev ;;; run handle evs'
  end.

(** The states server3.js reaches from its start. *)
Definition reachable3 (st : server) : Prop :=
  exists evs rt, st = snd (run Server3.handle evs rt initial).

(** What the termination path calls for a session whose container is
    [c], by the outcomes of its two awaits. *)
Definition teardownCalls (sessionId : string) (c : nat) (stop remove : outcome) : list event :=
  match stop with
  | Resolved =>
      ContainerStop c :: ContainerRemove c
      :: match remove with
         | Resolved => []
         | Rejected => [cleanupError sessionId]
         end
  | Rejected => [ContainerStop c; cleanupError sessionId]
  end.

(** ** Vocabulary of the further properties *)

(** A string of white space only, and a string with no white space. *)
Fixpoint blank (s : string) : bool :=
  match s with
  | EmptyString => true
  | String c s' => isWhiteSpace c && blank s'
  end.

Fixpoint solid (s : string) : bool :=
  match s with
  | EmptyString => true
  | String c s' => negb (isWhiteSpace c) && solid s'
  end.

(** Two bridges that differ in [commandBuffer] at most, and two session
    objects that differ in [lastActivity] and [lastCommand] at most. *)
Definition sameBridge (b b' : bridge) : Prop :=
  bSessionId b' = bSessionId b /\ bSession b' = bSession b
  /\ bStream b' = bStream b /\ wsOpen b' = wsOpen b
  /\ streamEnded b' = streamEnded b.

Definition sameSession (s s' : session) : Prop :=
  container s' = container s /\ exec s' = exec s /\ stream s' = stream s
  /\ dimensions s' = dimensions s.

(** The server is as it was but for the bridge of [ws], the session
    object [r] and the trace. *)
Definition touchesOnly (ws r : nat) (st st' : server) : Prop :=
  (forall ws', ws' <> ws -> bridges st' !! ws' = bridges st !! ws')
  /\ (forall r', r' <> r -> heap st' !! r' = heap st !! r')
  /\ activeSessions st' = activeSessions st
  /\ pending st' = pending st /\ timers st' = timers st.

(** Strings put end to end. *)
Definition joined (l : list string) : string := foldr String.append EmptyString l.

(** The frames of a websocket, each with the time it arrives at, handed
    to a message handler one after the other. *)
Definition feed (handler : nat -> string -> Z -> js unit) (ws : nat)
    (frames : list (string * Z)) : js unit :=
  forEach frames (fun f => handler ws f.1 f.2).

(** A call that takes a container down. *)
Definition isTeardownCall (ev : event) : bool :=
  match ev with
  | ContainerStop _ | ContainerRemove _ => true
  | _ => false
  end.

Definition sessionNotFoundNotice : payload :=
  Text ("Session not found or expired" +:+ CRLF).

(** The session object server3.js registers. *)
Definition newSession3 (container : nat) (cols rows : option Z) (now : Z) : session :=
  {| container := container; exec := None; stream := None; lastActivity := now;
     dimensions := Some {| cols := default 80%Z cols; rows := default 24%Z rows |};
     lastCommand := None |}.

Definition created (sessionId : string) : response :=
  {| status := 200;
     body := [("sessionId", JString sessionId);
              ("message", JString "Session created successfully");
              ("expiresIn", JString "30 minutes")] |}.

Definition createFailed : response :=
  {| status := 500; body := [("error", JString "Failed to create session")] |}.

(** The four awaits of a creation in server3.js all resolve. *)
Definition provisioned (rt : nat -> outcome) (st : server) : Prop :=
  rt (awaits st) = Resolved /\ rt (S (awaits st)) = Resolved
  /\ rt (S (S (awaits st))) = Resolved /\ rt (S (S (S (awaits st)))) = Resolved.

(** The calls and writes by which server3.js opens a shell for a
    connection: the exec, its start, and the commands of the
    initialization. *)
Definition shellOpening (container exec stream : nat) (d : dims) : list event :=
  [ContainerExec container (Server3.shellExec d); ExecStart exec]
  ++ map (fun cmd => StreamWrite stream (cmd +:+ chr LF)) (Server3.initCommands d).

(** The states server.js reaches from its start. *)
Definition reachable1 (st : server) : Prop :=
  exists evs rt, st = snd (run Server1.handle evs rt initial).

(** Every registered session has a timer armed for it or a cleanup
    suspended at an await. *)
Definition timed (st : server) : Prop :=
  forall sessionId,
    is_Some (activeSessions st !! sessionId) ->
    (exists due, (due, sessionId) ∈ timers st) \/ suspendedFor sessionId st.

(** A property of the server state kept by the effects of the handlers
    that start and settle no cleanup: events, awaits, allocation, writes
    to session objects, bridges, and deletion from the registry. *)
Record quiet (I : server -> Prop) : Prop := {
  quiet_trace : forall f st, I st -> I (set_trace f st);
  quiet_awaits : forall f st, I st -> I (set_awaits f st);
  quiet_nextObject : forall f st, I st -> I (set_nextObject f st);
  quiet_bridges : forall f st, I st -> I (set_bridges f st);
  quiet_write : forall r s st, I st -> I (set_heap (insert r s) st);
  quiet_delete : forall sessionId st, I st -> I (set_activeSessions (delete sessionId) st) }.


(** The status answer of server.js for a registered session. *)
Definition statusOf (sessionId : string) (lastActivity : Z) : response :=
  {| status := 200;
     body := [("sessionId", JString sessionId);
              ("active", JBool true);
              ("lastActivity", JNumber lastActivity)] |}.

(** The session object server.js registers. *)
Definition newSession1 (container exec stream : nat) (now : Z) : session :=
  {| container := container; exec := Some exec; stream := Some stream;
     lastActivity := now; dimensions := None; lastCommand := None |}.

(** A session of server2.js with websocket 7 connected to it. *)
Definition bridged2 : server :=
  snd ((Server2.createSession "s1" None None 0 ;;; Server2.connection 7 "s1")
         allResolve initial).

(** The [j]-th stretch of 1024 bytes of a chunk, and the number of
    stretches a chunk has. *)
Definition frameOf (chunk : list Byte.byte) (j : nat) : list Byte.byte :=
  take 1024 (drop (j * 1024) chunk).

Definition frameCount (chunk : list Byte.byte) : nat := (length chunk + 1023) / 1024.

(** The log line of the reaper of server.js for a session. *)
Definition reaperNotice (sessionId : string) : event :=
  ConsoleLog ("Cleaning up inactive session: " +:+ sessionId).

(** * Properties *)

(** ** Strings *)

Section Strings.


Lemma append_nil (b : string) : EmptyString +:+ b = b.
Proof. reflexivity. Qed.

Lemma append_cons c (a b : string) : String c a +:+ b = String c (a +:+ b).
Proof. reflexivity. Qed.

Lemma append_assoc (a b c : string) : (a +:+ b) +:+ c = a +:+ (b +:+ c).
Proof.
  induction a as [|x a IH]; [reflexivity |].
  now rewrite !append_cons, IH.
Qed.

Lemma split_nonempty sep s : split sep s <> [].
Proof.
  destruct s as [|c s]; simpl; [discriminate |].
  destruct (Ascii.eqb c sep); [discriminate |].
  destruct (split sep s); discriminate.
Qed.

(** The first piece of a split has no separator in it, and the string
    is that piece alone or the piece, the separator and a rest. *)
Lemma split_hd sep s :
  hasChar sep (hd EmptyString (split sep s)) = false
  /\ (s = hd EmptyString (split sep s)
      \/ exists rest, s = hd EmptyString (split sep s) +:+ String sep rest).
Proof.
  induction s as [|c s [IHn IHs]]; simpl.
  - split; [reflexivity | now left].
  - destruct (Ascii.eqb c sep) eqn:E.
    + apply Ascii.eqb_eq in E; subst c. simpl.
      split; [reflexivity | right; now exists s].
    + pose proof (split_nonempty sep s) as Hne.
      destruct (split sep s) as [|p ps]; [congruence |]. simpl in *.
      rewrite E, IHn. split; [reflexivity |].
      destruct IHs as [-> | [rest ->]]; [now left |].
      right; now exists rest.
Qed.

Lemma split_hd_whole sep s :
  hasChar sep s = false -> hd EmptyString (split sep s) = s.
Proof.
  induction s as [|c s IH]; simpl; [reflexivity |].
  intros H. apply orb_false_iff in H as [E H]. rewrite E.
  specialize (IH H). pose proof (split_nonempty sep s) as Hne.
  destruct (split sep s) as [|p ps]; [congruence |]. simpl in *. now subst.
Qed.

Lemma split_hd_app sep tok rest :
  hasChar sep tok = false ->
  hd EmptyString (split sep (tok +:+ String sep rest)) = tok.
Proof.
  induction tok as [|c tok IH]; rewrite ?append_nil, ?append_cons; simpl.
  - intros _. now rewrite Ascii.eqb_refl.
  - intros H. apply orb_false_iff in H as [E H]. rewrite E.
    specialize (IH H). pose proof (split_nonempty sep (tok +:+ String sep rest)) as Hne.
    destruct (split sep (tok +:+ String sep rest)) as [|p ps]; [congruence |].
    simpl in *. now subst.
Qed.

Lemma lowerChar_space c : Ascii.eqb (lowerChar c) " " = Ascii.eqb c " ".
Proof. destruct c as [[] [] [] [] [] [] [] []]; reflexivity. Qed.

Lemma toLowerCase_app a b : toLowerCase (a +:+ b) = toLowerCase a +:+ toLowerCase b.
Proof.
  induction a as [|c a IH]; [reflexivity |].
  rewrite !append_cons. simpl. now rewrite append_cons, IH.
Qed.

Lemma hasChar_toLowerCase s : hasChar " " (toLowerCase s) = hasChar " " s.
Proof.
  induction s as [|c s IH]; simpl; [reflexivity |].
  now rewrite lowerChar_space, IH.
Qed.

Lemma hasChar_app c a b : hasChar c (a +:+ b) = hasChar c a || hasChar c b.
Proof.
  induction a as [|x a IH]; [reflexivity |].
  rewrite append_cons. simpl. now rewrite IH, orb_assoc.
Qed.

(** Lower-casing and taking the first space-delimited piece commute. *)
Lemma split_hd_toLowerCase s :
  hd EmptyString (split " " (toLowerCase s))
  = toLowerCase (hd EmptyString (split " " s)).
Proof.
  destruct (split_hd " " s) as [Hn [Hs | [rest Hs]]].
  - rewrite <- Hs. apply split_hd_whole. now rewrite hasChar_toLowerCase, Hs.
  - rewrite Hs at 1. rewrite toLowerCase_app. simpl.
    change (lowerChar " ") with " "%char.
    apply split_hd_app. now rewrite hasChar_toLowerCase.
Qed.

Lemma startsWith_app s p : startsWith s p = true <-> exists r, s = p +:+ r.
Proof.
  unfold startsWith. revert s. induction p as [|c p IH]; intros s.
  - split; [intros _; now exists s | intros _; now destruct s].
  - destruct s as [|d s]; simpl.
    + split; [discriminate | intros [r Hr]; discriminate].
    + destruct (ascii_dec c d) as [-> | Hne].
      * rewrite IH. split; intros [r Hr]; exists r; rewrite append_cons in *; congruence.
      * split; [discriminate | intros [r Hr]; rewrite append_cons in Hr; congruence].
Qed.

Lemma includes_In arr x : includes arr x = true <-> In x arr.
Proof.
  unfold includes. rewrite existsb_exists. split.
  - intros [y [Hy E]]. apply String.eqb_eq in E. now subst.
  - intros H. exists x. split; [exact H | apply String.eqb_refl].
Qed.

End Strings.

(** ** CommandGuard *)

Lemma blocked_names_no_space :
  Forall (fun name => hasChar " " name = false) BLOCKED_COMMANDS.
Proof. repeat constructor. Qed.

Lemma firstWord_no_space command : hasChar " " (firstWord command) = false.
Proof.
  unfold firstWord. rewrite hasChar_toLowerCase.
  apply (split_hd " " (trim command)).
Qed.

(** The second test of [isCommandBlocked], [cmd.startsWith(blocked + ' ')],
    never holds: [cmd] is cut at the first space. *)
Lemma prefix_test_never_fires command :
  some (fun blocked => startsWith (firstWord command) (blocked +:+ " ")) BLOCKED_COMMANDS
  = false.
Proof.
  unfold some. apply not_true_is_false. intros H.
  apply existsb_exists in H as [b [_ Hb]].
  apply startsWith_app in Hb as [r Hr].
  pose proof (firstWord_no_space command) as Hn.
  rewrite Hr, !hasChar_app in Hn. simpl in Hn.
  rewrite orb_true_r in Hn. discriminate.
Qed.

Lemma isCommandBlocked_includes command :
  isCommandBlocked command = includes BLOCKED_COMMANDS (firstWord command).
Proof.
  unfold isCommandBlocked. cbv zeta.
  now rewrite prefix_test_never_fires, orb_false_r.
Qed.

(** C1, as stated, fails on a line whose command name is followed by a
    tab: the first whitespace-delimited token of [reboot<TAB>now] is
    [reboot], which is on the deny-list, and the line is not blocked. *)
Lemma C1_counterexample :
  ~ (isCommandBlocked tabbedReboot = true <-> spec_blocks tabbedReboot).
Proof.
  intros [_ H].
  assert (Hs : spec_blocks tabbedReboot).
  { left. vm_compute. tauto. }
  specialize (H Hs). vm_compute in H. discriminate.
Qed.

(** C1 (amended): a line is blocked if and only if the line, trimmed of
    white space and lower-cased, is a deny-list entry or starts with a
    deny-list entry followed by a space character (U+0020); only the
    space character delimits the command name. [reboot] and [reboot now]
    are blocked, [rebootable-script.sh] is allowed. *)
Theorem C1_isCommandBlocked_iff :
  (forall line,
     isCommandBlocked line = true <->
     exists name, In name BLOCKED_COMMANDS
       /\ (toLowerCase (trim line) = name
           \/ startsWith (toLowerCase (trim line)) (name +:+ " ") = true))
  /\ isCommandBlocked "reboot" = true
  /\ isCommandBlocked "reboot now" = true
  /\ isCommandBlocked "rebootable-script.sh" = false.
Proof.
  split; [| repeat split; reflexivity].
  intros line. rewrite isCommandBlocked_includes, includes_In. unfold firstWord.
  destruct (split_hd " " (trim line)) as [Hn Hs]. split.
  - intros HIn. exists (toLowerCase (hd EmptyString (split " " (trim line)))).
    split; [exact HIn |].
    destruct Hs as [Hs | [rest Hs]].
    + left. now rewrite <- Hs.
    + right. apply startsWith_app. exists (toLowerCase rest).
      rewrite Hs at 1. rewrite toLowerCase_app. simpl.
      change (lowerChar " ") with " "%char.
      now rewrite append_assoc, append_cons, append_nil.
  - intros [name [HIn Hname]].
    pose proof blocked_names_no_space as Hall.
    rewrite Forall_forall in Hall. specialize (Hall name).
    specialize (Hall (proj2 (list_elem_of_In _ _) HIn)). simpl in Hall.
    rewrite <- split_hd_toLowerCase.
    destruct Hname as [-> | Hp].
    + now rewrite split_hd_whole.
    + apply startsWith_app in Hp as [r Hr]. rewrite Hr.
      rewrite append_assoc, append_cons, append_nil. now rewrite split_hd_app.
Qed.

(** ** The handler monad *)

Ltac js_unfold :=
  unfold cleanupSession, startCleanup, settle, awaitNew, await, emit,
    newSession, activeSessions_get, activeSessions_has, activeSessions_set,
    activeSessions_delete, field, assign, respond, try_catch, try_finally,
    throw, gets, modify, bind, ret in *.

Ltac settle_awaits rt :=
  repeat match goal with
         | |- context [rt ?n] => destruct (rt n); simpl
         end.

Lemma forEach_cons {A} (x : A) xs body rt st :
  forEach (x :: xs) body rt st
  = match body x rt st with
    | (Normal _, st') => forEach xs body rt st'
    | (Thrown, st') => (Thrown, st')
    end.
Proof. reflexivity. Qed.

Lemma set_trace_set_trace f g st :
  set_trace g (set_trace f st) = set_trace (fun t => g (f t)) st.
Proof. reflexivity. Qed.

Lemma set_trace_ext f g st :
  f (trace st) = g (trace st) -> set_trace f st = set_trace g st.
Proof. intros H. unfold set_trace. now rewrite H. Qed.

Lemma set_trace_nil st : set_trace (fun t => t ++ []) st = st.
Proof. destruct st. unfold set_trace. simpl. now rewrite app_nil_r. Qed.

(** *** Properties kept by a handler *)

Section Preserves.

Variable I : server -> Prop.
Hypothesis I_stable : stable I.

Lemma pres_ret {A} (a : A) : preserves I (ret a).
Proof. intros rt st H. exact H. Qed.

Lemma pres_throw {A} : preserves I (@throw A).
Proof. intros rt st H. exact H. Qed.

Lemma pres_bind {A B} (m : js A) (k : A -> js B) :
  preserves I m -> (forall a, preserves I (k a)) -> preserves I (bind m k).
Proof.
  intros Hm Hk rt st H. unfold bind. specialize (Hm rt st H).
  destruct (m rt st) as [[a|] st1]; simpl in *; [| exact Hm].
  now apply Hk.
Qed.

Lemma pres_try_catch {A} (body handler : js A) :
  preserves I body -> preserves I handler -> preserves I (try_catch body handler).
Proof.
  intros Hb Hh rt st H. unfold try_catch. specialize (Hb rt st H).
  destruct (body rt st) as [[a|] st1]; simpl in *; [exact Hb |].
  now apply Hh.
Qed.

Lemma pres_try_finally {A} (body : js A) (fin : js unit) :
  preserves I body -> preserves I fin -> preserves I (try_finally body fin).
Proof.
  intros Hb Hf rt st H. unfold try_finally. specialize (Hb rt st H).
  destruct (body rt st) as [c st1]. specialize (Hf rt st1 Hb).
  destruct (fin rt st1) as [[u|] st2]; simpl in *; exact Hf.
Qed.

Lemma pres_gets {A} (f : server -> A) : preserves I (gets f).
Proof. intros rt st H. exact H. Qed.

Lemma pres_modify f : (forall st, I st -> I (f st)) -> preserves I (modify f).
Proof. intros Hf rt st H. now apply Hf. Qed.

Lemma pres_field {A} r (f : session -> A) : preserves I (field r f).
Proof. intros rt st H. unfold field. now destruct (heap st !! r). Qed.

Lemma pres_assign r f : preserves I (assign r f).
Proof.
  intros rt st H. unfold assign. destruct (heap st !! r); [| exact H].
  now apply (stable_write I I_stable).
Qed.

Lemma pres_forEach {A} (xs : list A) (body : A -> js unit) :
  (forall x, preserves I (body x)) -> preserves I (forEach xs body).
Proof.
  intros Hb. induction xs as [|x xs IH]; intros rt st H; [exact H |].
  rewrite forEach_cons. specialize (Hb x rt st H).
  destruct (body x rt st) as [[u|] st1]; simpl in *; [| exact Hb].
  now apply IH.
Qed.

Lemma pres_emit ev : preserves I (emit ev).
Proof. apply pres_modify. apply (stable_trace I I_stable). Qed.

Lemma pres_await ev : preserves I (await ev).
Proof.
  unfold await. apply pres_bind; [apply pres_emit | intros _].
  apply pres_bind; [apply pres_gets | intros n].
  apply pres_bind; [apply pres_modify, (stable_awaits I I_stable) | intros _].
  intros rt st H. now destruct (rt n).
Qed.

Lemma pres_awaitNew ev : preserves I (awaitNew ev).
Proof.
  unfold awaitNew. apply pres_bind; [apply pres_await | intros _].
  apply pres_bind; [apply pres_gets | intros o].
  apply pres_bind; [apply pres_modify, (stable_nextObject I I_stable) | intros _].
  apply pres_ret.
Qed.

Lemma pres_newSession s : preserves I (newSession s).
Proof.
  unfold newSession. apply pres_bind; [apply pres_gets | intros r].
  apply pres_bind; [apply pres_modify, (stable_nextObject I I_stable) | intros _].
  apply pres_bind; [apply pres_modify, (stable_write I I_stable) | intros _].
  apply pres_ret.
Qed.

Lemma pres_delete sessionId : preserves I (activeSessions_delete sessionId).
Proof. apply pres_modify, (stable_delete I I_stable). Qed.

Lemma pres_set_bridges f : preserves I (modify (set_bridges f)).
Proof. apply pres_modify, (stable_bridges I I_stable). Qed.

Lemma pres_set_pending f : preserves I (modify (set_pending f)).
Proof. apply pres_modify, (stable_pending I I_stable). Qed.

End Preserves.

(** One step of a proof that a handler keeps a stable property [H]. *)
Ltac pres_step H :=
  first
    [ apply (pres_emit _ H) | apply (pres_await _ H) | apply (pres_awaitNew _ H)
    | apply (pres_newSession _ H) | apply (pres_delete _ H)
    | apply (pres_set_bridges _ H) | apply (pres_set_pending _ H)
    | apply pres_ret | apply pres_throw | apply pres_bind | apply pres_try_catch
    | apply pres_try_finally | apply pres_gets | apply pres_field
    | apply (pres_assign _ H) | apply pres_forEach
    | match goal with
      | |- preserves _ (match ?x with _ => _ end) => destruct x
      | |- forall _, _ => intros
      end ].

Ltac pres H := repeat pres_step H.

Lemma pres_cleanupSession I sessionId : stable I -> preserves I (cleanupSession sessionId).
Proof. intros H. unfold cleanupSession, activeSessions_get. pres H. Qed.

Lemma pres_startCleanup I sessionId : stable I -> preserves I (startCleanup sessionId).
Proof. intros H. unfold startCleanup, activeSessions_get. pres H. Qed.

Lemma pres_settle I i o : stable I -> preserves I (settle i o).
Proof. intros H. unfold settle. pres H. Qed.


(** ** The termination path *)

Lemma cleanupSession_spec sessionId rt st :
  exists st',
    cleanupSession sessionId rt st = (Normal tt, st')
    /\ activeSessions st' = delete sessionId (activeSessions st)
    /\ heap st' = heap st /\ bridges st' = bridges st
    /\ timers st' = timers st /\ pending st' = pending st.
Proof.
  js_unfold. simpl.
  destruct (activeSessions st !! sessionId) as [r|] eqn:Hr; simpl.
  - destruct (heap st !! r) as [s|] eqn:Hs; simpl.
    + destruct (rt (awaits st)); simpl; rewrite ?Hs; simpl.
      * destruct (rt (S (awaits st))); simpl; eexists; split; try reflexivity; auto.
      * eexists; split; try reflexivity; auto.
    + eexists; split; try reflexivity; auto.
  - eexists; split; [reflexivity |]. rewrite delete_id by exact Hr. auto.
Qed.

Lemma cleanupSession_removes sessionId rt st :
  activeSessions (snd (cleanupSession sessionId rt st)) !! sessionId = None.
Proof.
  destruct (cleanupSession_spec sessionId rt st) as [st' [H1 [H2 _]]].
  rewrite H1. simpl. rewrite H2. apply lookup_delete_eq.
Qed.

Lemma cleanupSession_absent sessionId rt st :
  activeSessions st !! sessionId = None ->
  cleanupSession sessionId rt st = (Normal tt, st).
Proof. intros H. js_unfold. simpl. now rewrite H. Qed.

(** ** The reaper *)

Lemma elem_of_delete_ne {A} (l : list A) i x y :
  x ∈ l -> l !! i = Some y -> x <> y -> x ∈ delete i l.
Proof.
  intros Hx Hi Hne. rewrite (delete_Permutation l i y Hi) in Hx.
  apply elem_of_cons in Hx as [-> | Hx]; [congruence | exact Hx].
Qed.

Lemma elem_of_insert_ne {A} (l : list A) i x y z :
  x ∈ l -> l !! i = Some y -> x <> y -> x ∈ <[i := z]> l.
Proof.
  intros Hx Hi Hne. apply list_elem_of_lookup in Hx as [j Hj].
  apply list_elem_of_lookup. exists j.
  rewrite list_lookup_insert_ne; [exact Hj | intros ->; congruence].
Qed.

Lemma settle_normal i o rt st : fst (settle i o rt st) = Normal tt.
Proof.
  js_unfold. simpl. destruct (pending st !! i) as [[sid r | sid r]|]; simpl;
    destruct o; simpl; try reflexivity.
  destruct (heap st !! r); reflexivity.
Qed.

Lemma settle_underCleanup sessionId i o rt st :
  underCleanup sessionId st -> underCleanup sessionId (snd (settle i o rt st)).
Proof.
  intros Hinv.
  assert (Hdel : forall sid' (t' : cleanupTask) st',
             pending st !! i = Some t' -> taskId t' = sid' ->
             pending st' = delete i (pending st) ->
             activeSessions st' = delete sid' (activeSessions st) ->
             underCleanup sessionId st').
  { intros sid' t' st' Hi Hid Hp Ha.
    destruct (decide (sessionId = sid')) as [-> | Hne].
    - left. rewrite Ha. apply lookup_delete_eq.
    - destruct Hinv as [Hnone | [t [Ht Htid]]].
      + left. rewrite Ha, lookup_delete_ne by congruence. exact Hnone.
      + right. exists t. split; [| exact Htid]. rewrite Hp.
        apply (elem_of_delete_ne _ _ _ t'); [exact Ht | exact Hi |].
        intros ->. congruence. }
  js_unfold. simpl.
  destruct (pending st !! i) as [[sid r | sid r]|] eqn:Hi; simpl; [| | exact Hinv].
  - destruct o; simpl.
    + destruct (heap st !! r) as [s|] eqn:Hs; simpl.
      * destruct Hinv as [Hnone | [t [Ht Htid]]]; [now left |].
        right. destruct (decide (t = AwaitStop sid r)) as [-> | Hne].
        -- exists (AwaitRemove sid r). split; [| exact Htid]. simpl.
           apply list_elem_of_lookup. exists i.
           apply list_lookup_insert_eq. now apply lookup_lt_Some in Hi.
        -- exists t. split; [| exact Htid]. simpl.
           now apply (elem_of_insert_ne _ _ _ (AwaitStop sid r)).
      * now apply (Hdel sid (AwaitStop sid r)).
    + now apply (Hdel sid (AwaitStop sid r)).
  - destruct o; simpl; now apply (Hdel sid (AwaitRemove sid r)).
Qed.

Lemma runSchedule_normal sch rt st : fst (runSchedule sch rt st) = Normal tt.
Proof.
  revert st. induction sch as [|[i o] sch IH]; intros st; [reflexivity |].
  simpl. unfold bind.
  pose proof (settle_normal i o rt st) as Hn.
  destruct (settle i o rt st) as [c st1]. simpl in Hn. subst c. apply IH.
Qed.

Lemma runSchedule_underCleanup sessionId sch rt st :
  underCleanup sessionId st -> underCleanup sessionId (snd (runSchedule sch rt st)).
Proof.
  revert st. induction sch as [|[i o] sch IH]; intros st Hinv; [exact Hinv |].
  simpl. unfold bind.
  pose proof (settle_normal i o rt st) as Hn.
  pose proof (settle_underCleanup sessionId i o rt st Hinv) as Hinv1.
  destruct (settle i o rt st) as [c st1]. simpl in Hn, Hinv1. subst c.
  now apply IH.
Qed.

(** The cleanup awaited to its end and the cleanup suspended and settled
    with the same outcomes do the same to the registry, the heap and the
    trace. *)
Lemma cleanup_async_agrees sessionId r s rt st :
  activeSessions st !! sessionId = Some r -> heap st !! r = Some s ->
  let n := length (pending st) in
  let sync := snd (cleanupSession sessionId rt st) in
  let async := snd ((startCleanup sessionId ;;;
                     settle n (rt (awaits st)) ;;;
                     settle n (rt (S (awaits st)))) rt st) in
  activeSessions async = activeSessions sync
  /\ heap async = heap sync
  /\ trace async = trace sync
  /\ pending async = pending st.
Proof.
  intros Hr Hs. cbv zeta.
  assert (Hmid : forall t, (pending st ++ [t]) !! length (pending st) = Some t).
  { intros t. now apply list_lookup_middle. }
  assert (Hins : forall t t', <[length (pending st) := t']> (pending st ++ [t])
                              = pending st ++ [t']).
  { intros t t'. rewrite insert_app_r_alt by lia. now rewrite Nat.sub_diag. }
  assert (Hdel : forall t, delete (length (pending st)) (pending st ++ [t]) = pending st).
  { intros t. rewrite (delete_middle (pending st) []). apply app_nil_r. }
  js_unfold. simpl. rewrite Hr. simpl. rewrite Hs. simpl. rewrite Hmid. simpl.
  destruct (rt (awaits st)); simpl.
  - rewrite Hs. simpl. rewrite Hins, Hmid. simpl.
    destruct (rt (S (awaits st))); simpl; rewrite Hins, Hdel, <- ?app_assoc; auto.
  - rewrite Hdel. rewrite lookup_ge_None_2 by lia. simpl. rewrite Hdel. auto.
Qed.

Lemma reapIfIdle_spec now sessionId r s rt st :
  activeSessions st !! sessionId = Some r -> heap st !! r = Some s ->
  Server3.reapIfIdle now (sessionId, r) rt st
  = (Normal tt,
     if (Server3.idleThreshold <? now - lastActivity s)%Z
     then set_pending (fun p => (p ++ [AwaitStop sessionId r]))
            (set_trace (fun t => (t ++ [ContainerStop (container s)])) st)
     else st).
Proof.
  intros Hr Hs. unfold Server3.reapIfIdle. js_unfold. simpl. rewrite Hs. simpl.
  destruct (Server3.idleThreshold <? now - lastActivity s)%Z; [| reflexivity].
  simpl. rewrite Hr. simpl. rewrite Hs. reflexivity.
Qed.

Lemma sweep_loop now rt entries :
  forall st,
    (forall sid r, (sid, r) ∈ entries ->
                   activeSessions st !! sid = Some r /\ is_Some (heap st !! r)) ->
    exists st',
      forEach entries (Server3.reapIfIdle now) rt st = (Normal tt, st')
      /\ heap st' = heap st /\ activeSessions st' = activeSessions st
      /\ (forall t, t ∈ pending st -> t ∈ pending st')
      /\ (forall sid r s, (sid, r) ∈ entries -> heap st !! r = Some s ->
                          (Server3.idleThreshold < now - lastActivity s)%Z ->
                          AwaitStop sid r ∈ pending st')
      /\ length (pending st') <= length (pending st) + length entries.
Proof.
  induction entries as [|[sid r] entries IH]; intros st Hall.
  - exists st. simpl. unfold ret. repeat split; auto; try lia.
    intros ? ? ? H. now apply elem_of_nil in H.
  - destruct (Hall sid r) as [Hr [s Hs]]; [left |].
    rewrite forEach_cons, (reapIfIdle_spec now sid r s rt st Hr Hs).
    set (st1 := if (Server3.idleThreshold <? now - lastActivity s)%Z then _ else st).
    assert (Hh : heap st1 = heap st) by (subst st1; now destruct (_ <? _)%Z).
    assert (Ha : activeSessions st1 = activeSessions st)
      by (subst st1; now destruct (_ <? _)%Z).
    assert (Hp : forall t, t ∈ pending st -> t ∈ pending st1).
    { intros t Ht. subst st1. destruct (_ <? _)%Z; [| exact Ht].
      simpl. apply elem_of_app. now left. }
    assert (Hl : length (pending st1) <= S (length (pending st))).
    { subst st1. destruct (_ <? _)%Z; simpl; [| lia].
      rewrite length_app. simpl. lia. }
    assert (Hnew : (Server3.idleThreshold < now - lastActivity s)%Z ->
                   AwaitStop sid r ∈ pending st1).
    { intros Hidle. subst st1. apply Z.ltb_lt in Hidle. rewrite Hidle. simpl.
      apply elem_of_app. right. now left. }
    destruct (IH st1) as (st' & Hrun & Hh' & Ha' & Hp' & Hnew' & Hl').
    { intros sid' r' Hin. rewrite Ha, Hh. apply Hall. now right. }
    exists st'. split; [exact Hrun |].
    split; [congruence |]. split; [congruence |].
    split; [auto |]. split.
    + intros sid' r' s' Hin Hs' Hidle.
      apply elem_of_cons in Hin as [Heq | Hin].
      * inversion Heq; subst sid' r'. apply Hp', Hnew.
        rewrite Hs in Hs'. now inversion Hs'; subst.
      * apply (Hnew' sid' r' s'); [exact Hin | now rewrite Hh | exact Hidle].
    + simpl. lia.
Qed.

Lemma reaperSweep_spec now rt st :
  registry_wf st ->
  exists st',
    Server3.reaperSweep now rt st = (Normal tt, st')
    /\ (forall sessionId, idle now sessionId st -> suspendedFor sessionId st')
    /\ length (pending st') <= length (pending st) + size (activeSessions st).
Proof.
  intros Hwf. unfold Server3.reaperSweep, bind, gets.
  destruct (sweep_loop now rt (map_to_list (activeSessions st)) st)
    as (st' & Hrun & _ & _ & _ & Hnew & Hl).
  { intros sid r Hin. apply elem_of_map_to_list in Hin.
    split; [exact Hin | exact (Hwf sid r Hin)]. }
  exists st'. split; [exact Hrun |]. split.
  - intros sid (r & s & Hr & Hs & Hidle). exists (AwaitStop sid r).
    split; [| reflexivity].
    apply (Hnew sid r s); [now apply elem_of_map_to_list | exact Hs | exact Hidle].
  - now rewrite length_map_to_list in Hl.
Qed.

Lemma settle_no_pending i o rt st :
  pending st = [] -> settle i o rt st = (Normal tt, st).
Proof. intros H. js_unfold. simpl. now rewrite H. Qed.

Lemma settle_oldest_work o rt st :
  pending st <> [] -> work (snd (settle 0 o rt st)) < work st.
Proof.
  unfold work. js_unfold. simpl.
  destruct (pending st) as [|[sid r | sid r] p] eqn:Hp; [congruence | |]; intros _; simpl.
  - destruct o; simpl; [| rewrite Hp; simpl; lia].
    destruct (heap st !! r); simpl; rewrite Hp; simpl; lia.
  - destruct o; simpl; rewrite Hp; simpl; lia.
Qed.

Lemma work_bound st : work st <= 2 * length (pending st).
Proof.
  unfold work. induction (pending st) as [|t p IH]; simpl; [lia |].
  destruct t; simpl; lia.
Qed.

Lemma work_zero st : work st = 0 -> pending st = [].
Proof.
  unfold work. destruct (pending st) as [|t p]; [reflexivity |].
  destruct t; simpl; lia.
Qed.

(** Settling the oldest suspended cleanup each time drains them all. *)
Lemma oldestFirst_drains os rt :
  forall st, work st <= length os ->
             pending (snd (runSchedule (oldestFirst os) rt st)) = [].
Proof.
  induction os as [|o os IH]; intros st Hw; simpl in *.
  - apply work_zero. lia.
  - unfold bind. destruct (pending st) as [|t p] eqn:Hp.
    + rewrite settle_no_pending by exact Hp. apply IH.
      unfold work. rewrite Hp. simpl. lia.
    + pose proof (settle_normal 0 o rt st) as Hn.
      pose proof (settle_oldest_work o rt st) as Hlt.
      destruct (settle 0 o rt st) as [c st1]. simpl in *. subst c.
      apply IH. rewrite Hp in Hlt. specialize (Hlt ltac:(discriminate)). lia.
Qed.


(** ** The registry of server3.js never dangles *)

Lemma wf_stable : stable registry_wf.
Proof.
  split; intros; try assumption.
  - intros sid r' Hr'. simpl.
    apply lookup_insert_is_Some'. right. exact (H sid r' Hr').
  - unfold registry_wf in *. simpl. now apply map_Forall_delete.
Qed.

Lemma run_preserves I {E} (handle : E -> js unit) :
  (forall ev, preserves I (handle ev)) -> forall evs, preserves I (run handle evs).
Proof.
  intros Hh evs. induction evs as [|ev evs IH]; [apply pres_ret |].
  simpl. apply pres_bind; [apply Hh | intros _; exact IH].
Qed.

Lemma wf_createSession sessionId cols rows now :
  preserves registry_wf (Server3.createSession sessionId cols rows now).
Proof.
  intros rt st H. unfold Server3.createSession. js_unfold. simpl.
  settle_awaits rt; try exact H.
  unfold registry_wf. simpl. apply map_Forall_insert_2.
  - rewrite lookup_insert_eq. eauto.
  - intros sid r Hr. apply lookup_insert_is_Some'. right. exact (H sid r Hr).
Qed.

Lemma pres_sendSubChunks I ws chunk :
  stable I -> forall fuel i, preserves I (Server3.sendSubChunks fuel ws chunk i).
Proof.
  intros H fuel. induction fuel as [|fuel IH]; intros i; simpl; [apply pres_ret |].
  destruct (i <? length chunk); [| apply pres_ret].
  apply pres_bind; [apply (pres_emit _ H) | intros _; apply IH].
Qed.

Lemma wf_handle ev : preserves registry_wf (Server3.handle ev).
Proof.
  pose proof wf_stable as H.
  destruct ev as [sid cols rows now | sid cols rows | sid | ws sid | ws data now
                 | ws chunk | ws | ws | now | i o]; simpl.
  - apply pres_bind; [apply wf_createSession | intros; apply pres_ret].
  - unfold Server3.resizeSession, activeSessions_get, respond. pres H.
  - unfold Server3.deleteSession, respond.
    apply pres_bind; [| intros; apply pres_ret].
    apply pres_try_catch; [| pres H].
    apply pres_bind; [apply pres_cleanupSession, H | intros; apply pres_ret].
  - unfold Server3.connection, activeSessions_get. pres H.
  - unfold Server3.onMessage, Server3.setCommandBuffer. pres H.
  - unfold Server3.onStreamData.
    apply pres_bind; [apply pres_gets | intros [b|]; [| apply pres_ret]].
    destruct (wsOpen b); [| apply pres_ret].
    apply pres_try_catch; [| apply (pres_emit _ H)].
    destruct (_ <? _); [apply pres_sendSubChunks, H | apply (pres_emit _ H)].
  - unfold Server3.onStreamError. pres H.
  - unfold Server3.onClose. pres H.
  - unfold Server3.reaperSweep, Server3.reapIfIdle.
    apply pres_bind; [apply pres_gets | intros entries].
    apply pres_forEach. intros [sid r].
    apply pres_bind; [apply pres_field | intros la].
    destruct (_ <? _)%Z; [apply pres_startCleanup, H | apply pres_ret].
  - apply pres_settle, H.
Qed.

(** Every state server3.js reaches satisfies the hypothesis the sweep
    of the reaper is stated under. *)
Lemma reachable3_wf st : reachable3 st -> registry_wf st.
Proof.
  intros (evs & rt & ->). apply (run_preserves registry_wf Server3.handle wf_handle).
  apply map_Forall_empty.
Qed.

(** ** The registry after the termination path *)

Lemma deleteSession3_spec sessionId rt st :
  exists st',
    Server3.deleteSession sessionId rt st
    = (Normal {| status := 200;
                 body := [("message", JString "Session terminated successfully")] |}, st')
    /\ cleanupSession sessionId rt st = (Normal tt, st').
Proof.
  destruct (cleanupSession_spec sessionId rt st) as [st' [Hc _]].
  exists st'. split; [| exact Hc].
  unfold Server3.deleteSession, try_catch, bind, respond, ret. now rewrite Hc.
Qed.

(** C4: after the termination path has run for a session id the
    registry holds no entry for it, whatever the stop and remove calls
    did: so for [cleanupSession] awaited to its end, for the delete
    handler, and for the sweep of the reaper in every state the server
    reaches, where the cleanups are not awaited and settle in any order
    with any outcome. A cleanup of the sweep that fails does not keep
    the others from running: every idle session has its cleanup
    started, each cleanup that has settled has removed its entry, and
    settling the suspended calls drains them all. *)
Theorem C4_registry_entry_removed :
  (forall sessionId rt st,
      fst (cleanupSession sessionId rt st) = Normal tt
      /\ activeSessions (snd (cleanupSession sessionId rt st)) !! sessionId = None)
  /\ (forall sessionId rt st,
      activeSessions (snd (Server3.deleteSession sessionId rt st)) !! sessionId = None)
  /\ (forall now sch rt st sessionId,
      reachable3 st -> idle now sessionId st ->
      ~ suspendedFor sessionId
          (snd ((Server3.reaperSweep now ;;; runSchedule sch) rt st)) ->
      activeSessions (snd ((Server3.reaperSweep now ;;; runSchedule sch) rt st))
        !! sessionId = None)
  /\ (forall now os rt st,
      reachable3 st ->
      2 * (length (pending st) + size (activeSessions st)) <= length os ->
      pending (snd ((Server3.reaperSweep now ;;; runSchedule (oldestFirst os)) rt st))
      = []).
Proof.
  split; [| split; [| split]].
  - intros sid rt st. split; [| apply cleanupSession_removes].
    destruct (cleanupSession_spec sid rt st) as [st' [-> _]]. reflexivity.
  - intros sid rt st.
    destruct (deleteSession3_spec sid rt st) as [st' [-> Hc]]. simpl.
    pose proof (cleanupSession_removes sid rt st) as H. now rewrite Hc in H.
  - intros now sch rt st sid Hre Hidle.
    destruct (reaperSweep_spec now rt st (reachable3_wf st Hre))
      as (st1 & Hrun & Hsusp & _).
    unfold bind. rewrite Hrun.
    pose proof (runSchedule_underCleanup sid sch rt st1
                  (or_intror (Hsusp sid Hidle))) as [Hnone | Hs].
    + intros _. exact Hnone.
    + intros Hno. contradiction.
  - intros now os rt st Hre Hlen.
    destruct (reaperSweep_spec now rt st (reachable3_wf st Hre))
      as (st1 & Hrun & _ & Hl).
    unfold bind. rewrite Hrun. apply oldestFirst_drains.
    pose proof (work_bound st1). lia.
Qed.

Lemma twoSessions_reachable : reachable3 twoSessions.
Proof.
  exists [Server3.Create "a" None None 0; Server3.Create "b" None None 0], allResolve.
  vm_compute. reflexivity.
Qed.

(** C4 at work: both sessions are idle, the sweep starts both cleanups,
    the first call to settle rejects, and both entries are gone. *)
Lemma C4_witness :
  activeSessions (snd (sweepWithFailure allResolve twoSessions)) !! "a" = None
  /\ activeSessions (snd (sweepWithFailure allResolve twoSessions)) !! "b" = None
  /\ pending (snd (sweepWithFailure allResolve twoSessions)) = [].
Proof.
  destruct C4_registry_entry_removed as (_ & _ & Hsweep & Hdrain).
  assert (Hd : pending (snd (sweepWithFailure allResolve twoSessions)) = []).
  { apply Hdrain; [exact twoSessions_reachable | vm_compute; lia]. }
  assert (Hno : forall sid, ~ suspendedFor sid (snd (sweepWithFailure allResolve twoSessions))).
  { intros sid [t [Ht _]]. rewrite Hd in Ht. now apply elem_of_nil in Ht. }
  split; [| split; [| exact Hd]].
  - apply Hsweep; [exact twoSessions_reachable | | apply Hno].
    eexists _, _. split; [vm_compute; reflexivity |].
    split; [vm_compute; reflexivity | vm_compute; reflexivity].
  - apply Hsweep; [exact twoSessions_reachable | | apply Hno].
    eexists _, _. split; [vm_compute; reflexivity |].
    split; [vm_compute; reflexivity | vm_compute; reflexivity].
Defined.

(** ** Terminate *)

Lemma deleteSession1_absent sessionId rt st :
  activeSessions st !! sessionId = None ->
  Server1.deleteSession sessionId rt st = (Normal notFound, st).
Proof.
  intros H. unfold Server1.deleteSession. js_unfold. simpl. rewrite H.
  rewrite bool_decide_eq_false_2; [reflexivity |].
  intros [x Hx]. discriminate.
Qed.

Lemma deleteSession1_present sessionId rt st :
  is_Some (activeSessions st !! sessionId) ->
  exists st',
    Server1.deleteSession sessionId rt st
    = (Normal {| status := 200;
                 body := [("message", JString "Session terminated successfully")] |}, st')
    /\ cleanupSession sessionId rt st = (Normal tt, st').
Proof.
  intros H. destruct (cleanupSession_spec sessionId rt st) as [st' [Hc _]].
  exists st'. split; [| exact Hc].
  unfold Server1.deleteSession, activeSessions_has, try_catch, bind, gets, respond, ret.
  rewrite bool_decide_eq_true_2 by exact H. simpl. now rewrite Hc.
Qed.

Lemma deleteSession1_removes sessionId rt st :
  activeSessions (snd (Server1.deleteSession sessionId rt st)) !! sessionId = None.
Proof.
  destruct (activeSessions st !! sessionId) as [r|] eqn:Hr.
  - destruct (deleteSession1_present sessionId rt st) as [st' [-> Hc]]; [eauto |].
    pose proof (cleanupSession_removes sessionId rt st) as H. now rewrite Hc in H.
  - now rewrite deleteSession1_absent.
Qed.

(** C5, as stated, fails in server.js: the second delete of a session
    is answered 404, not with a success. *)
Lemma C5_counterexample :
  ~ succeeded (fst (Server1.deleteSession "s1" allResolve terminatedOnce)).
Proof.
  intros [resp [H Hs]]. vm_compute in H. inversion H; subst resp.
  simpl in Hs. discriminate.
Qed.

(** C5 (amended): in server3.js terminate is idempotent: both calls
    succeed, the second changes nothing, and no registry entry remains
    after either. In server.js no registry entry remains after either
    call either, and the second call, on the id already terminated, is
    answered 404 and changes nothing. *)
Theorem C5_terminate_twice :
  (forall sessionId rt1 rt2 st,
      let first := Server3.deleteSession sessionId rt1 st in
      let second := Server3.deleteSession sessionId rt2 (snd first) in
      succeeded (fst first) /\ succeeded (fst second)
      /\ snd second = snd first
      /\ activeSessions (snd first) !! sessionId = None
      /\ activeSessions (snd second) !! sessionId = None)
  /\ (forall sessionId rt1 rt2 st,
      let first := Server1.deleteSession sessionId rt1 st in
      let second := Server1.deleteSession sessionId rt2 (snd first) in
      fst second = Normal notFound
      /\ snd second = snd first
      /\ activeSessions (snd first) !! sessionId = None
      /\ activeSessions (snd second) !! sessionId = None).
Proof.
  split; intros sid rt1 rt2 st; cbv zeta.
  - destruct (deleteSession3_spec sid rt1 st) as [st1 [H1 Hc1]].
    assert (Hnone : activeSessions st1 !! sid = None).
    { pose proof (cleanupSession_removes sid rt1 st) as H. now rewrite Hc1 in H. }
    rewrite H1. simpl.
    destruct (deleteSession3_spec sid rt2 st1) as [st2 [H2 Hc2]].
    rewrite (cleanupSession_absent sid rt2 st1 Hnone) in Hc2.
    inversion Hc2; subst st2. rewrite H2. simpl.
    repeat split; try exact Hnone; eexists; split; reflexivity.
  - pose proof (deleteSession1_removes sid rt1 st) as Hnone.
    rewrite (deleteSession1_absent sid rt2 _ Hnone). simpl.
    repeat split; exact Hnone.
Qed.

(** ** The security profile *)

Lemma createCalls_app t1 t2 : createCalls (t1 ++ t2) = createCalls t1 ++ createCalls t2.
Proof. apply omap_app. Qed.

Lemma createSession3_calls sessionId cols rows now rt st :
  createCalls (trace (snd (Server3.createSession sessionId cols rows now rt st)))
  = createCalls (trace st)
    ++ [Server3.createOptions (default 80%Z cols) (default 24%Z rows)].
Proof.
  unfold Server3.createSession. js_unfold. simpl.
  settle_awaits rt; rewrite ?createCalls_app; simpl; rewrite ?app_nil_r; reflexivity.
Qed.

Lemma createSession1_calls sessionId now rt st :
  createCalls (trace (snd (Server1.createSession sessionId now rt st)))
  = createCalls (trace st) ++ [Server1.createOptions].
Proof.
  unfold Server1.createSession. js_unfold. simpl.
  settle_awaits rt; rewrite ?createCalls_app; simpl; rewrite ?app_nil_r; reflexivity.
Qed.

Lemma createSession2_calls sessionId cols rows now rt st :
  createCalls (trace (snd (Server2.createSession sessionId cols rows now rt st)))
  = createCalls (trace st)
    ++ [Server2.createOptions (default 80%Z cols) (default 24%Z rows)].
Proof.
  unfold Server2.createSession. js_unfold. simpl.
  settle_awaits rt; rewrite ?createCalls_app; simpl; rewrite ?app_nil_r; reflexivity.
Qed.

(** C3, as stated, fails: the profile server3.js passes for a session
    adds SYS_ADMIN back and turns the confinement off, and the profile
    of server.js adds NET_ADMIN back. *)
Lemma C3_counterexample :
  ~ (Forall (fun opts => minimalProfile (HostConfig opts))
       (createCalls (trace (snd (Server3.createSession "s1" None None 0 allResolve initial)))))
  /\ ~ (Forall (fun opts => minimalProfile (HostConfig opts))
       (createCalls (trace (snd (Server1.createSession "s1" 0 allResolve initial))))).
Proof.
  split; intros H; apply Forall_cons_1 in H as [H _];
    destruct H as (_ & Hnet & _ & Hsys & _).
  - apply Hsys. vm_compute. tauto.
  - apply Hnet. vm_compute. tauto.
Qed.

(** C3 (amended): every session creation makes one
    [docker.createContainer] call, and the profile it passes drops ALL
    capabilities; server.js and server2.js add NET_ADMIN back and set
    no-new-privileges; server3.js adds back AUDIT_WRITE, CHOWN,
    DAC_OVERRIDE, SETGID, SETUID, NET_BIND_SERVICE and SYS_ADMIN, and
    passes no-new-privileges:false and seccomp=unconfined. *)
Theorem C3_security_profile :
  (forall sessionId cols rows now rt st,
      exists opts,
        createCalls (trace (snd (Server3.createSession sessionId cols rows now rt st)))
        = createCalls (trace st) ++ [opts]
        /\ CapDrop (HostConfig opts) = ["ALL"]
        /\ CapAdd (HostConfig opts)
           = ["AUDIT_WRITE"; "CHOWN"; "DAC_OVERRIDE"; "SETGID"; "SETUID";
              "NET_BIND_SERVICE"; "SYS_ADMIN"]
        /\ SecurityOpt (HostConfig opts)
           = ["no-new-privileges:false"; "seccomp=unconfined"])
  /\ (forall sessionId now rt st,
      exists opts,
        createCalls (trace (snd (Server1.createSession sessionId now rt st)))
        = createCalls (trace st) ++ [opts]
        /\ CapDrop (HostConfig opts) = ["ALL"]
        /\ CapAdd (HostConfig opts) = ["NET_ADMIN"]
        /\ SecurityOpt (HostConfig opts) = ["no-new-privileges"])
  /\ (forall sessionId cols rows now rt st,
      exists opts,
        createCalls (trace (snd (Server2.createSession sessionId cols rows now rt st)))
        = createCalls (trace st) ++ [opts]
        /\ CapDrop (HostConfig opts) = ["ALL"]
        /\ CapAdd (HostConfig opts) = ["NET_ADMIN"]
        /\ SecurityOpt (HostConfig opts) = ["no-new-privileges"]).
Proof.
  split; [| split]; intros.
  - eexists. split; [apply createSession3_calls |]. repeat split.
  - eexists. split; [apply createSession1_calls |]. repeat split.
  - eexists. split; [apply createSession2_calls |]. repeat split.
Qed.

(** ** Output chunking *)

(** The loop with enough fuel: the frames are not empty, hold at most
    [maxChunkSize] bytes each, and make up the chunk from [i] on. *)
Lemma sendSubChunks_spec ws chunk rt :
  forall fuel i st,
    length chunk - i <= fuel ->
    exists frames,
      Server3.sendSubChunks fuel ws chunk i rt st
      = (Normal tt,
         set_trace (fun t => t ++ map (fun f => WsSend ws (Binary f)) frames) st)
      /\ Forall (fun f => 0 < length f <= Server3.maxChunkSize) frames
      /\ concat frames = drop i chunk.
Proof.
  induction fuel as [|fuel IH]; intros i st Hfuel.
  - exists []. simpl. unfold ret. rewrite set_trace_nil.
    split; [reflexivity |]. split; [constructor |].
    symmetry. apply drop_ge. lia.
  - simpl. destruct (i <? length chunk) eqn:Hi.
    + apply Nat.ltb_lt in Hi.
      unfold bind, emit, modify.
      destruct (IH (i + Server3.maxChunkSize)
                  (set_trace (fun t => t ++ [WsSend ws (Binary
                     (Server3.slice i (Nat.min (i + Server3.maxChunkSize) (length chunk))
                        chunk))]) st))
        as (frames & Hrun & Hall & Hcat).
      { unfold Server3.maxChunkSize. lia. }
      exists (Server3.slice i (Nat.min (i + Server3.maxChunkSize) (length chunk)) chunk
              :: frames).
      split; [| split].
      * rewrite Hrun. f_equal. rewrite set_trace_set_trace. apply set_trace_ext.
        simpl. now rewrite <- app_assoc.
      * constructor; [| exact Hall]. unfold Server3.slice.
        rewrite length_take, length_drop. unfold Server3.maxChunkSize. lia.
      * simpl. rewrite Hcat. unfold Server3.slice.
        destruct (decide (i + Server3.maxChunkSize <= length chunk)) as [Hle | Hgt].
        -- rewrite Nat.min_l by exact Hle.
           replace (i + Server3.maxChunkSize - i) with Server3.maxChunkSize by lia.
           rewrite <- (drop_drop chunk Server3.maxChunkSize i).
           apply take_drop.
        -- rewrite Nat.min_r by lia.
           rewrite (drop_ge chunk (i + Server3.maxChunkSize)) by lia.
           rewrite app_nil_r. apply take_ge. rewrite length_drop. lia.
    + apply Nat.ltb_ge in Hi. exists []. unfold ret. rewrite set_trace_nil.
      split; [reflexivity |]. split; [constructor |].
      symmetry. apply drop_ge. exact Hi.
Qed.

Lemma concat_length_le (frames : list (list Byte.byte)) n :
  Forall (fun f => length f <= n) frames -> length frames <= 1 ->
  length (concat frames) <= n.
Proof.
  destruct frames as [|f [|g frames]]; simpl; intros Hall Hlen; try lia.
  apply Forall_cons_1 in Hall as [Hf _]. rewrite app_nil_r. exact Hf.
Qed.

(** C6: while the websocket is open, a chunk of the exec stream goes out
    as one or more binary frames of at most 1024 bytes each, in order,
    whose concatenation is the chunk; a chunk of more than 1024 bytes,
    such as a burst of 5000, goes out as several frames. *)
Theorem C6_output_chunking ws b chunk rt st :
  bridges st !! ws = Some b -> wsOpen b = true ->
  exists frames,
    Server3.onStreamData ws chunk rt st
    = (Normal tt,
       set_trace (fun t => t ++ map (fun f => WsSend ws (Binary f)) frames) st)
    /\ frames <> []
    /\ Forall (fun f => length f <= 1024) frames
    /\ concat frames = chunk
    /\ (1024 < length chunk -> 1 < length frames).
Proof.
  intros Hb Hopen.
  assert (Hmulti : forall frames,
             Forall (fun f => length f <= 1024) frames -> concat frames = chunk ->
             1024 < length chunk -> 1 < length frames).
  { intros frames Hall Hcat Hlen.
    destruct (decide (1 < length frames)) as [H | H]; [exact H |].
    pose proof (concat_length_le frames 1024 Hall ltac:(lia)) as Hle.
    rewrite Hcat in Hle. lia. }
  unfold Server3.onStreamData, bind, gets. rewrite Hb. simpl. rewrite Hopen.
  unfold try_catch.
  destruct (Server3.maxChunkSize <? length chunk) eqn:Hbig.
  - apply Nat.ltb_lt in Hbig. unfold Server3.maxChunkSize in Hbig.
    destruct (sendSubChunks_spec ws chunk rt (length chunk) 0 st)
      as (frames & Hrun & Hall & Hcat); [lia |].
    rewrite drop_0 in Hcat.
    assert (Hall' : Forall (fun f => length f <= 1024) frames).
    { eapply Forall_impl; [exact Hall |]. simpl. unfold Server3.maxChunkSize. lia. }
    exists frames. rewrite Hrun.
    split; [reflexivity |]. split; [| split; [exact Hall' | split; [exact Hcat |]]].
    + intros ->. simpl in Hcat. subst chunk. simpl in Hbig. lia.
    + now apply Hmulti.
  - apply Nat.ltb_ge in Hbig. unfold Server3.maxChunkSize in Hbig.
    exists [chunk]. unfold emit, modify. simpl.
    split; [reflexivity |]. split; [discriminate |].
    split; [constructor; [exact Hbig | constructor] |].
    split; [apply app_nil_r | lia].
Qed.

(** C6 at work: a burst of 5000 bytes on the bridge of websocket 7. *)
Lemma C6_witness :
  exists frames,
    Server3.onStreamData 7 burst allResolve bridged
    = (Normal tt,
       set_trace (fun t => t ++ map (fun f => WsSend 7 (Binary f)) frames) bridged)
    /\ frames <> []
    /\ Forall (fun f => length f <= 1024) frames
    /\ concat frames = burst
    /\ (1024 < length burst -> 1 < length frames).
Proof.
  apply (C6_output_chunking 7
           {| bSessionId := "s1"; bSession := 2; bStream := 4; commandBuffer := EmptyString;
              wsOpen := true; streamEnded := false |}).
  - vm_compute. reflexivity.
  - reflexivity.
Defined.

(** ** The message handler of server3.js *)

Lemma blocked_truthy line : isCommandBlocked line = true -> Server3.truthy line = true.
Proof. destruct line; [discriminate | reflexivity]. Qed.

Lemma eqb_terminator data :
  ((data =? chr CR)%string || (data =? chr LF)%string) = true <-> isTerminator data.
Proof.
  unfold isTerminator. rewrite orb_true_iff.
  split; (intros [H | H]; [left | right]);
    first [exact (proj1 (String.eqb_eq _ _) H) | exact (proj2 (String.eqb_eq _ _) H)].
Qed.

Ltac onMessage_start Hb Hs :=
  unfold Server3.onMessage, Server3.setCommandBuffer; js_unfold; simpl;
  rewrite Hb; simpl; rewrite Hs; simpl.

(** A frame that is not a lone terminator joins the buffer and is
    forwarded. *)
Lemma onMessage3_other ws b s data now rt st :
  bridges st !! ws = Some b -> heap st !! bSession b = Some s ->
  ~ isTerminator data ->
  commandBuffer <$> bridges (snd (Server3.onMessage ws data now rt st)) !! ws
  = Some (commandBuffer b +:+ data)
  /\ trace (snd (Server3.onMessage ws data now rt st))
     = trace st ++ [StreamWrite (bStream b) data].
Proof.
  intros Hb Hs Hd. onMessage_start Hb Hs.
  destruct ((data =? chr CR)%string || (data =? chr LF)%string) eqn:Ht.
  { apply eqb_terminator in Ht. contradiction. }
  simpl. rewrite lookup_alter_eq, Hb. split; reflexivity.
Qed.

(** A lone terminator after a blocked line: the warning is written to
    the stream, the terminator is not, and the buffer is reset. *)
Lemma onMessage3_blocked ws b s data now rt st :
  bridges st !! ws = Some b -> heap st !! bSession b = Some s ->
  isTerminator data -> isCommandBlocked (trim (commandBuffer b)) = true ->
  commandBuffer <$> bridges (snd (Server3.onMessage ws data now rt st)) !! ws
  = Some EmptyString
  /\ trace (snd (Server3.onMessage ws data now rt st))
     = trace st ++ [StreamWrite (bStream b) Server3.blockedWarning].
Proof.
  intros Hb Hs Hd Hblk. onMessage_start Hb Hs.
  apply eqb_terminator in Hd. rewrite Hd, Hblk, (blocked_truthy _ Hblk). simpl.
  rewrite lookup_alter_eq, Hb. split; reflexivity.
Qed.

(** A lone terminator after a line that is not blocked. *)
Lemma onMessage3_allowed ws b s data now rt st :
  bridges st !! ws = Some b -> heap st !! bSession b = Some s ->
  isTerminator data -> isCommandBlocked (trim (commandBuffer b)) = false ->
  commandBuffer <$> bridges (snd (Server3.onMessage ws data now rt st)) !! ws
  = Some EmptyString
  /\ (topExit (trim (commandBuffer b)) s ->
      trace (snd (Server3.onMessage ws data now rt st))
      = trace st ++ [StreamWrite (bStream b) (chr ETX); StreamWrite (bStream b) CRLF])
  /\ (~ topExit (trim (commandBuffer b)) s ->
      trace (snd (Server3.onMessage ws data now rt st))
      = trace st ++ [StreamWrite (bStream b) data]).
Proof.
  intros Hb Hs Hd Hblk. onMessage_start Hb Hs.
  apply eqb_terminator in Hd. rewrite Hd, Hblk, andb_false_r. unfold topExit.
  destruct ((trim (commandBuffer b) =? "q")%string) eqn:Hq; simpl.
  - apply String.eqb_eq in Hq. rewrite lookup_insert_eq. simpl.
    case_bool_decide as Htop; simpl.
    + rewrite lookup_insert_eq. simpl. rewrite lookup_alter_eq, Hb.
      split; [reflexivity |]. split; [intros _; now rewrite <- app_assoc |].
      intros Hn. exfalso. apply Hn. now split.
    + rewrite Hq. simpl. rewrite lookup_insert_eq. simpl.
      rewrite lookup_alter_eq, Hb.
      split; [reflexivity |]. split; [| reflexivity].
      intros [_ Hl]. contradiction.
  - assert (Hne : trim (commandBuffer b) <> "q").
    { intros E. rewrite E in Hq. discriminate. }
    destruct (Server3.truthy (trim (commandBuffer b))); simpl;
      rewrite ?lookup_insert_eq; simpl; rewrite lookup_alter_eq, Hb;
      (split; [reflexivity |]); (split; [| reflexivity]);
      intros [Hl _]; contradiction.
Qed.

(** C7, as stated, fails on a frame that contains a terminator among
    other characters: [reboot] and a carriage return pasted as one frame
    are forwarded as they are, no check is made, and the buffer is not
    reset. *)
Lemma C7_counterexample :
  hasChar CR pastedReboot = true
  /\ isCommandBlocked (trim pastedReboot) = true
  /\ (commandBuffer <$> bridges (snd (Server3.onMessage 7 pastedReboot 1 allResolve bridged)) !! 7)
     <> Some EmptyString
  /\ trace (snd (Server3.onMessage 7 pastedReboot 1 allResolve bridged))
     = trace bridged ++ [StreamWrite 4 pastedReboot].
Proof.
  split; [reflexivity |]. split; [reflexivity |]. split.
  - vm_compute. discriminate.
  - vm_compute. reflexivity.
Qed.

(** C7 (amended): on a frame that is exactly one line terminator
    (carriage return or newline) the deny-list check is made on the
    buffered line, and the buffer is empty afterwards on each of the
    three paths (blocked, exit of top, forwarded); any other frame, with
    or without a terminator in it, is appended to the buffer and
    forwarded with no check. *)
Theorem C7_line_terminator ws b s data now rt st :
  bridges st !! ws = Some b -> heap st !! bSession b = Some s ->
  (isTerminator data ->
     commandBuffer <$> bridges (snd (Server3.onMessage ws data now rt st)) !! ws
     = Some EmptyString
     /\ (isCommandBlocked (trim (commandBuffer b)) = true ->
         trace (snd (Server3.onMessage ws data now rt st))
         = trace st ++ [StreamWrite (bStream b) Server3.blockedWarning])
     /\ (isCommandBlocked (trim (commandBuffer b)) = false ->
         topExit (trim (commandBuffer b)) s ->
         trace (snd (Server3.onMessage ws data now rt st))
         = trace st ++ [StreamWrite (bStream b) (chr ETX); StreamWrite (bStream b) CRLF])
     /\ (isCommandBlocked (trim (commandBuffer b)) = false ->
         ~ topExit (trim (commandBuffer b)) s ->
         trace (snd (Server3.onMessage ws data now rt st))
         = trace st ++ [StreamWrite (bStream b) data]))
  /\ (~ isTerminator data ->
     commandBuffer <$> bridges (snd (Server3.onMessage ws data now rt st)) !! ws
     = Some (commandBuffer b +:+ data)
     /\ trace (snd (Server3.onMessage ws data now rt st))
        = trace st ++ [StreamWrite (bStream b) data]).
Proof.
  intros Hb Hs. split; [| exact (onMessage3_other ws b s data now rt st Hb Hs)].
  intros Hd. destruct (isCommandBlocked (trim (commandBuffer b))) eqn:Hblk.
  - destruct (onMessage3_blocked ws b s data now rt st Hb Hs Hd Hblk) as [H1 H2].
    repeat split; auto; discriminate.
  - destruct (onMessage3_allowed ws b s data now rt st Hb Hs Hd Hblk) as (H1 & H2 & H3).
    repeat split; auto; discriminate.
Qed.

(** C7 at work: the carriage return after the keystrokes of [reboot]. *)
Lemma C7_witness :
  commandBuffer <$> bridges (snd (Server3.onMessage 7 (chr CR) 2 allResolve typedReboot)) !! 7
  = Some EmptyString
  /\ trace (snd (Server3.onMessage 7 (chr CR) 2 allResolve typedReboot))
     = trace typedReboot ++ [StreamWrite 4 Server3.blockedWarning].
Proof.
  destruct (C7_line_terminator 7
              {| bSessionId := "s1"; bSession := 2; bStream := 4; commandBuffer := "reboot";
                 wsOpen := true; streamEnded := false |}
              {| container := 0; exec := Some 3; stream := Some 4; lastActivity := 1;
                 dimensions := Some {| cols := 80; rows := 24 |}; lastCommand := None |}
              (chr CR) 2 allResolve typedReboot) as [H _].
  - vm_compute. reflexivity.
  - vm_compute. reflexivity.
  - destruct H as (H1 & H2 & _); [left; reflexivity |].
    split; [exact H1 | apply H2; reflexivity].
Defined.

(** C2, on the code: the keystrokes of [reboot] and a carriage return.
    The warning goes to the stream of the exec, not to the websocket:
    after [reboot] the shell receives a carriage return and a newline,
    then the text of the warning and another line ending, and the
    websocket is sent nothing. *)
Theorem C2_warning_written_to_shell :
  streamInput 4
    (drop (length (trace bridged))
       (trace (snd (Server3.onMessage 7 (chr CR) 2 allResolve typedReboot))))
  = "reboot" +:+ CRLF +:+ "This command is blocked for security reasons" +:+ CRLF
  /\ framesSent 7 (trace (snd (Server3.onMessage 7 (chr CR) 2 allResolve typedReboot))) = []
  /\ isCommandBlocked "reboot" = true.
Proof. vm_compute. repeat split. Qed.

(** ** Resize and status *)

Lemma resizeSession_unknown sessionId cols rows rt st :
  activeSessions st !! sessionId = None ->
  Server3.resizeSession sessionId cols rows rt st = (Normal notFound, st).
Proof. intros H. unfold Server3.resizeSession. js_unfold. simpl. now rewrite H. Qed.

Lemma resizeSession_no_exec sessionId r s cols rows rt st :
  activeSessions st !! sessionId = Some r -> heap st !! r = Some s ->
  exec s = None ->
  Server3.resizeSession sessionId cols rows rt st = (Normal resized, st).
Proof.
  intros Hr Hs He. unfold Server3.resizeSession. js_unfold. simpl.
  rewrite Hr. simpl. rewrite Hs. simpl. now rewrite He.
Qed.

Lemma resizeSession_resolved sessionId r s e cols rows rt st :
  activeSessions st !! sessionId = Some r -> heap st !! r = Some s ->
  exec s = Some e -> rt (awaits st) = Resolved ->
  exists st',
    Server3.resizeSession sessionId cols rows rt st = (Normal resized, st')
    /\ trace st' = trace st ++ [ExecResize e rows cols]
    /\ heap st' = <[r := with_dimensions (Some {| cols := cols; rows := rows |}) s]> (heap st)
    /\ activeSessions st' = activeSessions st.
Proof.
  intros Hr Hs He Hrt. unfold Server3.resizeSession. js_unfold. simpl.
  rewrite Hr. simpl. rewrite Hs. simpl. rewrite He. simpl. rewrite Hrt. simpl.
  rewrite Hs. simpl. eexists. repeat split.
Qed.

Lemma resizeSession_rejected sessionId r s e cols rows rt st :
  activeSessions st !! sessionId = Some r -> heap st !! r = Some s ->
  exec s = Some e -> rt (awaits st) = Rejected ->
  exists st',
    Server3.resizeSession sessionId cols rows rt st = (Normal resizeFailed, st')
    /\ trace st' = trace st ++ [ExecResize e rows cols;
                                ConsoleError "Error resizing terminal:"]
    /\ heap st' = heap st
    /\ activeSessions st' = activeSessions st.
Proof.
  intros Hr Hs He Hrt. unfold Server3.resizeSession. js_unfold. simpl.
  rewrite Hr. simpl. rewrite Hs. simpl. rewrite He. simpl. rewrite Hrt. simpl.
  eexists. split; [reflexivity |]. simpl. rewrite <- app_assoc. repeat split.
Qed.

Lemma getStatus_known sessionId r s rt st :
  activeSessions st !! sessionId = Some r -> heap st !! r = Some s ->
  Server1.getStatus sessionId rt st
  = (Normal {| status := 200;
               body := [("sessionId", JString sessionId);
                        ("active", JBool true);
                        ("lastActivity", JNumber (lastActivity s))] |}, st).
Proof.
  intros Hr Hs. unfold Server1.getStatus. js_unfold. simpl.
  rewrite Hr. simpl. now rewrite Hs.
Qed.

(** C8, as stated, fails twice over: when [exec.resize] rejects, the
    dimensions of the session stay as they were; and the status answer,
    which only server.js gives, has no dimensions in it. *)
Lemma C8_counterexample :
  (dimensions <$> heap (snd (Server3.resizeSession "s1" 120 40 allReject bridged)) !! 2)
  <> Some (Some {| cols := 120; rows := 40 |})
  /\ (exists resp,
        fst (Server1.getStatus "s1" allResolve oneSession1) = Normal resp
        /\ ~ reportsDimensions resp).
Proof.
  split; [vm_compute; discriminate |].
  eexists. split; [vm_compute; reflexivity |].
  unfold reportsDimensions. simpl. intros [H | [H | [H | []]]]; discriminate.
Qed.

(** C8 (amended): a resize for an unknown session id is answered 404
    and changes nothing; for a session with no exec yet it is answered
    with a success and changes nothing; for a session with an exec,
    [exec.resize] is called once with the requested rows and columns,
    and when the call resolves the dimensions of the session become the
    requested ones and the answer is a success, when it rejects the
    answer is a failure and the dimensions stay. The status answer of
    server.js carries the session id, [active] and [lastActivity], and
    no dimensions. *)
Theorem C8_resize sessionId cols rows rt st :
  (activeSessions st !! sessionId = None ->
     Server3.resizeSession sessionId cols rows rt st = (Normal notFound, st))
  /\ (forall r s,
       activeSessions st !! sessionId = Some r -> heap st !! r = Some s ->
       (exec s = None ->
          Server3.resizeSession sessionId cols rows rt st = (Normal resized, st))
       /\ (forall e, exec s = Some e -> rt (awaits st) = Resolved ->
           exists st',
             Server3.resizeSession sessionId cols rows rt st = (Normal resized, st')
             /\ trace st' = trace st ++ [ExecResize e rows cols]
             /\ (dimensions <$> heap st' !! r)
                = Some (Some {| cols := cols; rows := rows |}))
       /\ (forall e, exec s = Some e -> rt (awaits st) = Rejected ->
           exists st',
             Server3.resizeSession sessionId cols rows rt st = (Normal resizeFailed, st')
             /\ trace st' = trace st ++ [ExecResize e rows cols;
                                         ConsoleError "Error resizing terminal:"]
             /\ heap st' !! r = Some s)
       /\ Server1.getStatus sessionId rt st
          = (Normal {| status := 200;
                       body := [("sessionId", JString sessionId);
                                ("active", JBool true);
                                ("lastActivity", JNumber (lastActivity s))] |}, st)).
Proof.
  split; [apply resizeSession_unknown |].
  intros r s Hr Hs. split; [| split; [| split]].
  - exact (resizeSession_no_exec sessionId r s cols rows rt st Hr Hs).
  - intros e He Hrt.
    destruct (resizeSession_resolved sessionId r s e cols rows rt st Hr Hs He Hrt)
      as (st' & Hrun & Ht & Hh & _).
    exists st'. split; [exact Hrun |]. split; [exact Ht |].
    rewrite Hh, lookup_insert_eq. reflexivity.
  - intros e He Hrt.
    destruct (resizeSession_rejected sessionId r s e cols rows rt st Hr Hs He Hrt)
      as (st' & Hrun & Ht & Hh & _).
    exists st'. split; [exact Hrun |]. split; [exact Ht |]. now rewrite Hh.
  - exact (getStatus_known sessionId r s rt st Hr Hs).
Qed.

(** C8 at work: resize(s1, 120, 40) on a session with an exec. *)
Lemma C8_witness :
  exists st',
    Server3.resizeSession "s1" 120 40 allResolve bridged = (Normal resized, st')
    /\ trace st' = trace bridged ++ [ExecResize 3 40 120]
    /\ (dimensions <$> heap st' !! 2) = Some (Some {| cols := 120; rows := 40 |}).
Proof.
  destruct (C8_resize "s1" 120 40 allResolve bridged) as [_ H].
  destruct (H 2 {| container := 0; exec := Some 3; stream := Some 4; lastActivity := 0;
                   dimensions := Some {| cols := 80; rows := 24 |};
                   lastCommand := None |}) as (_ & Hres & _).
  - vm_compute. reflexivity.
  - vm_compute. reflexivity.
  - apply (Hres 3); reflexivity.
Defined.

(** ** Bridges of one session *)



(** The close handler retires the bridge of its own websocket and no
    other: that bridge stops being live, its stream is ended, and the
    bridges of the other websockets are as before. *)
Lemma onClose_retires_bridge ws b rt st :
  bridges st !! ws = Some b ->
  let st' := snd (Server3.onClose ws rt st) in
  (live <$> bridges st' !! ws) = Some false
  /\ (forall ws', ws' <> ws -> bridges st' !! ws' = bridges st !! ws')
  /\ filter tearsDown (drop (length (trace st)) (trace st'))
     = [StreamEnd (bStream b)].
Proof.
  intros Hbr. cbv zeta.
  unfold Server3.onClose, emit, gets, modify, bind. rewrite Hbr. simpl.
  rewrite lookup_insert_eq. simpl. split; [| split].
  - reflexivity.
  - intros ws' Hne. apply lookup_insert_ne. congruence.
  - rewrite <- app_assoc, drop_app_length. reflexivity.
Qed.


(** ** Handlers that start and settle no cleanup *)

Section Quiet.

Variable I : server -> Prop.
Hypothesis I_quiet : quiet I.

Lemma q_emit ev : preserves I (emit ev).
Proof. apply pres_modify, (quiet_trace I I_quiet). Qed.

Lemma q_await ev : preserves I (await ev).
Proof.
  unfold await. apply pres_bind; [apply q_emit | intros _].
  apply pres_bind; [apply pres_gets | intros n].
  apply pres_bind; [apply pres_modify, (quiet_awaits I I_quiet) | intros _].
  intros rt st H. now destruct (rt n).
Qed.

Lemma q_awaitNew ev : preserves I (awaitNew ev).
Proof.
  unfold awaitNew. apply pres_bind; [apply q_await | intros _].
  apply pres_bind; [apply pres_gets | intros o].
  apply pres_bind; [apply pres_modify, (quiet_nextObject I I_quiet) | intros _].
  apply pres_ret.
Qed.

Lemma q_assign r f : preserves I (assign r f).
Proof.
  intros rt st H. unfold assign. destruct (heap st !! r); [| exact H].
  now apply (quiet_write I I_quiet).
Qed.

Lemma q_delete sessionId : preserves I (activeSessions_delete sessionId).
Proof. apply pres_modify, (quiet_delete I I_quiet). Qed.

Lemma q_bridges f : preserves I (modify (set_bridges f)).
Proof. apply pres_modify, (quiet_bridges I I_quiet). Qed.

End Quiet.

Ltac quiet_step H :=
  first
    [ apply (q_emit _ H) | apply (q_await _ H) | apply (q_awaitNew _ H)
    | apply (q_delete _ H) | apply (q_bridges _ H)
    | apply pres_ret | apply pres_throw | apply pres_bind | apply pres_try_catch
    | apply pres_try_finally | apply pres_gets | apply pres_field
    | apply (q_assign _ H) | apply pres_forEach
    | match goal with
      | |- preserves _ (match ?x with _ => _ end) => destruct x
      | |- forall _, _ => intros
      end ].

Ltac quietly H := repeat quiet_step H.

Lemma q_cleanupSession I sessionId : quiet I -> preserves I (cleanupSession sessionId).
Proof. intros H. unfold cleanupSession, activeSessions_get. quietly H. Qed.



(** What a cleanup called and not awaited leaves behind: the cleanups
    suspended before are still suspended, no session is added to the
    registry, and the session of the call, if it is still registered,
    has the new cleanup suspended. *)
Lemma startCleanup_spec sessionId rt st :
  exists st',
    startCleanup sessionId rt st = (Normal tt, st')
    /\ timers st' = timers st
    /\ (forall t, t ∈ pending st -> t ∈ pending st')
    /\ (forall k, is_Some (activeSessions st' !! k) -> is_Some (activeSessions st !! k))
    /\ (is_Some (activeSessions st' !! sessionId) -> suspendedFor sessionId st').
Proof.
  js_unfold. simpl.
  destruct (activeSessions st !! sessionId) as [r|] eqn:Hr; simpl.
  - destruct (heap st !! r) as [s|] eqn:Hs; simpl.
    + eexists. split; [reflexivity |]. simpl. split; [reflexivity |].
      split; [intros t Ht; apply elem_of_app; now left |].
      split; [auto |]. intros _.
      exists (AwaitStop sessionId r). split; [| reflexivity].
      apply elem_of_app. right. left.
    + eexists. split; [reflexivity |]. simpl. split; [reflexivity |].
      split; [auto |]. split.
      * intros k Hk. destruct (decide (sessionId = k)) as [-> | Hne].
        -- rewrite lookup_delete_eq in Hk. now destruct Hk.
        -- now rewrite lookup_delete_ne in Hk by exact Hne.
      * rewrite lookup_delete_eq. intros Hk. now destruct Hk.
  - exists st. split; [reflexivity |]. split; [reflexivity |].
    split; [auto |]. split; [auto |]. rewrite Hr. intros Hk. now destruct Hk.
Qed.

Lemma underCleanup_quiet sessionId : quiet (underCleanup sessionId).
Proof.
  split; intros; try assumption.
  destruct H as [Hnone | Hs]; [left | now right]. simpl.
  destruct (decide (sessionId0 = sessionId)) as [-> | Hne].
  - apply lookup_delete_eq.
  - now rewrite lookup_delete_ne by exact Hne.
Qed.

Lemma underCleanup_startCleanup sessionId sid :
  preserves (underCleanup sessionId) (startCleanup sid).
Proof.
  intros rt st H.
  destruct (startCleanup_spec sid rt st) as (st' & -> & _ & Hp & Ha & _). simpl.
  destruct H as [Hnone | (t & Ht & Htid)].
  - left. destruct (activeSessions st' !! sessionId) as [r|] eqn:E; [| reflexivity].
    destruct (Ha sessionId ltac:(eauto)) as [x Hx]. congruence.
  - right. exists t. split; [now apply Hp | exact Htid].
Qed.

(** The requests and events of server.js other than a creation, a
    sweep, the settling of an await and the expiry of a timer keep every
    property that the effects of such handlers keep. *)
Lemma q_handle1 I ev :
  quiet I ->
  match ev with
  | Server1.Create _ _ | Server1.Sweep _ | Server1.Settle _ _ | Server1.Timer _ _ => True
  | _ => preserves I (Server1.handle ev)
  end.
Proof.
  intros H.
  destruct ev as [sid now | sid | sid | ws sid | ws data now | ws chunk | ws | ws
                 | now | i o | i now]; simpl; try exact Logic.I.
  - unfold Server1.getStatus, activeSessions_get, respond. quietly H.
  - unfold Server1.deleteSession, activeSessions_has, respond.
    apply pres_bind; [| intros; apply pres_ret].
    apply pres_bind; [apply pres_gets | intros [|]; simpl].
    + apply pres_try_catch; [| quietly H].
      apply pres_bind; [apply q_cleanupSession, H | intros; apply pres_ret].
    + apply pres_ret.
  - unfold Server1.connection, activeSessions_get. quietly H.
  - unfold Server1.onMessage. quietly H.
  - unfold Server1.onStreamData. quietly H.
  - unfold Server1.onStreamError. quietly H.
  - unfold Server1.onClose. quietly H.
Qed.


(** ** The session timer of server.js *)

Lemma timers_stable ts : stable (fun st => timers st = ts).
Proof. split; intros; assumption. Qed.

Lemma keeps_timers_eq {A} (m : js A) rt st :
  keeps_timers m -> timers (snd (m rt st)) = timers st.
Proof. intros H. now apply (H (timers st)). Qed.

Ltac kt_all :=
  let ts := fresh "ts" in
  intros ts; pres (timers_stable ts).

Lemma kt_cleanupSession sessionId : keeps_timers (cleanupSession sessionId).
Proof. intros ts. apply pres_cleanupSession, timers_stable. Qed.

Lemma kt_startCleanup sessionId : keeps_timers (startCleanup sessionId).
Proof. intros ts. apply pres_startCleanup, timers_stable. Qed.

Lemma kt_settle i o : keeps_timers (settle i o).
Proof. intros ts. apply pres_settle, timers_stable. Qed.

Lemma cleanupSession_trace sessionId r s rt st :
  activeSessions st !! sessionId = Some r -> heap st !! r = Some s ->
  trace (snd (cleanupSession sessionId rt st))
  = trace st ++ teardownCalls sessionId (container s) (rt (awaits st)) (rt (S (awaits st))).
Proof.
  intros Hr Hs. js_unfold. simpl. rewrite Hr. simpl. rewrite Hs. simpl.
  destruct (rt (awaits st)); simpl; rewrite ?Hs; simpl;
    [destruct (rt (S (awaits st))); simpl |]; now rewrite <- ?app_assoc.
Qed.

Lemma createSession1_timers sessionId now rt st :
  match fst (Server1.createSession sessionId now rt st) with
  | Normal resp =>
      if decide (status resp = 200)
      then timers (snd (Server1.createSession sessionId now rt st))
           = timers st ++ [((now + Server1.sessionTimeout)%Z, sessionId)]
           /\ is_Some (activeSessions (snd (Server1.createSession sessionId now rt st))
                         !! sessionId)
      else timers (snd (Server1.createSession sessionId now rt st)) = timers st
  | Thrown => False
  end.
Proof.
  unfold Server1.createSession. js_unfold. simpl.
  settle_awaits rt; try reflexivity.
  split; [reflexivity |]. rewrite lookup_insert_eq. eauto.
Qed.

Lemma fireTimer_early i now rt st due sessionId :
  timers st !! i = Some (due, sessionId) -> (now < due)%Z ->
  Server1.fireTimer i now rt st = (Normal tt, st).
Proof.
  intros Hi Hlt. unfold Server1.fireTimer, bind, gets. rewrite Hi.
  destruct (due <=? now)%Z eqn:E; [apply Z.leb_le in E; lia | reflexivity].
Qed.

Lemma kt_onTimeout sessionId : keeps_timers (Server1.onTimeout sessionId).
Proof.
  intros ts. unfold Server1.onTimeout, activeSessions_has.
  apply pres_bind; [apply pres_gets | intros [|]].
  - apply pres_startCleanup, timers_stable.
  - apply pres_ret.
Qed.

Lemma fireTimer_due i now rt st due sessionId :
  timers st !! i = Some (due, sessionId) -> (due <= now)%Z ->
  Server1.fireTimer i now rt st
  = Server1.onTimeout sessionId rt (set_timers (delete i) st).
Proof.
  intros Hi Hle. unfold Server1.fireTimer, bind, gets, modify. rewrite Hi.
  apply Z.leb_le in Hle. now rewrite Hle.
Qed.

Lemma fireTimer_timers i now rt st due sessionId :
  timers st !! i = Some (due, sessionId) -> (due <= now)%Z ->
  timers (snd (Server1.fireTimer i now rt st)) = delete i (timers st).
Proof.
  intros Hi Hle. rewrite (fireTimer_due i now rt st due sessionId Hi Hle).
  apply (keeps_timers_eq _ rt (set_timers (delete i) st) (kt_onTimeout sessionId)).
Qed.

Lemma startCleanup_known sessionId r s rt st :
  activeSessions st !! sessionId = Some r -> heap st !! r = Some s ->
  startCleanup sessionId rt st
  = (Normal tt,
     set_pending (fun p => p ++ [AwaitStop sessionId r])
       (set_trace (fun t => t ++ [ContainerStop (container s)]) st)).
Proof. intros Hr Hs. js_unfold. simpl. rewrite Hr. simpl. now rewrite Hs. Qed.

(** The timer expires with its session registered: the callback calls
    stop and returns with the cleanup suspended. *)
Lemma fireTimer_registered i now rt st due sessionId r s :
  timers st !! i = Some (due, sessionId) -> (due <= now)%Z ->
  activeSessions st !! sessionId = Some r -> heap st !! r = Some s ->
  Server1.fireTimer i now rt st
  = (Normal tt,
     set_pending (fun p => p ++ [AwaitStop sessionId r])
       (set_trace (fun t => t ++ [ContainerStop (container s)])
          (set_timers (delete i) st))).
Proof.
  intros Hi Hle Hr Hs. rewrite (fireTimer_due i now rt st due sessionId Hi Hle).
  unfold Server1.onTimeout, activeSessions_has, bind, gets. simpl.
  rewrite Hr, bool_decide_eq_true_2 by eauto.
  now apply startCleanup_known.
Qed.

(** The timer expires with its session gone: the callback does nothing. *)
Lemma fireTimer_gone i now rt st due sessionId :
  timers st !! i = Some (due, sessionId) -> (due <= now)%Z ->
  activeSessions st !! sessionId = None ->
  Server1.fireTimer i now rt st = (Normal tt, set_timers (delete i) st).
Proof.
  intros Hi Hle Hnone. rewrite (fireTimer_due i now rt st due sessionId Hi Hle).
  unfold Server1.onTimeout, activeSessions_has, bind, gets, ret. simpl.
  rewrite Hnone, bool_decide_eq_false_2 by (intros [x Hx]; discriminate).
  reflexivity.
Qed.

(** A cleanup suspended at its stop call, as the youngest suspended
    cleanup, and its two awaits settling with [o1] and [o2]. *)
Lemma suspended_cleanup_settles sessionId r s o1 o2 rt st st0 :
  heap st0 !! r = Some s ->
  st = set_pending (fun p => p ++ [AwaitStop sessionId r])
         (set_trace (fun t => t ++ [ContainerStop (container s)]) st0) ->
  let n := length (pending st0) in
  let st' := snd ((settle n o1 ;;; settle n o2) rt st) in
  trace st' = trace st0 ++ teardownCalls sessionId (container s) o1 o2
  /\ activeSessions st' = delete sessionId (activeSessions st0)
  /\ pending st' = pending st0
  /\ timers st' = timers st0.
Proof.
  intros Hs ->. cbv zeta.
  assert (Hmid : forall t, (pending st0 ++ [t]) !! length (pending st0) = Some t).
  { intros t. now apply list_lookup_middle. }
  assert (Hins : forall t t', <[length (pending st0) := t']> (pending st0 ++ [t])
                              = pending st0 ++ [t']).
  { intros t t'. rewrite insert_app_r_alt by lia. now rewrite Nat.sub_diag. }
  assert (Hdel : forall t, delete (length (pending st0)) (pending st0 ++ [t]) = pending st0).
  { intros t. rewrite (delete_middle (pending st0) []). apply app_nil_r. }
  js_unfold. simpl. rewrite Hmid. simpl.
  destruct o1; simpl.
  - rewrite Hs. simpl. rewrite Hins, Hmid. simpl.
    destruct o2; simpl; rewrite Hins, Hdel, <- ?app_assoc; auto.
  - rewrite Hdel. rewrite lookup_ge_None_2 by lia. simpl. rewrite Hdel, <- ?app_assoc. auto.
Qed.

Lemma kt_getStatus sessionId : keeps_timers (Server1.getStatus sessionId).
Proof. unfold Server1.getStatus, activeSessions_get, respond. kt_all. Qed.

Lemma kt_deleteSession sessionId : keeps_timers (Server1.deleteSession sessionId).
Proof.
  intros ts. unfold Server1.deleteSession, activeSessions_has, respond.
  apply pres_bind; [apply pres_gets | intros [|]; simpl].
  - apply pres_try_catch.
    + apply pres_bind; [apply pres_cleanupSession, timers_stable | intros; apply pres_ret].
    + pres (timers_stable ts).
  - apply pres_ret.
Qed.

Lemma kt_connection ws sessionId : keeps_timers (Server1.connection ws sessionId).
Proof. unfold Server1.connection, activeSessions_get. kt_all. Qed.

Lemma kt_onMessage ws data now : keeps_timers (Server1.onMessage ws data now).
Proof. unfold Server1.onMessage. kt_all. Qed.

Lemma kt_onStreamData ws chunk : keeps_timers (Server1.onStreamData ws chunk).
Proof. unfold Server1.onStreamData. kt_all. Qed.

Lemma kt_onStreamError ws : keeps_timers (Server1.onStreamError ws).
Proof. unfold Server1.onStreamError. kt_all. Qed.

Lemma kt_onClose ws : keeps_timers (Server1.onClose ws).
Proof. unfold Server1.onClose. kt_all. Qed.

Lemma kt_reaperSweep now : keeps_timers (Server1.reaperSweep now).
Proof.
  intros ts. unfold Server1.reaperSweep. cbv zeta.
  apply pres_bind; [apply pres_gets | intros entries].
  apply pres_forEach. intros [sid r].
  apply pres_try_catch; [| apply pres_ret].
  apply pres_bind; [apply pres_field | intros la].
  destruct (_ <? _)%Z; [| apply pres_ret].
  apply pres_bind; [apply pres_emit, timers_stable | intros _].
  apply pres_startCleanup, timers_stable.
Qed.

Lemma handle1_timers ev rt st :
  match ev with
  | Server1.Create sessionId now =>
      timers (snd (Server1.handle ev rt st)) = timers st
      \/ timers (snd (Server1.handle ev rt st))
         = timers st ++ [((now + Server1.sessionTimeout)%Z, sessionId)]
  | Server1.Timer i now =>
      timers (snd (Server1.handle ev rt st)) = timers st
      \/ exists due sessionId,
           timers st !! i = Some (due, sessionId) /\ (due <= now)%Z
           /\ timers (snd (Server1.handle ev rt st)) = delete i (timers st)
  | _ => timers (snd (Server1.handle ev rt st)) = timers st
  end.
Proof.
  destruct ev as [sid now | sid | sid | ws sid | ws data now | ws chunk | ws | ws
                 | now | i o | i now]; simpl.
  - pose proof (createSession1_timers sid now rt st) as H.
    unfold bind, ret.
    destruct (Server1.createSession sid now rt st) as [[resp|] st1]; simpl in *;
      [| contradiction].
    destruct (decide (status resp = 200)); [right; apply H | left; exact H].
  - apply keeps_timers_eq. intros ts.
    apply pres_bind; [apply kt_getStatus | intros; apply pres_ret].
  - apply keeps_timers_eq. intros ts.
    apply pres_bind; [apply kt_deleteSession | intros; apply pres_ret].
  - apply keeps_timers_eq, kt_connection.
  - apply keeps_timers_eq, kt_onMessage.
  - apply keeps_timers_eq, kt_onStreamData.
  - apply keeps_timers_eq, kt_onStreamError.
  - apply keeps_timers_eq, kt_onClose.
  - apply keeps_timers_eq, kt_reaperSweep.
  - apply keeps_timers_eq, kt_settle.
  - unfold Server1.fireTimer at 1. unfold bind at 1. unfold gets at 1.
    destruct (timers st !! i) as [[due sid]|] eqn:Hi; [| now left].
    destruct (due <=? now)%Z eqn:Hle; [| now left].
    right. exists due, sid. apply Z.leb_le in Hle.
    split; [reflexivity |]. split; [exact Hle |].
    apply (fireTimer_timers i now rt st due sid Hi Hle).
Qed.

Lemma underCleanup1_createSession sessionId sid now :
  sid <> sessionId ->
  preserves (underCleanup sessionId) (Server1.createSession sid now).
Proof.
  intros Hne rt st H. unfold Server1.createSession. js_unfold. simpl.
  settle_awaits rt; try exact H.
  destruct H as [Hnone | Hs]; [left | right; exact Hs]. simpl.
  now rewrite lookup_insert_ne by exact Hne.
Qed.

(** A session under cleanup stays so under whatever server.js handles,
    short of a creation under its id. *)
Lemma underCleanup1_handle sessionId ev :
  ~ creates1 sessionId ev -> preserves (underCleanup sessionId) (Server1.handle ev).
Proof.
  intros Hev. pose proof (q_handle1 _ ev (underCleanup_quiet sessionId)) as Hq.
  destruct ev as [sid now | sid | sid | ws sid | ws data now | ws chunk | ws | ws
                 | now | i o | i now]; try exact Hq; simpl.
  - apply pres_bind; [| intros; apply pres_ret].
    apply underCleanup1_createSession. intros ->. now apply Hev.
  - unfold Server1.reaperSweep. cbv zeta.
    apply pres_bind; [apply pres_gets | intros entries].
    apply pres_forEach. intros [sid r].
    apply pres_try_catch; [| apply pres_ret].
    apply pres_bind; [apply pres_field | intros la].
    destruct (_ <? _)%Z; [| apply pres_ret].
    apply pres_bind; [apply (q_emit _ (underCleanup_quiet sessionId)) | intros _].
    apply underCleanup_startCleanup.
  - intros rt st. apply settle_underCleanup.
  - unfold Server1.fireTimer.
    apply pres_bind; [apply pres_gets | intros [[due sid]|]; [| apply pres_ret]].
    destruct (_ <=? _)%Z; [| apply pres_ret].
    apply pres_bind; [apply pres_modify; intros st H; exact H | intros _].
    unfold Server1.onTimeout, activeSessions_has.
    apply pres_bind; [apply pres_gets | intros [|]];
      [apply underCleanup_startCleanup | apply pres_ret].
Qed.

Lemma underCleanup1_run sessionId evs :
  Forall (fun ev => ~ creates1 sessionId ev) evs ->
  preserves (underCleanup sessionId) (run Server1.handle evs).
Proof.
  induction evs as [|ev evs IH]; intros Hall; [apply pres_ret |].
  apply Forall_cons_1 in Hall as [Hev Hall].
  simpl. apply pres_bind; [now apply underCleanup1_handle | intros _; now apply IH].
Qed.

(** C10, as stated, fails: when the timer of the session expires at
    the thirtieth minute the session is still registered, with its
    cleanup suspended at the stop call; and when that call rejects, the
    entry is deleted and nothing is left suspended, but remove was never
    called on the container. *)
Lemma C10_counterexample :
  is_Some (activeSessions timerExpired !! "s1")
  /\ activeSessions stopRejected !! "s1" = None
  /\ pending stopRejected = []
  /\ filter isTeardownCall (trace stopRejected) = [ContainerStop 0].
Proof.
  split; [vm_compute; eauto |].
  split; [vm_compute; reflexivity |].
  split; vm_compute; reflexivity.
Qed.

(** C10 (amended): in server.js a session that was created with success
    has a timer armed at creation, due thirty minutes later. Nothing the
    server handles disarms or moves that timer but its own expiry: not
    a message of the client, which only updates [lastActivity], nor any
    other request, event or sweep. The timer does not run before it is
    due. When it runs with the session registered, whatever
    [lastActivity] is, stop is called on the container at once and the
    cleanup is left suspended; from then on, whatever the server
    handles short of a creation under the same id, the session is out
    of the registry or its cleanup is suspended; and when the two awaits
    of the cleanup have settled, remove was called after stop if stop
    resolved, a failure was logged if one rejected, and no registry
    entry for the session remains. When it runs with the session gone,
    it does nothing. *)
Theorem C10_session_timeout :
  (forall sessionId now rt st resp st',
      Server1.createSession sessionId now rt st = (Normal resp, st') ->
      status resp = 200 ->
      timers st' = timers st ++ [((now + 30 * 60 * 1000)%Z, sessionId)]
      /\ is_Some (activeSessions st' !! sessionId))
  /\ (forall ev rt st due sessionId,
      (due, sessionId) ∈ timers st ->
      (due, sessionId) ∈ timers (snd (Server1.handle ev rt st))
      \/ exists i now, ev = Server1.Timer i now
                       /\ timers st !! i = Some (due, sessionId) /\ (due <= now)%Z)
  /\ (forall i now rt st due sessionId,
      timers st !! i = Some (due, sessionId) -> (now < due)%Z ->
      Server1.fireTimer i now rt st = (Normal tt, st))
  /\ (forall i now rt st due sessionId r s,
      timers st !! i = Some (due, sessionId) -> (due <= now)%Z ->
      activeSessions st !! sessionId = Some r -> heap st !! r = Some s ->
      let expired := snd (Server1.fireTimer i now rt st) in
      fst (Server1.fireTimer i now rt st) = Normal tt
      /\ trace expired = trace st ++ [ContainerStop (container s)]
      /\ pending expired = pending st ++ [AwaitStop sessionId r]
      /\ activeSessions expired = activeSessions st
      /\ (forall evs rt',
            Forall (fun ev => ~ creates1 sessionId ev) evs ->
            underCleanup sessionId (snd (run Server1.handle evs rt' expired)))
      /\ (forall o1 o2 rt',
            let n := length (pending st) in
            let settled := snd ((settle n o1 ;;; settle n o2) rt' expired) in
            trace settled = trace st ++ teardownCalls sessionId (container s) o1 o2
            /\ activeSessions settled !! sessionId = None
            /\ pending settled = pending st))
  /\ (forall i now rt st due sessionId,
      timers st !! i = Some (due, sessionId) -> (due <= now)%Z ->
      activeSessions st !! sessionId = None ->
      Server1.fireTimer i now rt st = (Normal tt, set_timers (delete i) st)).
Proof.
  split; [| split; [| split; [| split]]].
  - intros sid now rt st resp st' Hrun Hok.
    pose proof (createSession1_timers sid now rt st) as H.
    rewrite Hrun in H. simpl in H.
    destruct (decide (status resp = 200)); [exact H | contradiction].
  - intros ev rt st due sid Hin.
    pose proof (handle1_timers ev rt st) as H.
    destruct ev; try (left; rewrite H; exact Hin).
    + left. destruct H as [-> | ->]; [exact Hin | apply elem_of_app; now left].
    + destruct H as [-> | (due' & sid' & Hi & Hle & ->)]; [now left |].
      destruct (decide ((due, sid) = (due', sid'))) as [E | Hne].
      * inversion E; subst. right. eauto.
      * left. now apply (elem_of_delete_ne _ _ _ (due', sid')).
  - apply fireTimer_early.
  - intros i now rt st due sid r s Hi Hle Hr Hs. cbv zeta.
    rewrite (fireTimer_registered i now rt st due sid r s Hi Hle Hr Hs). simpl.
    split; [reflexivity |]. split; [reflexivity |]. split; [reflexivity |].
    split; [reflexivity |]. split.
    + intros evs rt' Hevs. apply underCleanup1_run; [exact Hevs |]. right.
      exists (AwaitStop sid r). split; [| reflexivity].
      simpl. apply elem_of_app. right. left.
    + intros o1 o2 rt'.
      destruct (suspended_cleanup_settles sid r s o1 o2 rt' _ (set_timers (delete i) st)
                  Hs eq_refl) as (Ht & Ha & Hp & _).
      split; [exact Ht |]. split; [| exact Hp].
      pose proof (f_equal (fun m => m !! sid) Ha) as Ha'. cbv beta in Ha'.
      rewrite lookup_delete_eq in Ha'. exact Ha'.
  - apply fireTimer_gone.
Qed.

(** C10 at work: the session created at time 0 and used until the
    twenty-ninth minute. Its timer does nothing a millisecond before the
    thirtieth minute; at the thirtieth it calls stop, and once stop and
    remove have resolved the session is out of the registry. *)
Lemma C10_witness :
  trace timerExpired = trace busySession ++ [ContainerStop 0]
  /\ activeSessions (snd ((settle 0 Resolved ;;; settle 0 Resolved) allResolve timerExpired))
       !! "s1" = None
  /\ Server1.fireTimer 0 (30 * 60 * 1000 - 1) allResolve busySession
     = (Normal tt, busySession)
  /\ (lastActivity <$> heap busySession !! 3) = Some (29 * 60 * 1000)%Z.
Proof.
  destruct C10_session_timeout as (_ & _ & Hearly & Hdue & _).
  assert (Hi : timers busySession !! 0 = Some ((30 * 60 * 1000)%Z, "s1"))
    by (vm_compute; reflexivity).
  assert (Hr : activeSessions busySession !! "s1" = Some 3) by (vm_compute; reflexivity).
  assert (Hs : heap busySession !! 3
               = Some (with_lastActivity (29 * 60 * 1000) (newSession1 0 1 2 0)))
    by (vm_compute; reflexivity).
  destruct (Hdue 0 (30 * 60 * 1000)%Z allResolve busySession _ "s1" 3 _ Hi ltac:(lia) Hr Hs)
    as (_ & Ht & _ & _ & _ & Hsettle).
  destruct (Hsettle Resolved Resolved allResolve) as (_ & Hgone & _).
  split; [exact Ht |]. split; [exact Hgone |]. split.
  - apply (Hearly 0 _ allResolve busySession _ "s1" Hi). lia.
  - vm_compute. reflexivity.
Defined.

(** * Further properties *)

(** ** CommandGuard: what the verdict depends on *)

Lemma lowerChar_idem c : lowerChar (lowerChar c) = lowerChar c.
Proof. destruct c as [[] [] [] [] [] [] [] []]; reflexivity. Qed.

Lemma isWhiteSpace_lowerChar c : isWhiteSpace (lowerChar c) = isWhiteSpace c.
Proof. destruct c as [[] [] [] [] [] [] [] []]; reflexivity. Qed.

Lemma toLowerCase_idem s : toLowerCase (toLowerCase s) = toLowerCase s.
Proof. induction s as [|c s IH]; simpl; [reflexivity |]. now rewrite lowerChar_idem, IH. Qed.

Lemma trimStart_toLowerCase s : trimStart (toLowerCase s) = toLowerCase (trimStart s).
Proof.
  induction s as [|c s IH]; simpl; [reflexivity |].
  rewrite isWhiteSpace_lowerChar. now destruct (isWhiteSpace c).
Qed.

Lemma trimEnd_toLowerCase s : trimEnd (toLowerCase s) = toLowerCase (trimEnd s).
Proof.
  induction s as [|c s IH]; simpl; [reflexivity |].
  rewrite IH, isWhiteSpace_lowerChar.
  destruct (trimEnd s); simpl; [now destruct (isWhiteSpace c) | reflexivity].
Qed.

Lemma trim_toLowerCase s : trim (toLowerCase s) = toLowerCase (trim s).
Proof. unfold trim. now rewrite trimStart_toLowerCase, trimEnd_toLowerCase. Qed.

Lemma firstWord_toLowerCase line : firstWord (toLowerCase line) = firstWord line.
Proof.
  unfold firstWord.
  now rewrite trim_toLowerCase, split_hd_toLowerCase, toLowerCase_idem.
Qed.

(** X1: two lines that differ only in the case of their letters get the
    same verdict. *)
Theorem guard_ignores_case line line' :
  toLowerCase line = toLowerCase line' ->
  isCommandBlocked line = isCommandBlocked line'.
Proof.
  intros H. rewrite !isCommandBlocked_includes.
  now rewrite <- (firstWord_toLowerCase line), H, firstWord_toLowerCase.
Qed.

Lemma guard_ignores_case_witness :
  isCommandBlocked "ReBoot Now" = isCommandBlocked "reboot now".
Proof. apply guard_ignores_case. reflexivity. Defined.

Lemma trimStart_app a b :
  trimStart (a +:+ b)
  = match trimStart a with
    | EmptyString => trimStart b
    | t => t +:+ b
    end.
Proof.
  induction a as [|c a IH]; [reflexivity |].
  rewrite append_cons. simpl. destruct (isWhiteSpace c); [exact IH | reflexivity].
Qed.

Lemma trimEnd_app a b :
  trimEnd (a +:+ b)
  = match trimEnd b with
    | EmptyString => trimEnd a
    | t => a +:+ t
    end.
Proof.
  induction a as [|c a IH]; [simpl; rewrite append_nil; now destruct (trimEnd b) |].
  rewrite append_cons. simpl. rewrite IH.
  destruct (trimEnd b) as [|d t]; [reflexivity |].
  rewrite append_cons. destruct (a +:+ String d t) eqn:E; [| reflexivity].
  destruct a; discriminate.
Qed.

Lemma trimStart_blank s : blank s = true -> trimStart s = EmptyString.
Proof.
  induction s as [|c s IH]; simpl; [reflexivity |].
  intros H. apply andb_true_iff in H as [Hc Hs]. rewrite Hc. auto.
Qed.

Lemma trimEnd_blank s : blank s = true -> trimEnd s = EmptyString.
Proof.
  induction s as [|c s IH]; simpl; [reflexivity |].
  intros H. apply andb_true_iff in H as [Hc Hs]. now rewrite (IH Hs), Hc.
Qed.

Lemma trimEnd_empty_blank s : trimEnd s = EmptyString -> blank s = true.
Proof.
  induction s as [|c s IH]; simpl; [reflexivity |].
  destruct (trimEnd s); [| discriminate].
  destruct (isWhiteSpace c); [auto | discriminate].
Qed.

Lemma trim_padding pre line post :
  blank pre = true -> blank post = true ->
  trim (pre +:+ line +:+ post) = trim line.
Proof.
  intros Hpre Hpost. unfold trim.
  rewrite trimStart_app, (trimStart_blank pre Hpre), trimStart_app.
  destruct (trimStart line) as [|c t] eqn:E.
  - now rewrite (trimStart_blank post Hpost).
  - now rewrite trimEnd_app, (trimEnd_blank post Hpost).
Qed.

(** X2: white space before and after a line does not change the
    verdict, and a line of white space only is never blocked. *)
Theorem guard_ignores_padding pre line post :
  blank pre = true -> blank post = true ->
  isCommandBlocked (pre +:+ line +:+ post) = isCommandBlocked line
  /\ isCommandBlocked pre = false.
Proof.
  intros Hpre Hpost. split.
  - rewrite !isCommandBlocked_includes. unfold firstWord.
    now rewrite trim_padding.
  - rewrite isCommandBlocked_includes. unfold firstWord, trim.
    now rewrite (trimStart_blank pre Hpre).
Qed.

Lemma guard_ignores_padding_witness :
  isCommandBlocked ("  " +:+ "reboot" +:+ String TAB " ") = isCommandBlocked "reboot"
  /\ isCommandBlocked "  " = false.
Proof. apply guard_ignores_padding; reflexivity. Defined.

Lemma trimStart_solid s : solid s = true -> trimStart s = s.
Proof.
  destruct s as [|c s]; simpl; [reflexivity |].
  intros H. apply andb_true_iff in H as [Hc _].
  apply negb_true_iff in Hc. now rewrite Hc.
Qed.

Lemma trimEnd_solid s : solid s = true -> trimEnd s = s.
Proof.
  induction s as [|c s IH]; simpl; [reflexivity |].
  intros H. apply andb_true_iff in H as [Hc Hs]. rewrite (IH Hs).
  apply negb_true_iff in Hc. rewrite Hc. now destruct s.
Qed.

Lemma solid_no_space s : solid s = true -> hasChar " " s = false.
Proof.
  induction s as [|c s IH]; simpl; [reflexivity |].
  intros H. apply andb_true_iff in H as [Hc Hs]. rewrite (IH Hs), orb_false_r.
  destruct (Ascii.eqb c " ") eqn:E; [| reflexivity].
  apply Ascii.eqb_eq in E. subst c. discriminate.
Qed.

Lemma firstWord_with_arguments word rest :
  word <> EmptyString -> solid word = true ->
  firstWord (word +:+ " " +:+ rest) = toLowerCase word.
Proof.
  intros Hne Hsolid. unfold firstWord, trim. f_equal.
  assert (Hstart : trimStart (word +:+ " " +:+ rest) = word +:+ " " +:+ rest).
  { rewrite trimStart_app, (trimStart_solid word Hsolid).
    destruct word; [congruence | reflexivity]. }
  rewrite Hstart, trimEnd_app.
  pose proof (solid_no_space word Hsolid) as Hsp.
  destruct (trimEnd (" " +:+ rest)) as [|d t] eqn:E.
  - rewrite (trimEnd_solid word Hsolid). now apply split_hd_whole.
  - rewrite append_cons, append_nil in E. simpl in E.
    destruct (trimEnd rest); simpl in E; inversion E; subst;
      now apply split_hd_app.
Qed.

(** X3: the verdict on a command word followed by a space and anything
    else is the verdict on the word: a deny-list name stays blocked
    with any arguments, and a line whose first word is not on the list
    is allowed whatever comes after it. *)
Theorem guard_reads_first_word_only word rest :
  word <> EmptyString -> solid word = true ->
  isCommandBlocked (word +:+ " " +:+ rest) = includes BLOCKED_COMMANDS (toLowerCase word).
Proof.
  intros Hne Hsolid.
  now rewrite isCommandBlocked_includes, firstWord_with_arguments.
Qed.

Lemma guard_reads_first_word_only_witness :
  isCommandBlocked ("sudo" +:+ " " +:+ "reboot now")
  = includes BLOCKED_COMMANDS (toLowerCase "sudo").
Proof. apply guard_reads_first_word_only; [discriminate | reflexivity]. Defined.

(** ** The message handler of server3.js, frame after frame *)

(** What one frame does to the bridge, to the session object and to the
    trace, on each path of the handler. *)
Lemma onMessage3_state ws b s data now rt st :
  bridges st !! ws = Some b -> heap st !! bSession b = Some s ->
  exists st' b' s' evs,
    Server3.onMessage ws data now rt st = (Normal tt, st')
    /\ bridges st' !! ws = Some b' /\ heap st' !! bSession b = Some s'
    /\ trace st' = trace st ++ evs
    /\ touchesOnly ws (bSession b) st st'
    /\ sameBridge b b' /\ sameSession s s' /\ lastActivity s' = now
    /\ (~ isTerminator data ->
        commandBuffer b' = commandBuffer b +:+ data
        /\ evs = [StreamWrite (bStream b) data]
        /\ lastCommand s' = lastCommand s)
    /\ (isTerminator data ->
        commandBuffer b' = EmptyString
        /\ (isCommandBlocked (trim (commandBuffer b)) = true ->
            evs = [StreamWrite (bStream b) Server3.blockedWarning]
            /\ lastCommand s' = lastCommand s)
        /\ (isCommandBlocked (trim (commandBuffer b)) = false ->
            topExit (trim (commandBuffer b)) s ->
            evs = [StreamWrite (bStream b) (chr ETX); StreamWrite (bStream b) CRLF]
            /\ lastCommand s' = Some EmptyString)
        /\ (isCommandBlocked (trim (commandBuffer b)) = false ->
            ~ topExit (trim (commandBuffer b)) s ->
            evs = [StreamWrite (bStream b) data]
            /\ lastCommand s'
               = if Server3.truthy (trim (commandBuffer b))
                 then Some (hd EmptyString (split " " (trim (commandBuffer b))))
                 else lastCommand s)).
Proof.
  intros Hb Hs.
  onMessage_start Hb Hs.
  destruct ((data =? chr CR)%string || (data =? chr LF)%string) eqn:Ht.
  - apply eqb_terminator in Ht.
    destruct (isCommandBlocked (trim (commandBuffer b))) eqn:Hblk.
    + rewrite (blocked_truthy _ Hblk). simpl.
      eexists _, _, _, _. split; [reflexivity |]. simpl.
      rewrite lookup_alter_eq, Hb, lookup_insert_eq. simpl.
      split; [reflexivity |]. split; [reflexivity |]. split; [reflexivity |].
      split. { repeat split; simpl; auto.
               - intros ws' Hne. apply lookup_alter_ne. congruence.
               - intros r' Hne. apply lookup_insert_ne. congruence. }
      split; [repeat split |]. split; [repeat split |]. split; [reflexivity |].
      split; [intros Hn; contradiction |]. intros _.
      split; [reflexivity |].
      split; [intros _; split; reflexivity |].
      split; intros; discriminate.
    + rewrite andb_false_r.
      destruct ((trim (commandBuffer b) =? "q")%string) eqn:Hq; simpl.
      * apply String.eqb_eq in Hq. rewrite lookup_insert_eq. simpl.
        case_bool_decide as Htop; simpl.
        -- rewrite lookup_insert_eq. simpl.
           eexists _, _, _, _. split; [reflexivity |]. simpl.
           rewrite lookup_alter_eq, Hb, lookup_insert_eq. simpl.
           split; [reflexivity |]. split; [reflexivity |].
           split; [rewrite <- app_assoc; reflexivity |].
           split. { repeat split; simpl; auto.
                    - intros ws' Hne. apply lookup_alter_ne. congruence.
                    - intros r' Hne. rewrite !lookup_insert_ne by congruence. reflexivity. }
           split; [repeat split |]. split; [repeat split |]. split; [reflexivity |].
           split; [intros Hn; contradiction |]. intros _.
           split; [reflexivity |].
           split; [intros; discriminate |].
           split; [intros _ _; split; reflexivity |].
           intros _ Hn. exfalso. apply Hn. now split.
        -- rewrite Hq. simpl. rewrite lookup_insert_eq. simpl.
           eexists _, _, _, _. split; [reflexivity |]. simpl.
           rewrite lookup_alter_eq, Hb, lookup_insert_eq. simpl.
           split; [reflexivity |]. split; [reflexivity |]. split; [reflexivity |].
           split. { repeat split; simpl; auto.
                    - intros ws' Hne. apply lookup_alter_ne. congruence.
                    - intros r' Hne. rewrite !lookup_insert_ne by congruence. reflexivity. }
           split; [repeat split |]. split; [repeat split |]. split; [reflexivity |].
           split; [intros Hn; contradiction |]. intros _.
           split; [reflexivity |].
           split; [intros; discriminate |].
           split; [intros _ [_ Hl]; contradiction |].
           intros _ _. split; reflexivity.
      * assert (Hne : trim (commandBuffer b) <> "q").
        { intros E. rewrite E in Hq. discriminate. }
        destruct (Server3.truthy (trim (commandBuffer b))) eqn:Htr; simpl;
          rewrite ?lookup_insert_eq; simpl;
          (eexists _, _, _, _; split; [reflexivity |]; simpl;
           rewrite lookup_alter_eq, Hb, ?lookup_insert_eq; simpl;
           split; [reflexivity |]; split; [reflexivity |]; split; [reflexivity |];
           split; [repeat split; simpl; auto;
                   [intros ws' Hne'; apply lookup_alter_ne; congruence
                   |intros r' Hne'; rewrite ?lookup_insert_ne by congruence; reflexivity] |];
           split; [repeat split |]; split; [repeat split |]; split; [reflexivity |];
           split; [intros Hn; contradiction |]; intros _;
           split; [reflexivity |];
           split; [intros; discriminate |];
           split; [intros _ [Hl _]; contradiction |];
           intros _ _; split; reflexivity).
  - assert (Hnt : ~ isTerminator data).
    { intros Hd. apply eqb_terminator in Hd. congruence. }
    simpl. eexists _, _, _, _. split; [reflexivity |]. simpl.
    rewrite lookup_alter_eq, Hb, lookup_insert_eq. simpl.
    split; [reflexivity |]. split; [reflexivity |]. split; [reflexivity |].
    split. { repeat split; simpl; auto.
             - intros ws' Hne. apply lookup_alter_ne. congruence.
             - intros r' Hne. apply lookup_insert_ne. congruence. }
    split; [repeat split |]. split; [repeat split |]. split; [reflexivity |].
    split; [intros _; repeat split |]. intros Hd. contradiction.
Qed.

Lemma sameBridge_trans b1 b2 b3 : sameBridge b1 b2 -> sameBridge b2 b3 -> sameBridge b1 b3.
Proof. unfold sameBridge. intuition congruence. Qed.

Lemma sameSession_trans s1 s2 s3 :
  sameSession s1 s2 -> sameSession s2 s3 -> sameSession s1 s3.
Proof. unfold sameSession. intuition congruence. Qed.

Lemma touchesOnly_trans ws r st1 st2 st3 :
  touchesOnly ws r st1 st2 -> touchesOnly ws r st2 st3 -> touchesOnly ws r st1 st3.
Proof.
  intros (B1 & H1 & A1 & P1 & T1) (B2 & H2 & A2 & P2 & T2).
  repeat split; try congruence.
  - intros ws' Hne. now rewrite B2, B1.
  - intros r' Hne. now rewrite H2, H1.
Qed.

Lemma touchesOnly_refl ws r st : touchesOnly ws r st st.
Proof. repeat split. Qed.

Lemma last_cons_default {A} (x d : A) l : default x (last l) = default d (last (x :: l)).
Proof.
  destruct l as [|y l]; [reflexivity |].
  change (last (x :: y :: l)) with (last (y :: l)).
  destruct (proj2 (last_is_Some (y :: l)) ltac:(discriminate)) as [z ->]. reflexivity.
Qed.

(** X4: frames that are not a lone terminator pile up in the buffer and
    are all forwarded, in order and as they are; the session has the
    time of the last of them as [lastActivity]. *)
Theorem frames_accumulate ws frames rt :
  forall b s st,
    bridges st !! ws = Some b -> heap st !! bSession b = Some s ->
    Forall (fun f => ~ isTerminator f.1) frames ->
    exists st' b' s',
      feed Server3.onMessage ws frames rt st = (Normal tt, st')
      /\ bridges st' !! ws = Some b' /\ heap st' !! bSession b = Some s'
      /\ commandBuffer b' = commandBuffer b +:+ joined frames.*1
      /\ trace st' = trace st ++ map (StreamWrite (bStream b)) frames.*1
      /\ lastActivity s' = default (lastActivity s) (last frames.*2)
      /\ lastCommand s' = lastCommand s
      /\ sameBridge b b' /\ sameSession s s'
      /\ touchesOnly ws (bSession b) st st'.
Proof.
  unfold feed. induction frames as [|[k t] frames IH]; intros b s st Hb Hs Hall.
  - exists st, b, s. simpl. unfold ret. rewrite app_nil_r.
    repeat split; auto. unfold joined. simpl.
    clear. induction (commandBuffer b) as [|c x IHx]; [reflexivity |].
    now rewrite append_cons, <- IHx.
  - apply Forall_cons_1 in Hall as [Hk Hall]. simpl in Hk.
    destruct (onMessage3_state ws b s k t rt st Hb Hs)
      as (st1 & b1 & s1 & evs & Hrun & Hb1 & Hs1 & Ht1 & Htouch1 & Hsb1 & Hss1 & Hla1
          & Hother & _).
    destruct (Hother Hk) as (Hbuf1 & Hevs & Hlc1). subst evs.
    assert (HS : bSession b1 = bSession b) by apply Hsb1.
    assert (HST : bStream b1 = bStream b) by apply Hsb1.
    rewrite <- HS in Hs1.
    destruct (IH b1 s1 st1 Hb1 Hs1 Hall)
      as (st' & b' & s' & Hrun' & Hb' & Hs' & Hbuf' & Ht' & Hla' & Hlc' & Hsb' & Hss' & Htouch').
    exists st', b', s'. rewrite forEach_cons. simpl. rewrite Hrun.
    split; [exact Hrun' |]. split; [exact Hb' |].
    split; [now rewrite <- HS |].
    split. { rewrite Hbuf', Hbuf1. unfold joined. simpl. apply append_assoc. }
    split. { rewrite Ht', Ht1, HST, <- app_assoc. reflexivity. }
    split. { rewrite Hla', Hla1. simpl. apply last_cons_default. }
    split; [congruence |].
    split; [eapply sameBridge_trans; eassumption |].
    split; [eapply sameSession_trans; eassumption |].
    eapply touchesOnly_trans; [exact Htouch1 |]. now rewrite <- HS.
Qed.

Lemma frames_accumulate_witness :
  exists st' b' s',
    feed Server3.onMessage 7 [("l", 10%Z); ("s", 11%Z); (" -l", 12%Z)] allResolve bridged
    = (Normal tt, st')
    /\ bridges st' !! 7 = Some b' /\ heap st' !! 2 = Some s'
    /\ commandBuffer b' = EmptyString +:+ joined ["l"; "s"; " -l"]
    /\ trace st' = trace bridged ++ map (StreamWrite 4) ["l"; "s"; " -l"]
    /\ lastActivity s' = 12%Z.
Proof.
  assert (Hb : bridges bridged !! 7
               = Some {| bSessionId := "s1"; bSession := 2; bStream := 4;
                         commandBuffer := EmptyString;
                         wsOpen := true; streamEnded := false |})
    by (vm_compute; reflexivity).
  assert (Hs : heap bridged !! 2
               = Some {| container := 0; exec := Some 3; stream := Some 4;
                         lastActivity := 0;
                         dimensions := Some {| cols := 80; rows := 24 |};
                         lastCommand := None |}) by (vm_compute; reflexivity).
  destruct (frames_accumulate 7 [("l", 10%Z); ("s", 11%Z); (" -l", 12%Z)] allResolve
              _ _ bridged Hb Hs)
    as (st' & b' & s' & H1 & H2 & H3 & H4 & H5 & H6 & _).
  - repeat constructor; simpl; intros [H | H]; discriminate.
  - exists st', b', s'.
    split; [exact H1 |]. split; [exact H2 |]. split; [exact H3 |].
    split; [exact H4 |]. split; [exact H5 | exact H6].
Defined.

(** X5: a line that arrives in any number of frames, none of them a
    lone terminator, and then its terminator: every frame of the line has
    reached the stream by then; if the line is blocked the warning is
    written after them and the terminator is not, if it is not (and is
    not the exit of top) the terminator is written after them; either
    way the buffer is empty for the next line. *)
Theorem typed_line ws frames term now rt b s st :
  bridges st !! ws = Some b -> heap st !! bSession b = Some s ->
  Forall (fun f => ~ isTerminator f.1) frames -> isTerminator term ->
  let line := trim (commandBuffer b +:+ joined frames.*1) in
  let st' := snd ((feed Server3.onMessage ws frames ;;; Server3.onMessage ws term now) rt st) in
  (commandBuffer <$> bridges st' !! ws) = Some EmptyString
  /\ (isCommandBlocked line = true ->
      trace st' = trace st ++ map (StreamWrite (bStream b)) frames.*1
                  ++ [StreamWrite (bStream b) Server3.blockedWarning])
  /\ (isCommandBlocked line = false -> ~ (line = "q" /\ lastCommand s = Some "top") ->
      trace st' = trace st ++ map (StreamWrite (bStream b)) frames.*1
                  ++ [StreamWrite (bStream b) term]).
Proof.
  intros Hb Hs Hall Hterm. cbv zeta.
  destruct (frames_accumulate ws frames rt b s st Hb Hs Hall)
    as (st1 & b1 & s1 & Hrun & Hb1 & Hs1 & Hbuf & Ht1 & _ & Hlc & Hsb & _ & _).
  assert (HS : bSession b1 = bSession b) by apply Hsb.
  assert (HST : bStream b1 = bStream b) by apply Hsb.
  rewrite <- HS in Hs1.
  destruct (onMessage3_state ws b1 s1 term now rt st1 Hb1 Hs1)
    as (st2 & b2 & s2 & evs & Hrun2 & Hb2 & _ & Ht2 & _ & _ & _ & _ & _ & Hcase).
  destruct (Hcase Hterm) as (Hbuf2 & Hblk & _ & Hfwd).
  unfold bind. rewrite Hrun, Hrun2. simpl. rewrite Hb2. simpl.
  rewrite Hbuf in Hblk, Hfwd. rewrite HST in Hblk, Hfwd.
  split; [now rewrite Hbuf2 |]. split.
  - intros H. destruct (Hblk H) as [-> _]. now rewrite Ht2, Ht1, <- app_assoc.
  - intros H Hn. destruct (Hfwd H) as [-> _].
    + unfold topExit. now rewrite Hlc.
    + now rewrite Ht2, Ht1, <- app_assoc.
Qed.

Lemma typed_line_witness :
  (commandBuffer <$> bridges (snd ((feed Server3.onMessage 7 [("reb", 1%Z); ("oot", 2%Z)] ;;;
                                    Server3.onMessage 7 (chr LF) 3) allResolve bridged)) !! 7)
  = Some EmptyString
  /\ trace (snd ((feed Server3.onMessage 7 [("reb", 1%Z); ("oot", 2%Z)] ;;;
                  Server3.onMessage 7 (chr LF) 3) allResolve bridged))
     = trace bridged ++ map (StreamWrite 4) ["reb"; "oot"]
       ++ [StreamWrite 4 Server3.blockedWarning].
Proof.
  assert (Hb : bridges bridged !! 7
               = Some {| bSessionId := "s1"; bSession := 2; bStream := 4;
                         commandBuffer := EmptyString;
                         wsOpen := true; streamEnded := false |})
    by (vm_compute; reflexivity).
  assert (Hs : heap bridged !! 2
               = Some {| container := 0; exec := Some 3; stream := Some 4;
                         lastActivity := 0;
                         dimensions := Some {| cols := 80; rows := 24 |};
                         lastCommand := None |}) by (vm_compute; reflexivity).
  destruct (typed_line 7 [("reb", 1%Z); ("oot", 2%Z)] (chr LF) 3 allResolve _ _ bridged Hb Hs)
    as (H1 & H2 & _).
  - repeat constructor; simpl; intros [H | H]; discriminate.
  - right. reflexivity.
  - split; [exact H1 | apply H2; reflexivity].
Defined.

(** X6: every frame a bridged websocket receives sets [lastActivity] of
    its session to the time of the frame, in the three servers and on
    every path of the handler, a blocked line included. *)
Theorem frame_marks_activity ws b s data now rt st :
  bridges st !! ws = Some b -> heap st !! bSession b = Some s ->
  (lastActivity <$> heap (snd (Server3.onMessage ws data now rt st)) !! bSession b) = Some now
  /\ (lastActivity <$> heap (snd (Server2.onMessage ws data now rt st)) !! bSession b) = Some now
  /\ (lastActivity <$> heap (snd (Server1.onMessage ws data now rt st)) !! bSession b) = Some now.
Proof.
  intros Hb Hs. split; [| split].
  - destruct (onMessage3_state ws b s data now rt st Hb Hs)
      as (st' & b' & s' & evs & -> & _ & Hs' & _ & _ & _ & _ & Hla & _).
    simpl. now rewrite Hs', <- Hla.
  - unfold Server2.onMessage. js_unfold. simpl. rewrite Hb. simpl. rewrite Hs. simpl.
    now rewrite lookup_insert_eq.
  - unfold Server1.onMessage. js_unfold. simpl. rewrite Hb. simpl. rewrite Hs. simpl.
    destruct (0 <? _); simpl; now rewrite lookup_insert_eq.
Qed.

Lemma frame_marks_activity_witness :
  (lastActivity <$> heap (snd (Server3.onMessage 7 (chr CR) 99 allResolve typedReboot)) !! 2)
  = Some 99%Z.
Proof.
  assert (Hb : bridges typedReboot !! 7
               = Some {| bSessionId := "s1"; bSession := 2; bStream := 4;
                         commandBuffer := "reboot";
                         wsOpen := true; streamEnded := false |})
    by (vm_compute; reflexivity).
  assert (Hs : heap typedReboot !! 2
               = Some {| container := 0; exec := Some 3; stream := Some 4;
                         lastActivity := 1;
                         dimensions := Some {| cols := 80; rows := 24 |};
                         lastCommand := None |}) by (vm_compute; reflexivity).
  exact (proj1 (frame_marks_activity 7 _ _ (chr CR) 99 allResolve typedReboot Hb Hs)).
Defined.

(** X7: the exit of top. After a line whose first word is [top] was
    forwarded, the line [q] is not: on its terminator the stream gets
    the interrupt character and a line ending in its place, and the
    memory of [top] is cleared. *)
Theorem top_then_q ws b s t1 t2 now1 now2 now3 rt st :
  bridges st !! ws = Some b -> heap st !! bSession b = Some s ->
  isCommandBlocked (trim (commandBuffer b)) = false ->
  hd EmptyString (split " " (trim (commandBuffer b))) = "top" ->
  isTerminator t1 -> isTerminator t2 ->
  let st' := snd ((Server3.onMessage ws t1 now1 ;;;
                   Server3.onMessage ws "q" now2 ;;;
                   Server3.onMessage ws t2 now3) rt st) in
  trace st' = trace st ++ [StreamWrite (bStream b) t1; StreamWrite (bStream b) "q";
                           StreamWrite (bStream b) (chr ETX); StreamWrite (bStream b) CRLF]
  /\ (lastCommand <$> heap st' !! bSession b) = Some (Some EmptyString)
  /\ (commandBuffer <$> bridges st' !! ws) = Some EmptyString.
Proof.
  intros Hb Hs Hblk Htop Ht1 Ht2. cbv zeta.
  assert (Hline : trim (commandBuffer b) <> EmptyString /\ trim (commandBuffer b) <> "q").
  { split; intros E; rewrite E in Htop; discriminate. }
  destruct (onMessage3_state ws b s t1 now1 rt st Hb Hs)
    as (st1 & b1 & s1 & evs1 & Hrun1 & Hb1 & Hs1 & Htr1 & _ & Hsb1 & _ & _ & _ & Hc1).
  destruct (Hc1 Ht1) as (Hbuf1 & _ & _ & Hfwd1).
  destruct (Hfwd1 Hblk) as [-> Hlc1]; [intros [E _]; now apply Hline |].
  assert (Htruthy : Server3.truthy (trim (commandBuffer b)) = true).
  { destruct (trim (commandBuffer b)); [now destruct Hline | reflexivity]. }
  rewrite Htruthy, Htop in Hlc1.
  assert (HS1 : bSession b1 = bSession b) by apply Hsb1.
  assert (HT1 : bStream b1 = bStream b) by apply Hsb1.
  rewrite <- HS1 in Hs1.
  destruct (onMessage3_state ws b1 s1 "q" now2 rt st1 Hb1 Hs1)
    as (st2 & b2 & s2 & evs2 & Hrun2 & Hb2 & Hs2 & Htr2 & _ & Hsb2 & _ & _ & Hc2 & _).
  destruct Hc2 as (Hbuf2 & -> & Hlc2); [intros [E | E]; discriminate |].
  assert (HS2 : bSession b2 = bSession b1) by apply Hsb2.
  assert (HT2 : bStream b2 = bStream b1) by apply Hsb2.
  rewrite <- HS2 in Hs2.
  destruct (onMessage3_state ws b2 s2 t2 now3 rt st2 Hb2 Hs2)
    as (st3 & b3 & s3 & evs3 & Hrun3 & Hb3 & Hs3 & Htr3 & _ & _ & _ & _ & _ & Hc3).
  destruct (Hc3 Ht2) as (Hbuf3 & _ & Hexit & _).
  rewrite Hbuf2, Hbuf1 in Hexit.
  destruct Hexit as [-> Hlc3]; [reflexivity | split; [reflexivity | congruence] |].
  unfold bind. rewrite Hrun1, Hrun2, Hrun3. simpl.
  rewrite Htr3, Htr2, Htr1, HT2, HT1, <- !app_assoc.
  split; [reflexivity |].
  rewrite <- HS1, <- HS2, Hs3, Hb3. simpl. now rewrite Hlc3, Hbuf3.
Qed.

Lemma top_then_q_witness :
  trace (snd ((Server3.onMessage 7 (chr CR) 1 ;;; Server3.onMessage 7 "q" 2 ;;;
               Server3.onMessage 7 (chr CR) 3) allResolve
                (snd (feed Server3.onMessage 7 [("top -d 1", 0%Z)] allResolve bridged))))
  = trace (snd (feed Server3.onMessage 7 [("top -d 1", 0%Z)] allResolve bridged))
    ++ [StreamWrite 4 (chr CR); StreamWrite 4 "q";
        StreamWrite 4 (chr ETX); StreamWrite 4 CRLF].
Proof.
  refine (proj1 (top_then_q 7
            {| bSessionId := "s1"; bSession := 2; bStream := 4;
               commandBuffer := "top -d 1"; wsOpen := true; streamEnded := false |}
            {| container := 0; exec := Some 3; stream := Some 4; lastActivity := 0;
               dimensions := Some {| cols := 80; rows := 24 |}; lastCommand := None |}
            (chr CR) (chr CR) 1 2 3 allResolve _ _ _ _ _ _ _));
    first [left; reflexivity | vm_compute; reflexivity].
Defined.

(** ** Connections, creation and deletion in server3.js *)

Lemma connection3_known ws sessionId r s d rt st :
  activeSessions st !! sessionId = Some r -> heap st !! r = Some s ->
  dimensions s = Some d ->
  rt (awaits st) = Resolved -> rt (S (awaits st)) = Resolved ->
  exists st',
    Server3.connection ws sessionId rt st = (Normal tt, st')
    /\ bridges st' = <[ws := {| bSessionId := sessionId; bSession := r;
                               bStream := S (nextObject st);
                               commandBuffer := EmptyString;
                               wsOpen := true; streamEnded := false |}]> (bridges st)
    /\ trace st' = trace st
         ++ shellOpening (container s) (nextObject st) (S (nextObject st)) d
    /\ heap st' = <[r := with_stream (Some (S (nextObject st)))
                          (with_exec (Some (nextObject st)) s)]> (heap st)
    /\ activeSessions st' = activeSessions st.
Proof.
  intros Hr Hs Hd Hrt1 Hrt2. unfold Server3.connection.
  unfold awaitNew, await, emit, activeSessions_get, field, assign, try_catch,
    throw, gets, modify, bind, ret. simpl.
  repeat (first [rewrite Hr | rewrite Hs | rewrite Hd | rewrite Hrt1 | rewrite Hrt2
                | rewrite lookup_insert_eq]; simpl).
  eexists. split; [reflexivity |]. simpl.
  split; [reflexivity |]. split; [| split; [| reflexivity]].
  - unfold shellOpening. simpl. rewrite <- !app_assoc. reflexivity.
  - now rewrite insert_insert_eq.
Qed.

(** X8: when the websocket of a bridge closes, the handler ends the
    stream of that bridge and nothing else: the session stays
    registered and its container is left running; what the stream
    produces afterwards is not sent, and a stream error is only
    logged. *)
Theorem closed_socket_drops_output ws b rt st :
  bridges st !! ws = Some b ->
  let st1 := snd (Server3.onClose ws rt st) in
  trace st1 = trace st ++ [ConsoleLog ("WebSocket closed for session: " +:+ bSessionId b);
                           StreamEnd (bStream b)]
  /\ activeSessions st1 = activeSessions st /\ heap st1 = heap st
  /\ (forall chunk rt', Server3.onStreamData ws chunk rt' st1 = (Normal tt, st1))
  /\ (forall rt', trace (snd (Server3.onStreamError ws rt' st1))
                  = trace st1 ++ [ConsoleError "Stream error:"]).
Proof.
  intros Hb. cbv zeta.
  unfold Server3.onClose, Server3.onStreamData, Server3.onStreamError,
    emit, gets, modify, bind, ret. rewrite Hb. simpl.
  rewrite lookup_insert_eq. simpl.
  repeat split; try reflexivity. now rewrite <- app_assoc.
Qed.

Lemma closed_socket_drops_output_witness :
  Server3.onStreamData 7 burst allResolve (snd (Server3.onClose 7 allResolve bridged))
  = (Normal tt, snd (Server3.onClose 7 allResolve bridged)).
Proof.
  assert (Hb : bridges bridged !! 7
               = Some {| bSessionId := "s1"; bSession := 2; bStream := 4;
                         commandBuffer := EmptyString;
                         wsOpen := true; streamEnded := false |})
    by (vm_compute; reflexivity).
  exact (proj1 (proj2 (proj2 (proj2
           (closed_socket_drops_output 7 _ allResolve bridged Hb)))) burst allResolve).
Defined.

(** X9: a connection that cannot be served. For an unknown session id
    the websocket is sent the notice and closed. For a known session
    whose exec cannot be created or started, the websocket is closed
    with no notice. In both cases no bridge is set up and no session
    object is written. *)
Theorem connection_refused ws sessionId rt st :
  (activeSessions st !! sessionId = None ->
     Server3.connection ws sessionId rt st
     = (Normal tt,
        set_trace (fun t => t ++ [WsSend ws sessionNotFoundNotice; WsClose ws]) st))
  /\ (forall r s d,
        activeSessions st !! sessionId = Some r -> heap st !! r = Some s ->
        dimensions s = Some d ->
        rt (awaits st) = Rejected \/ rt (S (awaits st)) = Rejected ->
        let st' := snd (Server3.connection ws sessionId rt st) in
        bridges st' = bridges st /\ heap st' = heap st
        /\ activeSessions st' = activeSessions st
        /\ framesSent ws (trace st') = framesSent ws (trace st)
        /\ last (trace st') = Some (WsClose ws)).
Proof.
  split.
  - intros Hr. unfold Server3.connection, activeSessions_get, emit, gets, modify, bind.
    rewrite Hr. simpl. unfold set_trace. simpl. now rewrite <- app_assoc.
  - intros r s d Hr Hs Hd Hrej. cbv zeta. unfold Server3.connection.
    unfold awaitNew, await, emit, activeSessions_get, field, assign, try_catch,
      throw, gets, modify, bind, ret. simpl.
    repeat (first [rewrite Hr | rewrite Hs | rewrite Hd]; simpl).
    assert (Hframes : forall t evs,
              Forall (fun ev => match ev with WsSend _ _ => False | _ => True end) evs ->
              framesSent ws (t ++ evs) = framesSent ws t).
    { intros t evs Hall. unfold framesSent. rewrite omap_app.
      rewrite <- (app_nil_r (omap _ t)) at 2. f_equal.
      induction Hall as [|ev evs Hev _ IH]; [reflexivity |].
      simpl. destruct ev; try contradiction; exact IH. }
    destruct (rt (awaits st)) eqn:E1; simpl.
    + destruct Hrej as [Hrej | Hrej]; [discriminate |]. rewrite Hrej. simpl.
      repeat split; try reflexivity.
      * rewrite <- !app_assoc. apply Hframes. repeat constructor.
      * apply last_snoc.
    + repeat split; try reflexivity.
      * rewrite <- !app_assoc. apply Hframes. repeat constructor.
      * apply last_snoc.
Qed.

Lemma connection_refused_witness :
  Server3.connection 9 "nobody" allResolve bridged
  = (Normal tt,
     set_trace (fun t => t ++ [WsSend 9 sessionNotFoundNotice; WsClose 9]) bridged).
Proof. apply (proj1 (connection_refused 9 "nobody" allResolve bridged)). reflexivity. Defined.

Lemma filter_teardown_app t evs :
  filter isTeardownCall evs = [] ->
  filter isTeardownCall (t ++ evs) = filter isTeardownCall t.
Proof. intros H. now rewrite filter_app, H, app_nil_r. Qed.

(** X10: a creation in server3.js answers 200 exactly when its four
    runtime calls all resolve, and then the session is registered with
    the requested dimensions, or 80 by 24 where the request gives none,
    and no exec or stream yet. Otherwise it answers 500 and registers
    nothing. It never stops or removes a container: one that was created
    before a later call failed is left as it is. *)
Theorem createSession3_outcome sessionId cols rows now rt st :
  (provisioned rt st ->
     fst (Server3.createSession sessionId cols rows now rt st) = Normal (created sessionId)
     /\ activeSessions (snd (Server3.createSession sessionId cols rows now rt st))
        = <[sessionId := S (S (nextObject st))]> (activeSessions st)
     /\ heap (snd (Server3.createSession sessionId cols rows now rt st))
        = <[S (S (nextObject st)) := newSession3 (nextObject st) cols rows now]> (heap st))
  /\ (~ provisioned rt st ->
     fst (Server3.createSession sessionId cols rows now rt st) = Normal createFailed
     /\ activeSessions (snd (Server3.createSession sessionId cols rows now rt st))
        = activeSessions st
     /\ heap (snd (Server3.createSession sessionId cols rows now rt st)) = heap st)
  /\ filter isTeardownCall (trace (snd (Server3.createSession sessionId cols rows now rt st)))
     = filter isTeardownCall (trace st).
Proof.
  unfold provisioned, Server3.createSession. js_unfold. simpl.
  destruct (rt (awaits st)); simpl;
    [destruct (rt (S (awaits st))); simpl;
     [destruct (rt (S (S (awaits st)))); simpl;
      [destruct (rt (S (S (S (awaits st))))); simpl | ] | ] | ];
    (split; [intros (H1 & H2 & H3 & H4); try discriminate; repeat split |]);
    (split; [intros Hn; try (exfalso; apply Hn; repeat split; reflexivity);
             repeat split |]);
    rewrite <- ?app_assoc; apply filter_teardown_app; reflexivity.
Qed.

Lemma createSession3_outcome_witness :
  fst (Server3.createSession "s9" (Some 100%Z) None 5 allResolve initial) = Normal (created "s9")
  /\ activeSessions (snd (Server3.createSession "s9" (Some 100%Z) None 5 allResolve initial))
     = <["s9" := 2]> ∅
  /\ heap (snd (Server3.createSession "s9" (Some 100%Z) None 5 allResolve initial))
     = <[2 := newSession3 0 (Some 100%Z) None 5]> ∅.
Proof.
  apply (proj1 (createSession3_outcome "s9" (Some 100%Z) None 5 allResolve initial)).
  repeat split.
Defined.

(** X11: the dimensions a resize asks for reach the next connection
    only if the session already had an exec. A resize that comes before
    the first connection is answered with a success and lost: the shell
    of the connection that follows is opened with the dimensions of the
    creation. A resize on a session with an exec is kept: the next
    connection opens its shell with the new dimensions. *)
Theorem resize_then_connect sessionId r s d cols rows ws rt st :
  activeSessions st !! sessionId = Some r -> heap st !! r = Some s ->
  dimensions s = Some d ->
  rt (awaits st) = Resolved -> rt (S (awaits st)) = Resolved ->
  rt (S (S (awaits st))) = Resolved ->
  let st' := snd ((Server3.resizeSession sessionId cols rows ;;;
                   Server3.connection ws sessionId) rt st) in
  (exec s = None ->
     trace st' = trace st
       ++ shellOpening (container s) (nextObject st) (S (nextObject st)) d)
  /\ (forall e, exec s = Some e ->
     trace st' = trace st ++ [ExecResize e rows cols]
       ++ shellOpening (container s) (nextObject st) (S (nextObject st))
            {| cols := cols; rows := rows |}).
Proof.
  intros Hr Hs Hd H0 H1 H2. cbv zeta. split.
  - intros He. unfold bind.
    rewrite (resizeSession_no_exec sessionId r s cols rows rt st Hr Hs He).
    destruct (connection3_known ws sessionId r s d rt st Hr Hs Hd H0 H1)
      as (st' & -> & _ & Ht & _). exact Ht.
  - intros e He. unfold bind.
    destruct (resizeSession_resolved sessionId r s e cols rows rt st Hr Hs He H0)
      as (st1 & Hrun & Ht1 & Hh1 & Ha1).
    rewrite Hrun.
    assert (Haw : awaits st1 = S (awaits st) /\ nextObject st1 = nextObject st).
    { revert Hrun. unfold Server3.resizeSession. js_unfold. simpl.
      rewrite Hr. simpl. rewrite Hs. simpl. rewrite He. simpl. rewrite H0. simpl.
      rewrite Hs. simpl. intros E. inversion E. split; reflexivity. }
    destruct Haw as [Haw Hno].
    destruct (connection3_known ws sessionId r
                (with_dimensions (Some {| cols := cols; rows := rows |}) s)
                {| cols := cols; rows := rows |} rt st1)
      as (st' & -> & _ & Ht & _).
    + now rewrite Ha1.
    + rewrite Hh1. apply lookup_insert_eq.
    + reflexivity.
    + now rewrite Haw.
    + now rewrite Haw.
    + simpl. rewrite Ht, Ht1, Hno, <- app_assoc. reflexivity.
Qed.

Lemma resize_then_connect_witness :
  trace (snd ((Server3.resizeSession "a" 120 40 ;;; Server3.connection 7 "a")
                allResolve twoSessions))
  = trace twoSessions ++ shellOpening 0 6 7 {| cols := 80; rows := 24 |}.
Proof.
  refine (proj1 (resize_then_connect "a" 2 (newSession3 0 None None 0)
                   {| cols := 80; rows := 24 |} 120 40 7 allResolve twoSessions
                   _ _ _ _ _ _) _);
    first [reflexivity | vm_compute; reflexivity].
Defined.

Lemma teardownCalls_no_close sessionId c o1 o2 :
  filter tearsDown (teardownCalls sessionId c o1 o2) = [].
Proof. destruct o1, o2; reflexivity. Qed.

(** X12: deleting a session does not retire its bridge. The websocket
    is not closed and the stream is not ended; the handlers of the
    bridge go on with the session object they hold, so a frame that
    arrives afterwards is still written to the stream; and a new
    connection for the deleted id is turned away with the notice. *)
Theorem delete_leaves_bridge ws b s sessionId rt st :
  bridges st !! ws = Some b -> heap st !! bSession b = Some s ->
  activeSessions st !! sessionId = Some (bSession b) ->
  let st1 := snd (Server3.deleteSession sessionId rt st) in
  bridges st1 = bridges st /\ heap st1 = heap st
  /\ activeSessions st1 !! sessionId = None
  /\ filter tearsDown (trace st1) = filter tearsDown (trace st)
  /\ (forall data now rt', ~ isTerminator data ->
        trace (snd (Server3.onMessage ws data now rt' st1))
        = trace st1 ++ [StreamWrite (bStream b) data])
  /\ (forall ws' rt',
        trace (snd (Server3.connection ws' sessionId rt' st1))
        = trace st1 ++ [WsSend ws' sessionNotFoundNotice; WsClose ws']).
Proof.
  intros Hb Hs Hr. cbv zeta.
  destruct (deleteSession3_spec sessionId rt st) as (st1 & Hdel & Hclean).
  destruct (cleanupSession_spec sessionId rt st) as (st1' & Hclean' & Ha & Hh & Hbr & _).
  rewrite Hclean in Hclean'. inversion Hclean'; subst st1'. clear Hclean'.
  pose proof (cleanupSession_trace sessionId (bSession b) s rt st Hr Hs) as Ht.
  rewrite Hclean in Ht. simpl in Ht.
  rewrite Hdel. simpl.
  split; [exact Hbr |]. split; [exact Hh |].
  split; [rewrite Ha; apply lookup_delete_eq |].
  split; [rewrite Ht, filter_app, teardownCalls_no_close; apply app_nil_r |].
  split.
  - intros data now rt' Hd.
    destruct (onMessage3_state ws b s data now rt' st1)
      as (st2 & b2 & s2 & evs & -> & _ & _ & Ht2 & _ & _ & _ & _ & Hother & _).
    + now rewrite Hbr.
    + now rewrite Hh.
    + destruct (Hother Hd) as (_ & -> & _). exact Ht2.
  - intros ws' rt'.
    rewrite (proj1 (connection_refused ws' sessionId rt' st1)); [reflexivity |].
    rewrite Ha. apply lookup_delete_eq.
Qed.

Lemma delete_leaves_bridge_witness :
  bridges (snd (Server3.deleteSession "s1" allResolve bridged)) = bridges bridged
  /\ heap (snd (Server3.deleteSession "s1" allResolve bridged)) = heap bridged
  /\ activeSessions (snd (Server3.deleteSession "s1" allResolve bridged)) !! "s1" = None.
Proof.
  assert (Hb : bridges bridged !! 7
               = Some {| bSessionId := "s1"; bSession := 2; bStream := 4;
                         commandBuffer := EmptyString;
                         wsOpen := true; streamEnded := false |})
    by (vm_compute; reflexivity).
  assert (Hs : heap bridged !! 2
               = Some {| container := 0; exec := Some 3; stream := Some 4;
                         lastActivity := 0;
                         dimensions := Some {| cols := 80; rows := 24 |};
                         lastCommand := None |}) by (vm_compute; reflexivity).
  assert (Hr : activeSessions bridged !! "s1" = Some 2) by (vm_compute; reflexivity).
  destruct (delete_leaves_bridge 7 _ _ "s1" allResolve bridged Hb Hs Hr)
    as (H1 & H2 & H3 & _).
  split; [exact H1 | split; [exact H2 | exact H3]].
Defined.

(** ** The reaper and the shutdown *)

Lemma elem_of_insert_inv {A} (l : list A) i x y :
  x ∈ <[i := y]> l -> x = y \/ x ∈ l.
Proof.
  intros H. apply list_elem_of_lookup in H as [j Hj].
  destruct (decide (i = j)) as [-> | Hne].
  - destruct (decide (j < length l)) as [Hlt | Hge].
    + rewrite list_lookup_insert_eq in Hj by exact Hlt. left. congruence.
    + rewrite list_insert_ge in Hj by lia. right. apply list_elem_of_lookup. eauto.
  - rewrite list_lookup_insert_ne in Hj by exact Hne.
    right. apply list_elem_of_lookup. eauto.
Qed.

(** A session nobody is cleaning up stays as it is when a suspended
    cleanup settles. *)
Lemma settle_spares sessionId r i o rt st :
  activeSessions st !! sessionId = Some r -> ~ suspendedFor sessionId st ->
  activeSessions (snd (settle i o rt st)) !! sessionId = Some r
  /\ ~ suspendedFor sessionId (snd (settle i o rt st))
  /\ heap (snd (settle i o rt st)) = heap st.
Proof.
  intros Hr Hno.
  assert (Hdel : forall sid' (t' : cleanupTask) st',
             pending st !! i = Some t' -> taskId t' = sid' ->
             pending st' = delete i (pending st) ->
             activeSessions st' = delete sid' (activeSessions st) ->
             activeSessions st' !! sessionId = Some r /\ ~ suspendedFor sessionId st').
  { intros sid' t' st' Hi Hid Hp Ha.
    assert (Hne : sessionId <> sid').
    { intros ->. apply Hno. exists t'. split; [| exact Hid].
      apply list_elem_of_lookup. eauto. }
    split.
    - rewrite Ha, lookup_delete_ne by congruence. exact Hr.
    - intros (t & Ht & Htid). apply Hno. exists t. split; [| exact Htid].
      rewrite Hp in Ht. now apply list_elem_of_delete_inv in Ht. }
  js_unfold. simpl.
  destruct (pending st !! i) as [[sid r' | sid r']|] eqn:Hi; simpl; [| | auto].
  - destruct o; simpl.
    + destruct (heap st !! r') as [s|] eqn:Hs; simpl.
      * split; [exact Hr |]. split; [| reflexivity].
        intros (t & Ht & Htid). simpl in Ht.
        apply elem_of_insert_inv in Ht as [-> | Ht].
        -- apply Hno. exists (AwaitStop sid r'). split; [| exact Htid].
           apply list_elem_of_lookup. eauto.
        -- apply Hno. now exists t.
      * destruct (Hdel sid (AwaitStop sid r') (set_activeSessions (delete sid)
                    (set_trace (fun t => t ++ [cleanupError sid])
                       (set_pending (delete i) st))) eq_refl eq_refl eq_refl eq_refl).
        auto.
    + destruct (Hdel sid (AwaitStop sid r') (set_activeSessions (delete sid)
                  (set_trace (fun t => t ++ [cleanupError sid])
                     (set_pending (delete i) st))) eq_refl eq_refl eq_refl eq_refl).
      auto.
  - destruct o; simpl.
    + destruct (Hdel sid (AwaitRemove sid r') (set_activeSessions (delete sid)
                  (set_pending (delete i) st)) eq_refl eq_refl eq_refl eq_refl).
      auto.
    + destruct (Hdel sid (AwaitRemove sid r') (set_activeSessions (delete sid)
                  (set_trace (fun t => t ++ [cleanupError sid])
                     (set_pending (delete i) st))) eq_refl eq_refl eq_refl eq_refl).
      auto.
Qed.

Lemma runSchedule_spares sessionId r sch rt :
  forall st,
    activeSessions st !! sessionId = Some r -> ~ suspendedFor sessionId st ->
    activeSessions (snd (runSchedule sch rt st)) !! sessionId = Some r
    /\ ~ suspendedFor sessionId (snd (runSchedule sch rt st))
    /\ heap (snd (runSchedule sch rt st)) = heap st.
Proof.
  induction sch as [|[i o] sch IH]; intros st Hr Hno; [auto |].
  simpl. unfold bind.
  pose proof (settle_normal i o rt st) as Hn.
  destruct (settle_spares sessionId r i o rt st Hr Hno) as (H1 & H2 & H3).
  destruct (settle i o rt st) as [c st1]. simpl in *. subst c.
  destruct (IH st1 H1 H2) as (H4 & H5 & H6). rewrite H6, H3. auto.
Qed.

Lemma sweep_loop_tasks now rt entries :
  forall st,
    (forall sid r, (sid, r) ∈ entries ->
                   activeSessions st !! sid = Some r /\ is_Some (heap st !! r)) ->
    exists st',
      forEach entries (Server3.reapIfIdle now) rt st = (Normal tt, st')
      /\ heap st' = heap st /\ activeSessions st' = activeSessions st
      /\ (forall t, t ∈ pending st' ->
            t ∈ pending st
            \/ exists sid r s, t = AwaitStop sid r /\ (sid, r) ∈ entries
                               /\ heap st !! r = Some s
                               /\ (Server3.idleThreshold < now - lastActivity s)%Z).
Proof.
  induction entries as [|[sid r] entries IH]; intros st Hall.
  - exists st. simpl. unfold ret. repeat split; auto.
  - destruct (Hall sid r) as [Hr [s Hs]]; [left |].
    rewrite forEach_cons, (reapIfIdle_spec now sid r s rt st Hr Hs).
    destruct (Server3.idleThreshold <? now - lastActivity s)%Z eqn:Hidle.
    + set (st1 := set_pending _ _).
      destruct (IH st1) as (st' & Hrun & Hh & Ha & Hnew).
      { intros sid' r' Hin. apply Hall. now right. }
      exists st'. split; [exact Hrun |]. split; [exact Hh |]. split; [exact Ha |].
      intros t Ht. destruct (Hnew t Ht) as [Hold | (sid' & r' & s' & -> & Hin & Hs' & Hi)].
      * simpl in Hold. apply elem_of_app in Hold as [Hold | Hold]; [now left |].
        apply list_elem_of_singleton in Hold. subst t. right.
        exists sid, r, s. apply Z.ltb_lt in Hidle. repeat split; auto. left.
      * right. exists sid', r', s'. repeat split; auto. now right.
    + destruct (IH st) as (st' & Hrun & Hh & Ha & Hnew).
      { intros sid' r' Hin. apply Hall. now right. }
      exists st'. split; [exact Hrun |]. split; [exact Hh |]. split; [exact Ha |].
      intros t Ht. destruct (Hnew t Ht) as [Hold | (sid' & r' & s' & -> & Hin & Hs' & Hi)];
        [now left |].
      right. exists sid', r', s'. repeat split; auto. now right.
Qed.

(** X13: a sweep of the reaper leaves alone a session that has been
    active within the threshold and that nobody is cleaning up: its entry
    and its object are as before, whatever the cleanups of the other
    sessions do afterwards. *)
Theorem sweep_spares_active now sch rt st sessionId r s :
  reachable3 st ->
  activeSessions st !! sessionId = Some r -> heap st !! r = Some s ->
  (now - lastActivity s <= Server3.idleThreshold)%Z ->
  ~ suspendedFor sessionId st ->
  let st' := snd ((Server3.reaperSweep now ;;; runSchedule sch) rt st) in
  activeSessions st' !! sessionId = Some r
  /\ heap st' !! r = Some s
  /\ ~ suspendedFor sessionId st'.
Proof.
  intros Hre Hr Hs Hrecent Hno. cbv zeta.
  pose proof (reachable3_wf st Hre) as Hwf.
  unfold Server3.reaperSweep, bind, gets.
  destruct (sweep_loop_tasks now rt (map_to_list (activeSessions st)) st)
    as (st1 & Hrun & Hh & Ha & Hnew).
  { intros sid r' Hin. apply elem_of_map_to_list in Hin.
    split; [exact Hin | exact (Hwf sid r' Hin)]. }
  rewrite Hrun.
  assert (Hno1 : ~ suspendedFor sessionId st1).
  { intros (t & Ht & Htid).
    destruct (Hnew t Ht) as [Hold | (sid' & r' & s' & -> & Hin & Hs' & Hi)].
    - apply Hno. now exists t.
    - simpl in Htid. subst sid'. apply elem_of_map_to_list in Hin.
      rewrite Hr in Hin. inversion Hin; subst r'.
      rewrite Hs in Hs'. inversion Hs'; subst s'. lia. }
  destruct (runSchedule_spares sessionId r sch rt st1) as (H1 & H2 & H3);
    [now rewrite Ha | exact Hno1 |].
  split; [exact H1 |]. split; [now rewrite H3, Hh | exact H2].
Qed.

Lemma sweep_spares_active_witness :
  activeSessions
    (snd ((Server3.reaperSweep (30 * 60 * 1000) ;;;
           runSchedule [(0, Rejected); (0, Resolved)]) allResolve twoSessions)) !! "a"
  = Some 2.
Proof.
  refine (proj1 (sweep_spares_active (30 * 60 * 1000) [(0, Rejected); (0, Resolved)]
                   allResolve twoSessions "a" 2 (newSession3 0 None None 0)
                   twoSessions_reachable _ _ _ _)).
  - vm_compute. reflexivity.
  - vm_compute. reflexivity.
  - vm_compute. discriminate.
  - intros (t & Ht & _). vm_compute in Ht. now apply elem_of_nil in Ht.
Defined.







Lemma cleanupLoop_entries rt (entries : list (string * nat)) :
  forall st,
    exists st',
      forEach entries (fun '(sessionId, _) => cleanupSession sessionId) rt st
      = (Normal tt, st')
      /\ (forall k, activeSessions st' !! k
                    = if decide (k ∈ entries.*1) then None else activeSessions st !! k)
      /\ bridges st' = bridges st /\ heap st' = heap st.
Proof.
  induction entries as [|[sid r] entries IH]; intros st.
  - exists st. simpl. unfold ret. split; [reflexivity |]. split; [| auto].
    intros k. destruct (decide (k ∈ [])) as [H | _]; [| reflexivity].
    now apply elem_of_nil in H.
  - rewrite forEach_cons.
    destruct (cleanupSession_spec sid rt st) as (st1 & -> & Ha1 & Hh1 & Hb1 & _).
    destruct (IH st1) as (st' & Hrun & Hk & Hb & Hh).
    exists st'. split; [exact Hrun |]. split; [| split; congruence].
    intros k. rewrite Hk, Ha1. simpl.
    destruct (decide (k ∈ entries.*1)) as [Hin | Hnin].
    + rewrite decide_True by now right. reflexivity.
    + destruct (decide (k = sid)) as [-> | Hne].
      * rewrite decide_True by left. apply lookup_delete_eq.
      * rewrite decide_False.
        -- apply lookup_delete_ne. congruence.
        -- intros H. apply elem_of_cons in H as [H | H]; contradiction.
Qed.

(** X15: the shutdown of server.js. The loop of the SIGTERM handler
    cleans the sessions up one after the other and leaves the registry
    empty, whatever the stop and remove calls do; the websockets and
    their bridges are left as they are. *)
Theorem cleanupLoop_empties_registry rt st :
  fst (Server1.cleanupLoop rt st) = Normal tt
  /\ activeSessions (snd (Server1.cleanupLoop rt st)) = ∅
  /\ bridges (snd (Server1.cleanupLoop rt st)) = bridges st.
Proof.
  unfold Server1.cleanupLoop, emit, gets, modify, bind. simpl.
  destruct (cleanupLoop_entries rt (map_to_list (activeSessions st))
              (set_trace (fun t => t ++ [ConsoleLog "SIGTERM signal received. Cleaning up..."]) st))
    as (st' & Hrun & Hk & Hb & _).
  rewrite Hrun. simpl. split; [reflexivity |]. split; [| exact Hb].
  apply map_empty. intros k. rewrite Hk. simpl.
  destruct (decide (k ∈ (map_to_list (activeSessions st)).*1)) as [_ | Hnin];
    [reflexivity |].
  destruct (activeSessions st !! k) as [r|] eqn:E; [| reflexivity].
  exfalso. apply Hnin. apply list_elem_of_fmap. exists (k, r).
  split; [reflexivity | now apply elem_of_map_to_list].
Qed.

(** ** server.js: timers, status and forwarding *)

Lemma timed_quiet : quiet timed.
Proof.
  split; intros; try assumption.
  intros sid Hsid. apply H. simpl in Hsid.
  destruct (decide (sessionId = sid)) as [-> | Hne].
  - rewrite lookup_delete_eq in Hsid. now destruct Hsid.
  - now rewrite lookup_delete_ne in Hsid by exact Hne.
Qed.

Lemma timed_createSession sessionId now : preserves timed (Server1.createSession sessionId now).
Proof.
  intros rt st H. unfold Server1.createSession. js_unfold. simpl.
  settle_awaits rt; try exact H.
  intros sid Hsid. simpl in *.
  destruct (decide (sessionId = sid)) as [-> | Hne].
  - left. eexists. apply elem_of_app. right. left.
  - rewrite lookup_insert_ne in Hsid by exact Hne.
    destruct (H sid Hsid) as [[due Hdue] | Hs]; [left | now right].
    exists due. apply elem_of_app. now left.
Qed.

Lemma timed_startCleanup sessionId : preserves timed (startCleanup sessionId).
Proof.
  intros rt st H.
  destruct (startCleanup_spec sessionId rt st) as (st' & -> & Ht & Hp & Ha & _). simpl.
  intros sid Hsid. destruct (H sid (Ha sid Hsid)) as [[due Hdue] | (t & Hin & Htid)].
  - left. exists due. now rewrite Ht.
  - right. exists t. split; [now apply Hp | exact Htid].
Qed.

Lemma timed_settle i o : preserves timed (settle i o).
Proof.
  intros rt st H sid Hsid.
  assert (Hshrink : stable (fun st' => forall k, is_Some (activeSessions st' !! k) ->
                                                 is_Some (activeSessions st !! k))).
  { split; try (intros ? ? Hst; exact Hst); try (intros ? ? ? Hst; exact Hst).
    intros sid' st' Hst k Hk. apply Hst. simpl in Hk.
    destruct (decide (sid' = k)) as [-> | Hne].
    - rewrite lookup_delete_eq in Hk. now destruct Hk.
    - now rewrite lookup_delete_ne in Hk by exact Hne. }
  pose proof (pres_settle _ i o Hshrink rt st (fun k Hk => Hk) sid Hsid) as Hbefore.
  destruct (H sid Hbefore) as [[due Hdue] | Hs].
  - left. exists due. now rewrite (keeps_timers_eq _ rt st (kt_settle i o)).
  - destruct (settle_underCleanup sid i o rt st (or_intror Hs)) as [Hnone | Hs'];
      [| now right].
    rewrite Hnone in Hsid. now destruct Hsid.
Qed.

Lemma timed_fireTimer i now : preserves timed (Server1.fireTimer i now).
Proof.
  intros rt st H.
  destruct (timers st !! i) as [[due sid]|] eqn:Hi;
    [| unfold Server1.fireTimer, bind, gets; now rewrite Hi].
  destruct (decide (due <= now)%Z) as [Hle | Hgt];
    [| rewrite (fireTimer_early i now rt st due sid Hi) by lia; exact H].
  rewrite (fireTimer_due i now rt st due sid Hi Hle).
  unfold Server1.onTimeout, activeSessions_has, bind, gets. simpl.
  assert (Hkeep : forall sid',
            sid' <> sid -> is_Some (activeSessions st !! sid') ->
            (exists due', (due', sid') ∈ delete i (timers st)) \/ suspendedFor sid' st).
  { intros sid' Hne Hsid'. destruct (H sid' Hsid') as [[due' Hdue'] | Hs]; [left | now right].
    exists due'. apply (elem_of_delete_ne _ _ _ (due, sid)); [exact Hdue' | exact Hi |].
    congruence. }
  destruct (activeSessions st !! sid) as [r|] eqn:Hr.
  - rewrite bool_decide_eq_true_2 by eauto.
    destruct (startCleanup_spec sid rt (set_timers (delete i) st))
      as (st' & -> & Ht & Hp & Ha & Hown). simpl.
    intros sid' Hsid'. destruct (decide (sid' = sid)) as [-> | Hne].
    + right. now apply Hown.
    + destruct (Hkeep sid' Hne (Ha sid' Hsid')) as [[due' Hdue'] | (t & Hin & Htid)].
      * left. exists due'. now rewrite Ht.
      * right. exists t. split; [now apply Hp | exact Htid].
  - rewrite bool_decide_eq_false_2 by (intros [x Hx]; discriminate).
    intros sid' Hsid'. simpl in Hsid'.
    destruct (decide (sid' = sid)) as [-> | Hne].
    + rewrite Hr in Hsid'. now destruct Hsid'.
    + exact (Hkeep sid' Hne Hsid').
Qed.

Lemma timed_handle ev : preserves timed (Server1.handle ev).
Proof.
  pose proof (q_handle1 _ ev timed_quiet) as Hq.
  destruct ev as [sid now | sid | sid | ws sid | ws data now | ws chunk | ws | ws
                 | now | i o | i now]; try exact Hq; simpl.
  - apply pres_bind; [apply timed_createSession | intros; apply pres_ret].
  - unfold Server1.reaperSweep. cbv zeta.
    apply pres_bind; [apply pres_gets | intros entries].
    apply pres_forEach. intros [sid r].
    apply pres_try_catch; [| apply pres_ret].
    apply pres_bind; [apply pres_field | intros la].
    destruct (_ <? _)%Z; [| apply pres_ret].
    apply pres_bind; [apply (q_emit _ timed_quiet) | intros _].
    apply timed_startCleanup.
  - apply timed_settle.
  - apply timed_fireTimer.
Qed.

(** X16: in every state server.js reaches, each registered session has
    a timer armed for it or a cleanup suspended at an await of its stop
    or remove call: no request, event, sweep, expiry or settled call
    leaves a session in the registry with nothing on the way to end
    it. *)
Theorem registered_sessions_are_timed st sessionId :
  reachable1 st -> is_Some (activeSessions st !! sessionId) ->
  (exists due, (due, sessionId) ∈ timers st) \/ suspendedFor sessionId st.
Proof.
  intros (evs & rt & ->).
  apply (run_preserves timed Server1.handle timed_handle evs rt initial).
  intros sid Hsid. simpl in Hsid. rewrite lookup_empty in Hsid. now destruct Hsid.
Qed.

Lemma timerExpired_reachable : reachable1 timerExpired.
Proof.
  exists [Server1.Create "s1" 0; Server1.Connect 7 "s1";
          Server1.Message 7 "ls" (29 * 60 * 1000);
          Server1.Timer 0 (30 * 60 * 1000)], allResolve.
  vm_compute. reflexivity.
Qed.

(** After the expiry of its timer the session of [busySession] is still
    registered, with no timer and its cleanup suspended. *)
Lemma registered_sessions_are_timed_witness :
  (exists due, (due, "s1") ∈ timers timerExpired) \/ suspendedFor "s1" timerExpired.
Proof.
  apply (registered_sessions_are_timed timerExpired "s1" timerExpired_reachable).
  vm_compute. eauto.
Defined.

(** X17: a session deleted by request keeps its timer, and when the
    timer expires it finds the session gone and does nothing: no stop or
    remove is called a second time. *)
Theorem timer_after_delete i due sessionId now rt rt' st :
  timers st !! i = Some (due, sessionId) -> (due <= now)%Z ->
  let st1 := snd (Server1.deleteSession sessionId rt st) in
  timers st1 !! i = Some (due, sessionId)
  /\ Server1.fireTimer i now rt' st1 = (Normal tt, set_timers (delete i) st1).
Proof.
  intros Hi Hle. cbv zeta.
  pose proof (keeps_timers_eq _ rt st (kt_deleteSession sessionId)) as Ht.
  pose proof (deleteSession1_removes sessionId rt st) as Hnone.
  split; [now rewrite Ht |].
  unfold Server1.fireTimer, Server1.onTimeout, activeSessions_has, bind, gets, modify, ret.
  rewrite Ht, Hi. apply Z.leb_le in Hle. rewrite Hle. simpl. rewrite Hnone.
  rewrite bool_decide_eq_false_2 by (intros [x Hx]; discriminate). reflexivity.
Qed.

Lemma timer_after_delete_witness :
  Server1.fireTimer 0 (30 * 60 * 1000) allResolve
    (snd (Server1.deleteSession "s1" allResolve busySession))
  = (Normal tt,
     set_timers (delete 0) (snd (Server1.deleteSession "s1" allResolve busySession))).
Proof.
  refine (proj2 (timer_after_delete 0 (30 * 60 * 1000) "s1" (30 * 60 * 1000)
                   allResolve allResolve busySession _ _)).
  - vm_compute. reflexivity.
  - lia.
Defined.

Lemma trimStart_empty_blank s : trimStart s = EmptyString -> blank s = true.
Proof.
  induction s as [|c s IH]; simpl; [reflexivity |].
  destruct (isWhiteSpace c); [auto | discriminate].
Qed.

Lemma trimStart_head s c t : trimStart s = String c t -> isWhiteSpace c = false.
Proof.
  induction s as [|d s IH]; simpl; [discriminate |].
  destruct (isWhiteSpace d) eqn:E; [exact IH |].
  intros H. inversion H; subst. exact E.
Qed.

Lemma trim_empty_blank s : trim s = EmptyString <-> blank s = true.
Proof.
  unfold trim. split.
  - intros H. apply trimEnd_empty_blank in H.
    destruct (trimStart s) as [|c t] eqn:E; [now apply trimStart_empty_blank |].
    apply trimStart_head in E. simpl in H. rewrite E in H. discriminate.
  - intros H. now rewrite (trimStart_blank s H).
Qed.

Lemma onMessage1_state ws b s data now rt st :
  bridges st !! ws = Some b -> heap st !! bSession b = Some s ->
  exists st',
    Server1.onMessage ws data now rt st = (Normal tt, st')
    /\ bridges st' = bridges st
    /\ heap st' = <[bSession b := with_lastActivity now s]> (heap st)
    /\ activeSessions st' = activeSessions st
    /\ trace st' = trace st ++ (if blank data then []
                                else [StreamWrite (bStream b) (data +:+ chr LF)]).
Proof.
  intros Hb Hs. unfold Server1.onMessage. js_unfold. simpl.
  rewrite Hb. simpl. rewrite Hs. simpl.
  destruct (blank data) eqn:E.
  - apply trim_empty_blank in E. rewrite E. simpl.
    eexists. split; [reflexivity |]. simpl. now rewrite app_nil_r.
  - destruct (trim data) eqn:Et.
    + apply trim_empty_blank in Et. congruence.
    + simpl. eexists. split; [reflexivity |]. repeat split.
Qed.

(** X18: server.js forwards each frame as a line of its own: the frames
    that are not all white space are written to the stream in order,
    each followed by a newline, and the others are dropped. *)
Theorem server1_forwards_lines ws frames rt b :
  forall s st,
    bridges st !! ws = Some b -> heap st !! bSession b = Some s ->
    trace (snd (feed Server1.onMessage ws frames rt st))
    = trace st ++ map (fun d => StreamWrite (bStream b) (d +:+ chr LF))
                      (filter (fun d => blank d = false) frames.*1).
Proof.
  unfold feed. induction frames as [|[d t] frames IH]; intros s st Hb Hs.
  - simpl. now rewrite app_nil_r.
  - rewrite forEach_cons. simpl.
    destruct (onMessage1_state ws b s d t rt st Hb Hs) as (st1 & -> & Hb1 & Hh1 & _ & Ht1).
    rewrite (IH (with_lastActivity t s) st1);
      [| now rewrite Hb1 | rewrite Hh1; apply lookup_insert_eq].
    rewrite Ht1, filter_cons. destruct (blank d) eqn:E.
    + rewrite decide_False by discriminate. now rewrite app_nil_r.
    + rewrite decide_True by reflexivity. simpl. now rewrite <- app_assoc.
Qed.

Lemma server1_forwards_lines_witness :
  trace (snd (feed Server1.onMessage 7 [("ls", 1%Z); ("  ", 2%Z); ("pwd", 3%Z)]
                allResolve busySession))
  = trace busySession ++ [StreamWrite 2 ("ls" +:+ chr LF); StreamWrite 2 ("pwd" +:+ chr LF)].
Proof.
  refine (server1_forwards_lines 7 [("ls", 1%Z); ("  ", 2%Z); ("pwd", 3%Z)] allResolve
            {| bSessionId := "s1"; bSession := 3; bStream := 2;
               commandBuffer := EmptyString; wsOpen := true; streamEnded := false |}
            (newSession1 0 1 2 (29 * 60 * 1000)) busySession _ _);
    vm_compute; reflexivity.
Defined.

Lemma createSession1_success sessionId now rt st :
  provisioned rt st ->
  exists st',
    Server1.createSession sessionId now rt st = (Normal (created sessionId), st')
    /\ activeSessions st' = <[sessionId := S (S (S (nextObject st)))]> (activeSessions st)
    /\ heap st' = <[S (S (S (nextObject st)))
                    := newSession1 (nextObject st) (S (nextObject st))
                         (S (S (nextObject st))) now]> (heap st)
    /\ bridges st' = bridges st.
Proof.
  intros (H1 & H2 & H3 & H4). unfold Server1.createSession. js_unfold. simpl.
  rewrite H1. simpl. rewrite H2. simpl. rewrite H3. simpl. rewrite H4. simpl.
  eexists. repeat split.
Qed.

Lemma connection1_known ws sessionId r s x rt st :
  activeSessions st !! sessionId = Some r -> heap st !! r = Some s ->
  stream s = Some x ->
  exists st',
    Server1.connection ws sessionId rt st = (Normal tt, st')
    /\ bridges st' !! ws
       = Some {| bSessionId := sessionId; bSession := r; bStream := x;
                 commandBuffer := EmptyString; wsOpen := true; streamEnded := false |}
    /\ heap st' = heap st /\ activeSessions st' = activeSessions st.
Proof.
  intros Hr Hs Hx. unfold Server1.connection. js_unfold. simpl.
  rewrite Hr. simpl. rewrite Hs. simpl. rewrite Hx. simpl.
  eexists. split; [reflexivity |]. simpl. rewrite lookup_insert_eq. repeat split.
Qed.

(** X19: what the status query of server.js tells after the other
    operations. A session just created reports its creation time as
    [lastActivity]; after a frame on a websocket connected to it, the
    time of the frame; after its deletion the query is answered 404. *)
Theorem status_follows_session sessionId now rt st :
  provisioned rt st ->
  let st1 := snd (Server1.createSession sessionId now rt st) in
  (forall rt1, Server1.getStatus sessionId rt1 st1 = (Normal (statusOf sessionId now), st1))
  /\ (forall ws data t rt2 rt3,
        fst (Server1.getStatus sessionId rt3
               (snd ((Server1.connection ws sessionId ;;; Server1.onMessage ws data t) rt2 st1)))
        = Normal (statusOf sessionId t))
  /\ (forall rt4 rt5,
        fst (Server1.getStatus sessionId rt5 (snd (Server1.deleteSession sessionId rt4 st1)))
        = Normal notFound).
Proof.
  intros Hp. cbv zeta.
  destruct (createSession1_success sessionId now rt st Hp) as (st1 & -> & Ha & Hh & _).
  simpl.
  assert (Hr : activeSessions st1 !! sessionId = Some (S (S (S (nextObject st)))))
    by (rewrite Ha; apply lookup_insert_eq).
  assert (Hs : heap st1 !! S (S (S (nextObject st)))
               = Some (newSession1 (nextObject st) (S (nextObject st))
                         (S (S (nextObject st))) now))
    by (rewrite Hh; apply lookup_insert_eq).
  split; [| split].
  - intros rt1. apply (getStatus_known sessionId _ _ rt1 st1 Hr Hs).
  - intros ws data t rt2 rt3. unfold bind.
    destruct (connection1_known ws sessionId _ _ _ rt2 st1 Hr Hs eq_refl)
      as (st2 & E2 & Hb2 & Hh2 & Ha2).
    rewrite E2. rewrite <- Hh2 in Hs.
    destruct (onMessage1_state ws _ _ data t rt2 st2 Hb2 Hs)
      as (st3 & E3 & _ & Hh3 & Ha3 & _).
    rewrite E3. simpl.
    rewrite (getStatus_known sessionId (S (S (S (nextObject st))))
               (with_lastActivity t (newSession1 (nextObject st) (S (nextObject st))
                                       (S (S (nextObject st))) now)) rt3 st3);
      [reflexivity | congruence | rewrite Hh3; apply lookup_insert_eq].
  - intros rt4 rt5.
    pose proof (deleteSession1_removes sessionId rt4 st1) as Hnone.
    unfold Server1.getStatus, activeSessions_get, respond, gets, bind, ret.
    now rewrite Hnone.
Qed.

Lemma status_follows_session_witness :
  provisioned allResolve initial
  /\ Server1.getStatus "s1" allResolve (snd (Server1.createSession "s1" 42 allResolve initial))
     = (Normal (statusOf "s1" 42), snd (Server1.createSession "s1" 42 allResolve initial)).
Proof.
  assert (Hp : provisioned allResolve initial) by (repeat split).
  split; [exact Hp |].
  exact (proj1 (status_follows_session "s1" 42 allResolve initial Hp) allResolve).
Defined.

(** ** server2.js: forwarding as it is *)

Lemma onMessage2_state ws b s data now rt st :
  bridges st !! ws = Some b -> heap st !! bSession b = Some s ->
  Server2.onMessage ws data now rt st
  = (Normal tt,
     set_trace (fun t => t ++ [StreamWrite (bStream b) data])
       (set_heap (insert (bSession b) (with_lastActivity now s)) st)).
Proof.
  intros Hb Hs. unfold Server2.onMessage. js_unfold. simpl.
  rewrite Hb. simpl. now rewrite Hs.
Qed.

(** X20: server2.js has no filter: every frame is written to the
    stream as it is and in order, a deny-list command and its terminator
    included, and the session has the time of the last frame as
    [lastActivity]. *)
Theorem server2_forwards_verbatim ws frames rt b :
  forall s st,
    bridges st !! ws = Some b -> heap st !! bSession b = Some s ->
    trace (snd (feed Server2.onMessage ws frames rt st))
    = trace st ++ map (StreamWrite (bStream b)) frames.*1
    /\ (lastActivity <$> heap (snd (feed Server2.onMessage ws frames rt st)) !! bSession b)
       = Some (default (lastActivity s) (last frames.*2)).
Proof.
  unfold feed. induction frames as [|[d t] frames IH]; intros s st Hb Hs.
  - simpl. rewrite app_nil_r, Hs. split; reflexivity.
  - rewrite forEach_cons. simpl. rewrite (onMessage2_state ws b s d t rt st Hb Hs).
    set (st1 := set_trace _ _).
    destruct (IH (with_lastActivity t s) st1) as [Ht Hla];
      [exact Hb | apply lookup_insert_eq |].
    rewrite Ht, Hla. simpl. rewrite <- app_assoc. split; [reflexivity |].
    f_equal. apply last_cons_default.
Qed.

(** On the connected session of [bridged2], [reboot] and its carriage
    return go to the shell as typed. *)
Lemma server2_forwards_verbatim_witness :
  trace (snd (feed Server2.onMessage 7 [("reboot", 5%Z); (chr CR, 6%Z)] allResolve bridged2))
  = trace bridged2 ++ [StreamWrite 3 "reboot"; StreamWrite 3 (chr CR)]
  /\ (lastActivity <$> heap (snd (feed Server2.onMessage 7 [("reboot", 5%Z); (chr CR, 6%Z)]
                                    allResolve bridged2)) !! 1)
     = Some 6%Z.
Proof.
  exact (server2_forwards_verbatim 7 [("reboot", 5%Z); (chr CR, 6%Z)] allResolve
           {| bSessionId := "s1"; bSession := 1; bStream := 3; commandBuffer := EmptyString;
              wsOpen := true; streamEnded := false |}
           {| container := 0; exec := Some 2; stream := Some 3; lastActivity := 0;
              dimensions := Some {| cols := 80; rows := 24 |}; lastCommand := None |}
           bridged2 eq_refl eq_refl).
Defined.

(** ** server3.js: the frames of a chunk *)

Lemma frameCount_done chunk k : length chunk <= k * 1024 -> frameCount chunk - k = 0.
Proof.
  intros H. unfold frameCount.
  assert ((length chunk + 1023) / 1024 < S k); [| lia].
  apply Nat.Div0.div_lt_upper_bound. lia.
Qed.

Lemma frameCount_more chunk k :
  k * 1024 < length chunk -> frameCount chunk - k = S (frameCount chunk - S k).
Proof.
  intros H. unfold frameCount.
  assert (S k <= (length chunk + 1023) / 1024); [| lia].
  apply Nat.div_le_lower_bound; lia.
Qed.

Lemma slice_frameOf chunk k :
  Server3.slice (k * 1024) (Nat.min (k * 1024 + Server3.maxChunkSize) (length chunk)) chunk
  = frameOf chunk k.
Proof.
  unfold Server3.slice, Server3.maxChunkSize, frameOf.
  destruct (decide (k * 1024 + 1024 <= length chunk)) as [Hle | Hgt].
  - rewrite Nat.min_l by exact Hle. f_equal. lia.
  - rewrite Nat.min_r by lia.
    rewrite !take_ge; [reflexivity | |]; rewrite length_drop; lia.
Qed.

Lemma sendSubChunks_frames ws chunk rt :
  forall fuel k st,
    length chunk - k * 1024 <= fuel ->
    Server3.sendSubChunks fuel ws chunk (k * 1024) rt st
    = (Normal tt,
       set_trace (fun t => t ++ map (fun j => WsSend ws (Binary (frameOf chunk j)))
                                  (seq k (frameCount chunk - k))) st).
Proof.
  induction fuel as [|fuel IH]; intros k st Hfuel.
  - simpl. unfold ret. rewrite frameCount_done by lia. simpl. now rewrite set_trace_nil.
  - simpl. destruct (k * 1024 <? length chunk) eqn:Hk.
    + apply Nat.ltb_lt in Hk. rewrite slice_frameOf.
      unfold bind, emit, modify.
      replace (k * 1024 + Server3.maxChunkSize) with (S k * 1024)
        by (unfold Server3.maxChunkSize; lia).
      rewrite IH by lia. rewrite set_trace_set_trace.
      rewrite (frameCount_more chunk k Hk). simpl.
      apply f_equal. apply set_trace_ext. now rewrite <- app_assoc.
    + apply Nat.ltb_ge in Hk. unfold ret.
      rewrite frameCount_done by lia. simpl. now rewrite set_trace_nil.
Qed.

(** X21: the frames of a chunk in server3.js, in closed form. A chunk
    that is not empty goes out on the open websocket as the stretches of
    1024 bytes it has, in order: frame [j] is bytes [1024 j] to
    [1024 (j+1)] of the chunk, and the last frame is what is left. An
    empty chunk goes out as one empty frame. *)
Theorem stream_chunk_frames ws b chunk rt st :
  bridges st !! ws = Some b -> wsOpen b = true ->
  (chunk <> [] ->
   Server3.onStreamData ws chunk rt st
   = (Normal tt,
      set_trace (fun t => t ++ map (fun j => WsSend ws (Binary (frameOf chunk j)))
                                 (seq 0 (frameCount chunk))) st))
  /\ (chunk = [] ->
      Server3.onStreamData ws chunk rt st
      = (Normal tt, set_trace (fun t => t ++ [WsSend ws (Binary [])]) st)).
Proof.
  intros Hb Hopen.
  unfold Server3.onStreamData, bind, gets. rewrite Hb. simpl. rewrite Hopen.
  unfold try_catch. split.
  - intros Hne.
    destruct (Server3.maxChunkSize <? length chunk) eqn:Hbig.
    + change 0 with (0 * 1024) at 1.
      rewrite (sendSubChunks_frames ws chunk rt (length chunk) 0 st) by lia.
      now rewrite Nat.sub_0_r.
    + apply Nat.ltb_ge in Hbig. unfold Server3.maxChunkSize in Hbig.
      assert (Hpos : 0 < length chunk) by (destruct chunk; [congruence | simpl; lia]).
      assert (Hone : frameCount chunk = 1).
      { unfold frameCount. symmetry.
        apply (Nat.div_unique _ 1024 1 (length chunk - 1)); lia. }
      rewrite Hone. unfold emit, modify, frameOf. cbn [seq map].
      rewrite Nat.mul_0_l, drop_0, take_ge by lia. reflexivity.
  - intros ->. reflexivity.
Qed.

(** The burst of 5000 bytes goes out as the stretches it has: four of
    1024 bytes and one of 904. *)
Lemma stream_chunk_frames_witness :
  Server3.onStreamData 7 burst allResolve bridged
  = (Normal tt,
     set_trace (fun t => t ++ map (fun j => WsSend 7 (Binary (frameOf burst j)))
                                (seq 0 (frameCount burst))) bridged).
Proof.
  refine (proj1 (stream_chunk_frames 7
                   {| bSessionId := "s1"; bSession := 2; bStream := 4;
                      commandBuffer := EmptyString; wsOpen := true; streamEnded := false |}
                   burst allResolve bridged _ eq_refl) _).
  - vm_compute. reflexivity.
  - intros H. vm_compute in H. discriminate.
Defined.

(** ** server.js: the reaper and a failed creation *)

Lemma reaper1_loop now rt entries :
  forall st,
    (forall sid r, (sid, r) ∈ entries -> activeSessions st !! sid = Some r) ->
    exists st',
      forEach entries (fun '(sessionId, session) =>
        try_catch
          (lastActivity <- field session lastActivity ;;
           if (30 * 60 * 1000 <? now - lastActivity)%Z
           then emit (ConsoleLog ("Cleaning up inactive session: " +:+ sessionId)) ;;;
                startCleanup sessionId
           else ret tt)
          (ret tt)) rt st = (Normal tt, st')
      /\ heap st' = heap st /\ activeSessions st' = activeSessions st
      /\ (forall t, t ∈ pending st -> t ∈ pending st')
      /\ (forall e, e ∈ trace st -> e ∈ trace st')
      /\ (forall t, t ∈ pending st' ->
            t ∈ pending st
            \/ exists sid r s, t = AwaitStop sid r /\ (sid, r) ∈ entries
                               /\ heap st !! r = Some s
                               /\ (30 * 60 * 1000 < now - lastActivity s)%Z)
      /\ (forall sid r s, (sid, r) ∈ entries -> heap st !! r = Some s ->
            (30 * 60 * 1000 < now - lastActivity s)%Z ->
            suspendedFor sid st' /\ reaperNotice sid ∈ trace st').
Proof.
  induction entries as [|[sid r] entries IH]; intros st Hall.
  - exists st. simpl. unfold ret. split; [reflexivity |].
    split; [reflexivity |]. split; [reflexivity |]. split; [auto |]. split; [auto |].
    split; [auto |]. intros sid r s Hin. now apply elem_of_nil in Hin.
  - pose proof (Hall sid r ltac:(left)) as Hr.
    rewrite forEach_cons. unfold try_catch at 1, bind at 1, field at 1.
    destruct (heap st !! r) as [s|] eqn:Hs.
    + destruct (30 * 60 * 1000 <? now - lastActivity s)%Z eqn:Hidle.
      * unfold bind at 1, emit at 1, modify at 1.
        match goal with
        | |- context [startCleanup sid rt ?x] =>
            rewrite (startCleanup_known sid r s rt x Hr Hs)
        end.
        set (st1 := set_pending _ _).
        destruct (IH st1) as (st' & Hrun & Hh & Ha & Hp & Ht & Hnew & Hidl).
        { intros sid' r' Hin. apply Hall. now right. }
        apply Z.ltb_lt in Hidle.
        exists st'. split; [exact Hrun |]. split; [exact Hh |]. split; [exact Ha |].
        split; [| split; [| split]].
        -- intros t Hin. apply Hp. simpl. apply elem_of_app. now left.
        -- intros e Hin. apply Ht. simpl. apply elem_of_app. left.
           apply elem_of_app. now left.
        -- intros t Hin.
           destruct (Hnew t Hin) as [Hold | (sid' & r' & s' & -> & Hin' & Hs' & Hi)].
           ++ simpl in Hold. apply elem_of_app in Hold as [Hold | Hold]; [now left |].
              apply list_elem_of_singleton in Hold. subst t. right.
              exists sid, r, s. split; [reflexivity |]. split; [left |]. auto.
           ++ right. exists sid', r', s'. split; [reflexivity |].
              split; [now right |]. auto.
        -- intros sid' r' s' Hin Hs' Hi. apply elem_of_cons in Hin as [Heq | Hin].
           ++ inversion Heq; subst sid' r'. split.
              ** exists (AwaitStop sid r). split; [| reflexivity].
                 apply Hp. simpl. apply elem_of_app. right. left.
              ** apply Ht. simpl. apply elem_of_app. left.
                 apply elem_of_app. right. left.
           ++ exact (Hidl sid' r' s' Hin Hs' Hi).
      * unfold ret at 1.
        destruct (IH st) as (st' & Hrun & Hh & Ha & Hp & Ht & Hnew & Hidl).
        { intros sid' r' Hin. apply Hall. now right. }
        apply Z.ltb_ge in Hidle.
        exists st'. split; [exact Hrun |]. split; [exact Hh |]. split; [exact Ha |].
        split; [exact Hp |]. split; [exact Ht |]. split.
        -- intros t Hin.
           destruct (Hnew t Hin) as [Hold | (sid' & r' & s' & -> & Hin' & Hs' & Hi)];
             [now left |].
           right. exists sid', r', s'. split; [reflexivity |]. split; [now right |]. auto.
        -- intros sid' r' s' Hin Hs' Hi. apply elem_of_cons in Hin as [Heq | Hin].
           ++ inversion Heq; subst sid' r'. rewrite Hs in Hs'. inversion Hs'; subst s'. lia.
           ++ exact (Hidl sid' r' s' Hin Hs' Hi).
    + unfold ret at 1.
      destruct (IH st) as (st' & Hrun & Hh & Ha & Hp & Ht & Hnew & Hidl).
      { intros sid' r' Hin. apply Hall. now right. }
      exists st'. split; [exact Hrun |]. split; [exact Hh |]. split; [exact Ha |].
      split; [exact Hp |]. split; [exact Ht |]. split.
      * intros t Hin.
        destruct (Hnew t Hin) as [Hold | (sid' & r' & s' & -> & Hin' & Hs' & Hi)];
          [now left |].
        right. exists sid', r', s'. split; [reflexivity |]. split; [now right |]. auto.
      * intros sid' r' s' Hin Hs' Hi. apply elem_of_cons in Hin as [Heq | Hin].
        -- inversion Heq; subst sid' r'. rewrite Hs in Hs'. discriminate.
        -- exact (Hidl sid' r' s' Hin Hs' Hi).
Qed.

(** X22: one sweep of the reaper of server.js at time [now]. The
    registry and the session objects are as before when the callback
    returns. For a session whose last activity is more than thirty
    minutes back, the sweep has logged the notice and left a cleanup
    suspended at its stop call; for a session active within the thirty
    minutes, the bound included, that nobody was cleaning up, no cleanup
    is started. *)
Theorem reaper1_sweep now rt st sessionId r s :
  activeSessions st !! sessionId = Some r -> heap st !! r = Some s ->
  let st' := snd (Server1.reaperSweep now rt st) in
  fst (Server1.reaperSweep now rt st) = Normal tt
  /\ activeSessions st' = activeSessions st /\ heap st' = heap st
  /\ ((30 * 60 * 1000 < now - lastActivity s)%Z ->
      suspendedFor sessionId st' /\ reaperNotice sessionId ∈ trace st')
  /\ ((now - lastActivity s <= 30 * 60 * 1000)%Z -> ~ suspendedFor sessionId st ->
      ~ suspendedFor sessionId st').
Proof.
  intros Hr Hs. cbv zeta.
  destruct (reaper1_loop now rt (map_to_list (activeSessions st)) st)
    as (st' & Hrun & Hh & Ha & Hp & Ht & Hnew & Hidl).
  { intros sid r' Hin. now apply elem_of_map_to_list in Hin. }
  assert (E : Server1.reaperSweep now rt st = (Normal tt, st')) by exact Hrun.
  rewrite E. simpl.
  split; [reflexivity |]. split; [exact Ha |]. split; [exact Hh |]. split.
  - intros Hi. apply (Hidl sessionId r s); [| exact Hs | exact Hi].
    now apply elem_of_map_to_list.
  - intros Hrecent Hno (t & Hin & Htid).
    destruct (Hnew t Hin) as [Hold | (sid' & r' & s' & -> & Hin' & Hs' & Hi)].
    + apply Hno. now exists t.
    + simpl in Htid. subst sid'. apply elem_of_map_to_list in Hin'.
      rewrite Hr in Hin'. inversion Hin'; subst r'.
      rewrite Hs in Hs'. inversion Hs'; subst s'. lia.
Qed.

(** The session of [busySession], created at time 0 and used at minute
    29, is past the threshold at minute 60 and not yet at minute 59. *)
Lemma reaper1_sweep_witness :
  suspendedFor "s1" (snd (Server1.reaperSweep (60 * 60 * 1000) allResolve busySession))
  /\ ~ suspendedFor "s1" (snd (Server1.reaperSweep (59 * 60 * 1000) allResolve busySession)).
Proof.
  split.
  - refine (proj1 (proj1 (proj2 (proj2 (proj2
             (reaper1_sweep (60 * 60 * 1000) allResolve busySession "s1" 3
                (with_lastActivity (29 * 60 * 1000) (newSession1 0 1 2 0)) _ _)))) _)).
    + vm_compute. reflexivity.
    + vm_compute. reflexivity.
    + vm_compute. reflexivity.
  - refine (proj2 (proj2 (proj2 (proj2
             (reaper1_sweep (59 * 60 * 1000) allResolve busySession "s1" 3
                (with_lastActivity (29 * 60 * 1000) (newSession1 0 1 2 0)) _ _)))) _ _).
    + vm_compute. reflexivity.
    + vm_compute. reflexivity.
    + vm_compute. discriminate.
    + intros (t & Hin & _). vm_compute in Hin. now apply elem_of_nil in Hin.
Defined.

(** X23: a creation in server.js answers 200 exactly when its four
    runtime calls all resolve, and then the session is registered with
    its exec and stream and a timer is armed for thirty minutes later.
    Otherwise it answers 500, registers nothing and arms no timer. It
    never stops or removes a container: one that was created before a
    later call failed is left as it is. *)
Theorem createSession1_outcome sessionId now rt st :
  (provisioned rt st ->
     fst (Server1.createSession sessionId now rt st) = Normal (created sessionId)
     /\ activeSessions (snd (Server1.createSession sessionId now rt st))
        = <[sessionId := S (S (S (nextObject st)))]> (activeSessions st)
     /\ timers (snd (Server1.createSession sessionId now rt st))
        = timers st ++ [((now + 30 * 60 * 1000)%Z, sessionId)])
  /\ (~ provisioned rt st ->
     fst (Server1.createSession sessionId now rt st) = Normal createFailed
     /\ activeSessions (snd (Server1.createSession sessionId now rt st))
        = activeSessions st
     /\ heap (snd (Server1.createSession sessionId now rt st)) = heap st
     /\ timers (snd (Server1.createSession sessionId now rt st)) = timers st)
  /\ filter isTeardownCall (trace (snd (Server1.createSession sessionId now rt st)))
     = filter isTeardownCall (trace st).
Proof.
  unfold provisioned, Server1.createSession. js_unfold. simpl.
  destruct (rt (awaits st)); simpl;
    [destruct (rt (S (awaits st))); simpl;
     [destruct (rt (S (S (awaits st)))); simpl;
      [destruct (rt (S (S (S (awaits st))))); simpl | ] | ] | ];
    (split; [intros (H1 & H2 & H3 & H4); try discriminate; repeat split |]);
    (split; [intros Hn; try (exfalso; apply Hn; repeat split; reflexivity);
             repeat split |]);
    rewrite <- ?app_assoc; apply filter_teardown_app; reflexivity.
Qed.

(** The second runtime call of a creation rejects: the answer is 500
    and no timer is armed. *)
Lemma createSession1_outcome_witness :
  fst (Server1.createSession "s9" 5
         (fun n => if decide (n = 1) then Rejected else Resolved) initial)
  = Normal createFailed
  /\ timers (snd (Server1.createSession "s9" 5
                    (fun n => if decide (n = 1) then Rejected else Resolved) initial))
     = [].
Proof.
  destruct (proj1 (proj2 (createSession1_outcome "s9" 5
                            (fun n => if decide (n = 1) then Rejected else Resolved) initial)))
    as (H1 & _ & _ & H4).
  - intros (_ & H & _). vm_compute in H. discriminate.
  - split; [exact H1 | exact H4].
Defined.
